(* ===== verification/_CoqProject ===== *)
-Q . S2P
Prelude.v
NameMap.v
ResourceTable.v
Handles.v
Process.v
Cli.v
Wasi.v
WasiHost.v
Canon.v
Wit.v
Abi.v
Utf8.v
GuestAlloc.v
Runtime.v
AbiCall.v
RefRuntime.v
Host.v
Linking.v
