(* ===== verification/Prelude.v ===== *)
(** * A verification development of the js-wasm-binary-sizes component host

    ** The program

    The repository holds a host program, src/runner/src/main.rs, that
    loads a WebAssembly component with wasmtime, links the WASI preview-2
    capability bundle into a [Linker], builds a [Store] around
    [MyState { ctx: WasiCtx, table: ResourceTable }], instantiates the
    component through the [HandlerWorld] bindings that [bindgen!]
    generates from component/component.wit, and calls its one export
    [handleevent] with the request [{ uri: "Test URI" }], printing the
    response.  The guest, src/component/rust/src/lib.rs, implements
    [handleevent] as the identity on its [Request] record.

    Everything runs once, in order, on one thread:
      CLI handling (main.rs 27-54) -> artifact loading (56-63)
      -> capability linking (65-67) -> store creation (69-73)
      -> instantiation (75-77) -> typed call (79-84) -> output (86).
    The two CLI errors call [std::process::exit(1)]; every other failure
    goes through [.expect(..)] (or an index) and panics, status 101.

    ** Files, in dependency order, and what they model
    - [Prelude] (this file): Rust's [Result] as [result] with its scope
      [result_scope]; the hint databases [host] and [host_rw]; Ltac
      [inv_clear], [case_result] and [Z_cond_simpl] (bounds checks by
      [lia]), [str_cbn] (stdpp makes [String.append] [simpl never]) and
      [str_len_lia]; lemmas on [result_map], string membership by
      [existsb], association-list lookup, and [String.index] /
      [String.substring] on appended strings ([str_all] for the
      characters a string may hold).
    - [NameMap]: the semver crate's [Version::parse] ([parse_version]:
      no leading zeros, components within [u64::MAX]) and wasmtime's
      component [NameMap] (wasmtime-environ names.rs) that the linker
      keeps its definitions in: [alternate_lookup_key] ([pkg@1] for a
      major version, [pkg@0.m] for a [0.m] track, none for [0.0.x] or a
      pre-release), [nm_insert] (the greatest version wins an alternate
      key), [nm_get] (exact name, else the alternate key's definition);
      the reference scan [bundle_lookup] and the lemmas that the map
      equals it ([nm_get_bundle]) and that it picks a maximal version
      ([latest_compatible_spec]); [alternate_lookup_key_track] computes
      the key of every printed [base@0.m.p].
    - [ResourceTable]: wasmtime's [ResourceTable] (Module [Table]), the
      table of [MyState] (main.rs 14, 71): a vector of [Free]/[Occupied]
      slots with a free list, [push] (reuse the free-list head or append,
      [Full] past [u32] handles), [get] and [delete] ([NotPresent],
      [WrongType]); the invariant [table_wf] and [push_spec] /
      [delete_spec], which keep it and never panic.
    - [Handles]: the guest's own handle tables (Module [Handles]), one
      per resource type and instance, as wasmtime's component runtime
      keeps them: [Free next] / [Own rep] slots chained from [ht_next],
      [insert] (index plus one, index 0 reserved, LIFO reuse of freed
      slots), [rep] and [remove] ([unknown handle index N]); the
      invariant [ht_wf] and [insert_spec] / [remove_spec].
    - [Process]: the effects of a Rust process as the monad [Proc]
      (what is written, in order: lines, or bytes a host function writes
      for the guest; and a value or a termination) with scope
      [proc_scope]: [println], [eprintln], [exit], [panic], [expect]
      ([msg: {e:?}] through the class [Debug]), [vec_index] (the panic of
      [v[i]]), and [exit_status]; the monad laws and the rewriting
      tactic [proc_simpl] over [host_rw].
    - [Cli]: main.rs 27-54 as [parse_cli] on an [Env] (argv as
      [os_string]s, the environment as a [gmap]): [args_collect],
      [usage_line], [has_aot_flag], [env_var], [ext_of],
      [component_path_of], [invalid_type_line], [loading_line]; and the
      lemmas giving each of its outcomes ([parse_cli_cases]).
    - [Wasi]: main.rs 12-24 and 70-72: [MyState], the [WasiView::ctx]
      borrow as the lens [ctx_view] / [ctx_write_back] (with
      [through_view] for a host function using it), the default
      [WasiCtx] of [WasiCtxBuilder::new().build()], [ResourceTable::new()].
    - [WasiHost]: the WASI p2 host functions linked at line 67 that reach
      [MyState] through [ctx()]: [wasi_call] (environment, preopens,
      stdio streams, blocking read and write, drop), on the host's
      resource indices, run on the state by [host_call_state] (through
      the view of Wasi), in sequence by [run_host_calls], and as the step
      relation [wasi_step]; the invariant [inert_state] of every state
      reachable from [new_state].
    - [Canon]: the canonical ABI between the guest's handles and those
      host functions: [lift_args] (a borrowed stream through [rep], a
      dropped one through [remove]: an unknown handle traps before the
      host function runs), the host function, and [lower_reply] (each
      [own] result inserted into the table of its type); [canon_call]
      is one call on [handle_tables * MyState], [canon_step] the step
      relation, and [tables_wf] with [inert_state] its invariant.
    - [Wit]: the WIT interface (flat record types, values, type checking),
      [Request], [lower_request] / [lift_request] (marshaling at the level
      of WIT values), guest code as a finite tree of returns, traps and
      WASI host calls on guest handles ([guest_result], with [GCall]),
      and the guest of lib.rs: [handleevent] (8-12) and the export glue
      [export_handleevent] of [bindings::export!] (14), whose only
      failure is the [unreachable] of a value outside [request].
    - [Abi]: the guest's wasm32 linear memory as a sparse [gmap Z byte]
      with its size ([load_byte], [store_bytes], [mem_grow] by 64 KiB
      pages up to 4 GiB), little-endian u32 words ([store_u32],
      [load_u32]) and UTF-8 validity by the table of RFC 3629
      ([utf8_valid]), with the load/store frame and round-trip lemmas.
    - [Utf8]: the UTF-8 encoding of Unicode scalar values
      ([encode_scalar], [utf8_encode]) and [utf8_valid_iff]: the table of
      Abi accepts exactly the encodings of scalar sequences.
    - [GuestAlloc]: the guest's global allocator as an interface: the
      class [GlobalAlloc] of its operations and [GlobalAllocLaws] of
      what the glue relies on (fresh blocks above the static data, null
      only when memory cannot grow, [dealloc] frees); the bump
      allocator of Module [Bump] is an instance.
    - [Runtime]: the contract of wasmtime as main.rs uses it, from the
      spec: artifacts, files, the error taxonomy [host_error];
      [spec_from_file], [spec_deserialize_file], [define_all] (into a
      [NameMap], failing on a name defined twice), [import_satisfied]
      (lookup by [nm_get], then each needed function), fail-fast
      [resolve_imports], [spec_instantiate] in wasmtime's order (imports,
      then [lookup_export] of [HandlerWorld::new]'s [Pre], then the start
      code, then [typecheck_export] of [get_typed_func]), [spec_call]
      (the guest code run by [guest_exec] on the instance's
      [handle_tables] and the store's [MyState], each host call through
      [canon_call], as a [Proc]); the instance life cycle as the step
      relation [call_step] over [inst_status] ([Live] with its handle
      tables, or [Poisoned] after a trap) and the state;
      [guest_exec_inert]: from an inert state a guest's host calls write
      nothing, never panic, and keep the state inert.  The interface is
      the class [Runtime] (one field per API main.rs calls, plus the
      abstract state of an instance) and its laws [RuntimeLaws], each a
      refinement of one contract function; Section [Client] derives what
      a caller may rely on.
    - [AbiCall]: the call of [handleevent] (main.rs 84) at the byte
      level, from spec 4.4 and the canonical ABI, over any allocator of
      GuestAlloc: the host's [lower_string] through the guest's
      [cabi_realloc] (wit-bindgen's, calling [ga_alloc], [unreachable]
      on null), the glue of bindings.rs ([export_handleevent_cabi]
      around [handleevent_repr], lib.rs 8-12 on the raw [String] parts;
      [post_return_handleevent] through [cabi_dealloc]), the host's
      [lift_result] with its alignment, bounds and UTF-8 checks, and
      [abi_call] composing them; the invariant [guest_ok] of the guest
      state and the lemmas that each stage keeps it.
    - [RefRuntime]: Module [RefRuntime], a store-passing implementation
      of the interface (instances as indices into the store's slots, as
      wasmtime's [Stored] handles are), the WASI bundle under its
      versioned names ([@0.2.3]), with a search-based import check
      shown equal to [resolve_imports]; it discharges [RuntimeLaws], so
      the laws are satisfiable, and it runs the witnesses.
    - [Host]: main.rs 26-87 as [main] over any [Runtime]:
      [load_component], [setup_linker], [call_handler], [run_component],
      [request], [response_line]; [run_main] observes the lines and the
      exit status.  [main_refines] proves [main] equal to [main_spec],
      the program over contract functions only, and the end-to-end
      properties are proved from it.
    - [Linking]: what the lookup of the guest's imports does on the
      linker [setup_linker] returns (main.rs 65-67, used at 76).

    ** The theorems (the manifest's claims C1-C27)
    - End to end (Host): the passthrough run with the Rust guest (C1);
      the refinement of [main] by [main_spec] (C2); load-mode
      equivalence of [--aot] and module loading, whatever the artifact
      (C3); the four possible outcomes of any run (C4).
    - Error paths (Host): usage error (C5); the panic on an empty argv
      (C6); unknown component type (C7); the manifest variable read
      before the type is checked (C8); missing artifact (C9); the first
      unresolved import (C10); the export's type checked only after the
      start code has run (C11); a trapping guest (C12).
    - CLI (Cli): [--aot] detected in any position (C13).
    - Linking and calls (Host): the linker [expect] never fires (C14);
      a guest that calls WASI during [handleevent], whatever it calls,
      changes nothing of what the run prints but through its result
      (C15: composition of the call with Canon's and WasiHost's
      invariants).
    - Host state (WasiHost): a context lets no host call reach the
      host's output exactly when its outputs are sinks, as the
      default's are (C16).
    - Byte-level calls (AbiCall), over any allocator with the laws: a
      sequence of calls within 4 GiB returns every request and leaves
      the allocator's live blocks as they were, keeping [guest_ok]
      (C17); from any guest state, a returned response is the bytes of
      a UTF-8 string lying in guest memory, read before post-return
      (C18).
    - WASI through [ctx()] (WasiHost): no host call sequence from
      [new_state] panics or writes to the host (C19); every reachable
      state grants no arguments, environment or directories and a closed
      stdin, with a well-formed table (C20); stdout handles fit in a
      [u32] and writes through them are discarded (C21).
    - Guest handles (Canon): a dropped stdout handle traps with
      [unknown handle index] on the next write (C22), and is handed out
      again by the next [get-stderr], naming stderr (C23).
    - Semver linking (Linking): on the linker main.rs sets up, a
      [0.0.p] import is found by its exact name only (C24); a lookup
      that succeeds returns the exact definition or a compatible one of
      maximal version (C25); a guest built against any [0.m.p] of an
      interface defined once on the [0.m] track links to it (C26); and
      end to end, the Rust guest built against any such releases runs
      through main and prints the response (C27).  The demo guest of
      Host imports [@0.2.0] names and links to the bundle's [@0.2.3],
      so C1's witness runs through this lookup.
    Each theorem with a hypothesis (a law instance counts as one) has a
    witness ending in [Defined] that evaluates it on [RefRuntime].

    ** Bounds and fuel
    No fuel is needed: every recursion is structural (the argument
    vector, the WASI bundle, the import list, a list of requests or of
    host calls, a byte list, the preopens); the resource table's free
    list is followed only through the inductive [free_chain], so no walk
    needs fuel (nor does the guest's handle chain, [free_chain] of
    Handles).  The program has no loop of its own, so every definition
    is total by construction and no separate termination theorem is
    needed.  Version numbers are [N], parsed within [u64::MAX] as the
    semver crate does; C26 holds for every patch number in that range
    (a larger one makes the name unparsable, so it has no alternate
    key).  Resource handles are [nat] indices checked against
    [u32::MAX] ([Table.u32_max], [Handles.u32_max]) when a table
    grows.  Exit statuses
    are 0, 1 and 101.  Guest addresses and lengths
    are [Z] kept within the ranges wasm32 gives them: memory is at most
    65536 pages of 65536 bytes (4 GiB), a lowered string at most
    [2^31 - 1] bytes, and pointers and lengths are stored as 4
    little-endian bytes, so a value read back is the value stored exactly
    when it lies in [0, 2^32) ([load_u32_store_u32]); the theorems of
    AbiCall assume memory plus the strings' lengths and the allocator's
    overhead per block fit in 4 GiB.

    ** Not modelled, and why
    - wasmtime and wasmtime-wasi themselves (libraries the sources only
      call): their behaviour is the contract of Runtime.v, the
      [ResourceTable] of ResourceTable.v, the host functions of
      WasiHost.v, the guest's handle tables and their lifting and
      lowering of Handles.v and Canon.v, and the [NameMap] of NameMap.v, modelled from their
      documented behaviour and source.  Import signatures are compared
      as WIT text.  In the semver model, the numeric identifiers of a
      pre-release may have leading zeros (a pre-release has no alternate
      key either way), and versions are ordered by their three numbers:
      the crate's ordering of build metadata, which only breaks ties, is
      left out.
    - Guests that never return: guest code is a finite tree of host
      calls, so every call ends; spec 6 notes that a looping guest blocks
      the host, which this model does not represent.  The message of a
      panic inside a host function (a corrupt resource table, which C19
      and [guest_exec_inert] show cannot arise from [new_state]) is a
      fixed text.  The process's stdin is never read (main.rs's context
      does not inherit it) and is modelled as empty.
    - The guest's real allocator (Rust's dlmalloc in wasi-libc, a
      library): AbiCall is proved over the laws of GuestAlloc, which
      dlmalloc is expected to satisfy; only the bump allocator is shown
      to.  The wasm instructions of the guest are not modelled: the
      export glue is modelled as the function it computes.  Host calls
      inside the byte-level call are not modelled: the Rust guest makes
      none.
    - WASI beyond the functions of WasiHost: sockets and name lookup
      (the context's flags deny them, but their host functions are not
      modelled), clocks and random (granted by the default context, not
      modelled), the filesystem operations on a descriptor (the default
      context has none), and the parent/child links of table entries.
    - The text of wasmtime's errors: an [expect] message is modelled as
      the source's prefix followed by the contract's error value, as
      [host_error_debug] renders it.
    - The JavaScript guest (outside src/), the text and location of the
      panic report Rust writes to stderr (only the message and the
      status are modelled), and the [LinkError::UnknownCapability] of the
      spec (the code requests no capability set).

    ** Further work
    1. Host calls inside the byte-level call of AbiCall (the guest's
       memory, its handle tables and the store's state together).
    2. The major-version track ([pkg@1]) of [alternate_lookup_key] as a
       lemma beside the [0.m] one.
    3. Borrow and lend accounting of the guest's handle tables.
 *)

From stdpp Require Export base list strings gmap pretty.
From Stdlib Require Export ZArith.

(** ** Rust's [Result] *)

Inductive result (A E : Type) : Type :=
| Ok (a : A)
| Err (e : E).
Arguments Ok {A E} a.
Arguments Err {A E} e.

Definition result_bind {A B E} (m : result A E) (k : A -> result B E) : result B E :=
  match m with
  | Ok a => k a
  | Err e => Err e
  end.

(** [Result::map] *)
Definition result_map {A B E} (f : A -> B) (m : result A E) : result B E :=
  match m with
  | Ok a => Ok (f a)
  | Err e => Err e
  end.

Definition is_ok {A E} (m : result A E) : bool :=
  match m with Ok _ => true | Err _ => false end.

Declare Scope result_scope.
Delimit Scope result_scope with result.
Notation "x <-? m ;; k" := (result_bind m (fun x => k))
  (at level 100, m at next level, right associativity) : result_scope.

(** ** Shared automation *)

Create HintDb host discriminated.
Create Rewrite HintDb host_rw.

Ltac inv_clear H := inversion H; subst; clear H.

(** Case on the first [result] scrutinee of a [match] in the goal. *)
Ltac case_result :=
  match goal with
  | |- context [match ?m with Ok _ => _ | Err _ => _ end] =>
      let E := fresh "E" in destruct m eqn:E
  end.

(** Decide the [Z] comparisons of the goal that [lia] settles from the
    context, the way the bounds checks of the ABI are discharged. *)
Ltac Z_cond_simpl :=
  repeat match goal with
  | |- context [Z.ltb ?a ?b] =>
      first [rewrite (proj2 (Z.ltb_ge a b)) by lia | rewrite (proj2 (Z.ltb_lt a b)) by lia]
  | |- context [Z.leb ?a ?b] =>
      first [rewrite (proj2 (Z.leb_le a b)) by lia | rewrite (proj2 (Z.leb_gt a b)) by lia]
  | |- context [Z.eqb ?a ?b] =>
      first [rewrite (proj2 (Z.eqb_eq a b)) by lia | rewrite (proj2 (Z.eqb_neq a b)) by lia]
  end; cbn [negb orb andb].

(** ** Generic lemmas *)

Lemma result_map_Ok {A B E} (f : A -> B) (m : result A E) b :
  result_map f m = Ok b <-> exists a, m = Ok a /\ b = f a.
Proof.
  destruct m as [a|e]; simpl; split.
  - intros [= <-]. eauto.
  - intros (a' & [= ->] & ->). done.
  - done.
  - intros (a' & ? & _). done.
Qed.

Lemma result_map_Err {A B E} (f : A -> B) (m : result A E) e :
  result_map f m = Err e <-> m = Err e.
Proof. destruct m; simpl; split; congruence. Qed.

Lemma result_map_map {A B C E} (f : A -> B) (g : B -> C) (m : result A E) :
  result_map g (result_map f m) = result_map (fun a => g (f a)) m.
Proof. by destruct m. Qed.

Lemma result_map_id_ext {A E} (f : A -> A) (m : result A E) :
  (forall a, f a = a) -> result_map f m = m.
Proof. intros Hf. destruct m; simpl; by rewrite ?Hf. Qed.

(** Membership of a string, decided by [existsb] with [String.eqb], the
    way [args.iter().any(|a| a == s)] decides it. *)
Lemma existsb_eqb_In (s : string) (l : list string) :
  existsb (fun a => String.eqb a s) l = true <-> In s l.
Proof.
  rewrite existsb_exists. split.
  - intros (a & Hin & Heq). apply String.eqb_eq in Heq. by subst.
  - intros Hin. exists s. split; [done|]. apply String.eqb_refl.
Qed.

Lemma existsb_eqb_notIn (s : string) (l : list string) :
  existsb (fun a => String.eqb a s) l = false <-> ~ In s l.
Proof.
  rewrite <- existsb_eqb_In. destruct (existsb _ _); split; congruence.
Qed.

(** [String.append] is injective on the right. *)
Lemma string_app_inj_r (p s1 s2 : string) : (p ++ s1 = p ++ s2)%string -> s1 = s2.
Proof. apply String.app_inj. Qed.

(** Every character satisfies [f]. *)
Fixpoint str_all (f : Ascii.ascii -> bool) (s : string) : bool :=
  match s with
  | EmptyString => true
  | String a s' => f a && str_all f s'
  end.

(** stdpp makes [String.append] [simpl never]: its two equations, and a
    [cbn] that uses them. *)
Lemma string_app_nil_l (s : string) : ("" ++ s)%string = s.
Proof. reflexivity. Qed.

Lemma string_app_cons a (s1 s2 : string) : (String a s1 ++ s2)%string = String a (s1 ++ s2).
Proof. reflexivity. Qed.

Lemma string_prefix_nil (s : string) : String.prefix "" s = true.
Proof. by destruct s. Qed.

Ltac str_cbn :=
  rewrite ?string_app_nil_l, ?string_app_cons in *;
  cbn [String.length String.substring String.index String.prefix str_all] in *;
  rewrite ?string_prefix_nil in *.

Lemma string_app_assoc (s1 s2 s3 : string) : ((s1 ++ s2) ++ s3 = s1 ++ s2 ++ s3)%string.
Proof. induction s1; str_cbn; congruence. Qed.

Lemma string_length_app (s1 s2 : string) : String.length (s1 ++ s2) = String.length s1 + String.length s2.
Proof. induction s1; str_cbn; lia. Qed.

(** Arithmetic on the lengths of appended strings. *)
Ltac str_len_lia :=
  rewrite ?string_length_app; str_cbn; rewrite ?string_length_app; str_cbn; lia.

Lemma str_all_app f (s1 s2 : string) : str_all f (s1 ++ s2) = str_all f s1 && str_all f s2.
Proof. induction s1; str_cbn; [done|]. by rewrite IHs1, andb_assoc. Qed.

Lemma substring_all (s : string) : String.substring 0 (String.length s) s = s.
Proof. induction s; str_cbn; congruence. Qed.

(** [String.substring] of an append at the length of its left part. *)
Lemma substring_prefix n (s1 s2 : string) :
  n = String.length s1 -> String.substring 0 n (s1 ++ s2) = s1.
Proof. intros ->. induction s1; str_cbn; [by destruct s2|congruence]. Qed.

Lemma substring_suffix n m (s1 s2 : string) :
  n = String.length s1 -> m = String.length s2 -> String.substring n m (s1 ++ s2) = s2.
Proof.
  intros -> ->. induction s1; str_cbn; [apply substring_all|done].
Qed.

Lemma substring_len m (s : string) : m = String.length s -> String.substring 0 m s = s.
Proof. intros ->. apply substring_all. Qed.

(** Dropping the left part of an append. *)
Lemma substring_app_drop n k m (s1 s2 : string) :
  n = String.length s1 + k -> String.substring n m (s1 ++ s2) = String.substring k m s2.
Proof. intros ->. induction s1; [done|]. rewrite string_app_cons. exact IHs1. Qed.

Lemma substring_char_suffix n m (s1 : string) c (s2 : string) :
  n = String.length s1 + 1 -> m = String.length s2 -> String.substring n m (s1 ++ String c s2) = s2.
Proof. intros -> ->. rewrite (substring_app_drop _ 1) by done. apply substring_all. Qed.

(** Taking the left part of an append and [k] more. *)
Lemma substring_app_take n k (s1 s2 : string) :
  n = String.length s1 + k ->
  String.substring 0 n (s1 ++ s2) = (s1 ++ String.substring 0 k s2)%string.
Proof.
  intros ->. induction s1 as [|a s1 IH]; [done|].
  rewrite !string_app_cons. simpl. by rewrite IH.
Qed.

(** The first occurrence of [c], in a string whose left part has none. *)
Lemma index_char_app c (s1 s2 : string) :
  str_all (fun a => negb (Ascii.eqb a c)) s1 = true ->
  String.index 0 (String c EmptyString) (s1 ++ String c s2) = Some (String.length s1).
Proof.
  induction s1 as [|a s1 IH]; str_cbn.
  - intros _. destruct (Ascii.ascii_dec c c); [by destruct s2|done].
  - intros [Ha Hs]%andb_prop.
    destruct (Ascii.ascii_dec c a) as [->|]; [by rewrite Ascii.eqb_refl in Ha|].
    by rewrite IH.
Qed.



(** Lookup by name in an association list, first binding first. *)
Fixpoint assoc_lookup {A} (k : string) (l : list (string * A)) : option A :=
  match l with
  | [] => None
  | (k', a) :: rest => if String.eqb k' k then Some a else assoc_lookup k rest
  end.

Lemma assoc_lookup_cons_eq {A} k (a : A) l : assoc_lookup k ((k, a) :: l) = Some a.
Proof. simpl. by rewrite String.eqb_refl. Qed.

Lemma assoc_lookup_cons_ne {A} k k' (a : A) l :
  k' <> k -> assoc_lookup k ((k', a) :: l) = assoc_lookup k l.
Proof. intros Hne. simpl. destruct (String.eqb_spec k' k); congruence. Qed.

Lemma assoc_lookup_In {A} k (a : A) l : assoc_lookup k l = Some a -> In (k, a) l.
Proof.
  induction l as [|[k' a'] l IH]; simpl; [done|].
  destruct (String.eqb_spec k' k) as [->|]; [intros [= ->]; by left|].
  intros H. right. by apply IH.
Qed.

#[export] Hint Rewrite @assoc_lookup_cons_eq : host_rw.
