(* ===== verification/NameMap.v ===== *)
(** * Versioned names and the linker's name map

    wasmtime's component [Linker] keeps its definitions in a [NameMap]
    (wasmtime-environ, component/names.rs): a map from the full name of
    each definition, e.g. [wasi:cli/stdout@0.2.3], to the definition,
    and beside it a map of "alternate lookups" that makes the lookup of
    an import tolerate semver-compatible versions.  Main.rs reaches it
    through [add_to_linker_sync] (the definitions) and
    [HandlerWorld::instantiate] (the lookups of the guest's imports).

    - [Version] and [parse_version] follow the [semver] crate's
      [Version::parse]: three numeric components without leading zeros,
      each at most [u64::MAX], then an optional pre-release after [-]
      and optional build metadata after [+], both dot-separated
      non-empty identifiers of [0-9A-Za-z-].
    - [alternate_lookup_key] is the function of names.rs: the name up to
      its major version when that is not 0 ([pkg@1]), up to its minor
      version when the major is 0 and the minor is not ([pkg@0.2]), and
      nothing for a [0.0.x] version or a pre-release.
    - [nm_insert] and [nm_get] are [NameMap::insert] (with shadowing
      allowed: the linker checks for a name defined twice before, see
      Runtime.v) and [NameMap::get]: an exact hit first, else the
      definition the alternate key recorded, the greatest version
      inserted under it (the later one on a tie).

    Two simplifications, both outside what a WASI name carries: the
    numeric identifiers of a pre-release may have leading zeros (every
    pre-release has no alternate key either way), and versions are
    ordered by their three numbers, without the crate's ordering of
    build metadata.

    [latest_compatible] and [bundle_lookup] are the reference the map
    is checked against: one scan of the defined bundle per lookup. *)

From S2P Require Import Prelude.
From Stdlib Require Import Ascii.

Local Open Scope string_scope.

(** ** Versions *)

Record Version := {
  major : N;
  minor : N;
  patch : N;
  pre : string;
  build : string
}.

Definition u64_max : N := 18446744073709551615.

Definition digit_value (a : Ascii.ascii) : option N :=
  let n := Ascii.N_of_ascii a in
  if (48 <=? n)%N && (n <=? 57)%N then Some (n - 48)%N else None.

Fixpoint digits_value (acc : N) (s : string) : option N :=
  match s with
  | EmptyString => Some acc
  | String a s' => d ← digit_value a; digits_value (acc * 10 + d)%N s'
  end.

(** A numeric component: ["0"], or digits not starting with 0. *)
Definition parse_numeric (s : string) : option N :=
  match s with
  | EmptyString => None
  | String a rest =>
      if Ascii.eqb a "0"%char then (if String.eqb rest "" then Some 0%N else None)
      else n ← digits_value 0 s; if (n <=? u64_max)%N then Some n else None
  end.

(** The text before and after the first [c]. *)
Fixpoint split_once (c : Ascii.ascii) (s : string) : option (string * string) :=
  match s with
  | EmptyString => None
  | String a s' =>
      if Ascii.eqb a c then Some (EmptyString, s')
      else '(l, r) ← split_once c s'; Some (String a l, r)
  end.

(** The text before the first [-] or [+], and the rest from it. *)
Fixpoint span_patch (s : string) : string * string :=
  match s with
  | EmptyString => (EmptyString, EmptyString)
  | String a s' =>
      if Ascii.eqb a "-"%char || Ascii.eqb a "+"%char then (EmptyString, s)
      else let '(l, r) := span_patch s' in (String a l, r)
  end.

Definition ident_char (a : Ascii.ascii) : bool :=
  let n := Ascii.N_of_ascii a in
  ((48 <=? n)%N && (n <=? 57)%N) || ((65 <=? n)%N && (n <=? 90)%N)
  || ((97 <=? n)%N && (n <=? 122)%N) || Ascii.eqb a "-"%char.

(** Dot-separated non-empty identifiers; [empty] says whether the
    current identifier is still empty. *)
Fixpoint idents_ok (empty : bool) (s : string) : bool :=
  match s with
  | EmptyString => negb empty
  | String a s' =>
      if Ascii.eqb a "."%char then negb empty && idents_ok true s'
      else ident_char a && idents_ok false s'
  end.

(** What follows the patch number: nothing, [-pre], [-pre+build] or
    [+build]. *)
Definition parse_suffix (s : string) : option (string * string) :=
  match s with
  | EmptyString => Some (EmptyString, EmptyString)
  | String a t =>
      if Ascii.eqb a "+"%char then (if idents_ok true t then Some (EmptyString, t) else None)
      else match split_once "+"%char t with
           | None => if idents_ok true t then Some (t, EmptyString) else None
           | Some (p, b) => if idents_ok true p && idents_ok true b then Some (p, b) else None
           end
  end.

(** [semver::Version::parse]. *)
Definition parse_version (s : string) : option Version :=
  '(maj, r1) ← split_once "."%char s;
  '(min, r2) ← split_once "."%char r1;
  let '(pat, rest) := span_patch r2 in
  M ← parse_numeric maj;
  m ← parse_numeric min;
  p ← parse_numeric pat;
  '(pr, b) ← parse_suffix rest;
  Some {| major := M; minor := m; patch := p; pre := pr; build := b |}.

(** The order of versions without pre-release, by their numbers. *)
Definition version_lt (v w : Version) : bool :=
  match N.compare (major v) (major w) with
  | Lt => true
  | Gt => false
  | Eq =>
      match N.compare (minor v) (minor w) with
      | Lt => true
      | Gt => false
      | Eq => (patch v <? patch w)%N
      end
  end.

(** ** The alternate lookup key of names.rs *)

Definition alternate_lookup_key (name : string) : option (string * Version) :=
  at_ ← String.index 0 "@" name;
  let version_string := String.substring (at_ + 1) (String.length name - (at_ + 1)) name in
  version ← parse_version version_string;
  if negb (String.eqb (pre version) "") then None
  else if negb (major version =? 0)%N then
    first_dot ← String.index 0 "." version_string;
    Some (String.substring 0 (first_dot + at_ + 1) name, version)
  else if negb (minor version =? 0)%N then
    first_dot ← String.index 0 "." version_string;
    let first_dot := first_dot + at_ + 1 in
    second_dot ← String.index 0 "."
      (String.substring (first_dot + 1) (String.length name - (first_dot + 1)) name);
    Some (String.substring 0 (second_dot + first_dot + 1) name, version)
  else None.

(** ** The name map *)

Section NameMap.
Context {V : Type}.

Record NameMap := {
  nm_defs : gmap string V;
  nm_alts : gmap string (string * Version)
}.

Definition nm_empty : NameMap := {| nm_defs := ∅; nm_alts := ∅ |}.

(** The update of the alternate lookups for a definition of [name]:
    it takes the alternate key unless that holds a greater version. *)
Definition alt_update (name : string) (prev : option (string * Version)) (k : string)
    : option (string * Version) :=
  match alternate_lookup_key name with
  | Some (k', ver) =>
      if String.eqb k' k then
        match prev with
        | Some (_, pv) => if version_lt ver pv then prev else Some (name, ver)
        | None => Some (name, ver)
        end
      else prev
  | None => prev
  end.

(** [NameMap::insert]. *)
Definition nm_insert (m : NameMap) (name : string) (v : V) : NameMap :=
  {| nm_defs := <[name := v]> (nm_defs m);
     nm_alts :=
       match alternate_lookup_key name with
       | None => nm_alts m
       | Some (k, ver) =>
           match nm_alts m !! k with
           | Some (_, pv) => if version_lt ver pv then nm_alts m else <[k := (name, ver)]> (nm_alts m)
           | None => <[k := (name, ver)]> (nm_alts m)
           end
       end |}.

(** [NameMap::get]. *)
Definition nm_get (m : NameMap) (name : string) : option V :=
  match nm_defs m !! name with
  | Some d => Some d
  | None =>
      '(k, _) ← alternate_lookup_key name;
      '(exact, _) ← nm_alts m !! k;
      nm_defs m !! exact
  end.

Definition nm_insert_all (bundle : list (string * V)) (m : NameMap) : NameMap :=
  fold_left (fun acc d => nm_insert acc d.1 d.2) bundle m.

(** The map of a bundle defined in order into an empty map. *)
Definition bundle_defs (bundle : list (string * V)) : NameMap := nm_insert_all bundle nm_empty.

(** The reference: the definition a scan of the bundle picks for [k]. *)
Definition latest_compatible (bundle : list (string * V)) (k : string) : option (string * Version) :=
  fold_left (fun acc d => alt_update d.1 acc k) bundle None.

Definition bundle_lookup (bundle : list (string * V)) (name : string) : option V :=
  match (list_to_map bundle : gmap string V) !! name with
  | Some d => Some d
  | None =>
      '(k, _) ← alternate_lookup_key name;
      '(exact, _) ← latest_compatible bundle k;
      (list_to_map bundle : gmap string V) !! exact
  end.

(** ** Lemmas *)

Lemma nm_defs_insert_all bundle (m : NameMap) :
  NoDup bundle.*1 -> (forall n, n ∈ bundle.*1 -> nm_defs m !! n = None) ->
  nm_defs (nm_insert_all bundle m) = list_to_map bundle ∪ nm_defs m.
Proof.
  induction bundle as [|[n v] rest IH] in m |- *; intros Hnd Hfresh; simpl.
  { by rewrite (left_id_L ∅ union). }
  apply NoDup_cons in Hnd as [Hn Hnd].
  rewrite IH; [| done |].
  - simpl. rewrite <- insert_union_l, insert_union_r; [done|].
    by apply not_elem_of_list_to_map_1.
  - intros n' Hn'. simpl. rewrite lookup_insert_ne by (intros ->; done).
    apply Hfresh. simpl. by right.
Qed.

(** One insertion updates the alternate lookups of every key as
    [alt_update] says. *)
Lemma nm_alts_insert m name (v : V) k :
  nm_alts (nm_insert m name v) !! k = alt_update name (nm_alts m !! k) k.
Proof.
  unfold nm_insert, alt_update. simpl.
  destruct (alternate_lookup_key name) as [[k' ver]|]; [|done].
  destruct (String.eqb_spec k' k) as [<-|Hne].
  - destruct (nm_alts m !! k') as [[pk pv]|] eqn:E.
    + destruct (version_lt ver pv); [by rewrite E|by rewrite lookup_insert_eq].
    + by rewrite lookup_insert_eq.
  - destruct (nm_alts m !! k') as [[pk pv]|];
      [destruct (version_lt ver pv)|]; rewrite ?lookup_insert_ne; done.
Qed.

Lemma nm_alts_insert_all bundle (m : NameMap) k :
  nm_alts (nm_insert_all bundle m) !! k
  = fold_left (fun acc d => alt_update d.1 acc k) bundle (nm_alts m !! k).
Proof.
  induction bundle as [|[n v] rest IH] in m |- *; simpl; [done|].
  by rewrite IH, nm_alts_insert.
Qed.

Lemma bundle_defs_defs bundle :
  NoDup bundle.*1 -> nm_defs (bundle_defs bundle) = list_to_map bundle.
Proof.
  intros Hnd. unfold bundle_defs. rewrite nm_defs_insert_all; [|done|done].
  apply (right_id_L ∅ union).
Qed.

Lemma bundle_defs_alts bundle k :
  nm_alts (bundle_defs bundle) !! k = latest_compatible bundle k.
Proof. apply nm_alts_insert_all. Qed.

(** The name map's lookup is the reference scan. *)
Lemma nm_get_bundle bundle name :
  NoDup bundle.*1 -> nm_get (bundle_defs bundle) name = bundle_lookup bundle name.
Proof.
  intros Hnd. unfold nm_get, bundle_lookup. rewrite bundle_defs_defs by done.
  destruct ((list_to_map bundle : gmap string V) !! name); [done|].
  destruct (alternate_lookup_key name) as [[k ?]|]; simpl; [|done].
  by rewrite bundle_defs_alts.
Qed.

End NameMap.

Arguments NameMap : clear implicits.

(** ** The order of versions *)

Lemma version_lt_spec v w :
  version_lt v w = true <->
  (major v < major w \/ major v = major w /\ (minor v < minor w \/ minor v = minor w /\ patch v < patch w))%N.
Proof.
  unfold version_lt.
  destruct (N.compare_spec (major v) (major w));
    [destruct (N.compare_spec (minor v) (minor w))|..];
    rewrite ?N.ltb_lt; split; intros; try done; lia.
Qed.

Lemma version_lt_asym v w : version_lt v w = true -> version_lt w v = false.
Proof.
  intros H%version_lt_spec. apply not_true_iff_false. rewrite version_lt_spec. lia.
Qed.

Lemma version_lt_irrefl v : version_lt v v = false.
Proof. apply not_true_iff_false. rewrite version_lt_spec. lia. Qed.

Lemma version_ge_trans u v w :
  version_lt v u = false -> version_lt w v = false -> version_lt w u = false.
Proof.
  rewrite <- !not_true_iff_false, !version_lt_spec. lia.
Qed.

(** ** What the reference scan picks *)

Section Latest.
Context {V : Type}.

Definition compatible_in (bundle : list (string * V)) (k : string) (n : string) (v : Version) : Prop :=
  n ∈ bundle.*1 /\ alternate_lookup_key n = Some (k, v).

Lemma compatible_in_snoc (l : list (string * V)) n s k n' v' :
  compatible_in (l ++ [(n, s)]) k n' v'
  <-> compatible_in l k n' v' \/ n' = n /\ alternate_lookup_key n = Some (k, v').
Proof.
  unfold compatible_in. rewrite fmap_app, elem_of_app. simpl. rewrite list_elem_of_singleton.
  split; [intros [[?| ->] ?]|intros [[??]|[-> ?]]]; auto.
Qed.

(** The scan picks a definition under [k] of a version no other
    definition under [k] exceeds, and picks one whenever there is one. *)
Lemma latest_compatible_spec (bundle : list (string * V)) k :
  match latest_compatible bundle k with
  | Some (n, v) => compatible_in bundle k n v
      /\ forall n' v', compatible_in bundle k n' v' -> version_lt v v' = false
  | None => forall n v, ~ compatible_in bundle k n v
  end.
Proof.
  unfold latest_compatible.
  induction bundle as [|[n s] l IH] using rev_ind.
  { intros ? ? [H _]. by apply elem_of_nil in H. }
  rewrite fold_left_app. simpl. unfold alt_update.
  destruct (fold_left _ l None) as [[pn pv]|];
    destruct (alternate_lookup_key n) as [[k' ver]|] eqn:Ek;
    [destruct (String.eqb_spec k' k) as [<-|Hne]| |destruct (String.eqb_spec k' k) as [<-|Hne]|];
    try (destruct (version_lt ver pv) eqn:Hlt); simpl; setoid_rewrite compatible_in_snoc.
  all: repeat match goal with H : _ /\ _ |- _ => destruct H as [?IHc ?IHm] end.
  all: try split; try (by left); try (by right).
  all: intros n' v' [Hc|[-> Hk]]; [|rewrite Ek in Hk; try congruence; injection Hk as <-].
  all: first [by eapply IH | by exfalso; eapply IH | by apply IHm | by eapply version_ge_trans; eauto
             | by apply version_lt_asym | by apply version_lt_irrefl].
Qed.

(** A lookup fails exactly when the name is not defined and no
    definition shares its alternate key (a [0.0.x] or pre-release name
    has none). *)
Lemma bundle_lookup_None (bundle : list (string * V)) name :
  bundle_lookup bundle name = None <->
  (name ∉ bundle.*1) /\ forall k v, alternate_lookup_key name = Some (k, v) ->
                      forall n' v', ~ compatible_in bundle k n' v'.
Proof.
  unfold bundle_lookup. rewrite (not_elem_of_list_to_map (M := gmap string)).
  destruct ((list_to_map bundle : gmap string V) !! name); [naive_solver|].
  destruct (alternate_lookup_key name) as [[k v]|]; simpl; [|naive_solver].
  pose proof (latest_compatible_spec bundle k) as Hl.
  destruct (latest_compatible bundle k) as [[ex ev]|]; simpl; [|naive_solver].
  destruct Hl as [Hc _].
  destruct ((list_to_map bundle : gmap string V) !! ex) eqn:Ex.
  - split; [done|]. intros [_ Hno]. exfalso. exact (Hno k v eq_refl ex ev Hc).
  - apply not_elem_of_list_to_map_2 in Ex. by destruct Hc.
Qed.

(** A lookup that succeeds returns the definition of the name itself,
    or, when the name is not defined, the definition of a version
    compatible with it that no other compatible definition exceeds. *)
Lemma bundle_lookup_Some (bundle : list (string * V)) name d :
  NoDup bundle.*1 -> bundle_lookup bundle name = Some d ->
  (name, d) ∈ bundle
  \/ ((name ∉ bundle.*1) /\ exists k v n' v', alternate_lookup_key name = Some (k, v)
       /\ (n', d) ∈ bundle /\ alternate_lookup_key n' = Some (k, v')
       /\ forall n'' v'', compatible_in bundle k n'' v'' -> version_lt v' v'' = false).
Proof.
  intros Hnd. unfold bundle_lookup.
  destruct ((list_to_map bundle : gmap string V) !! name) eqn:E.
  { intros [= <-]. left. by apply elem_of_list_to_map_2 in E. }
  intros Hd. right. split; [by apply not_elem_of_list_to_map_2 in E|].
  destruct (alternate_lookup_key name) as [[k v]|]; simpl in Hd; [|done].
  pose proof (latest_compatible_spec bundle k) as Hl.
  destruct (latest_compatible bundle k) as [[ex ev]|]; simpl in Hd; [|done].
  destruct Hl as [[_ Hk] Hmax]. apply elem_of_list_to_map_2 in Hd. eauto 10.
Qed.

(** A definition alone under its key is the one the scan picks. *)
Lemma latest_compatible_unique (bundle : list (string * V)) k n v d :
  (n, d) ∈ bundle -> alternate_lookup_key n = Some (k, v) ->
  Forall (fun e => e.1 = n \/ fst <$> alternate_lookup_key e.1 <> Some k) bundle ->
  latest_compatible bundle k = Some (n, v).
Proof.
  intros Hin Hk Hall. pose proof (latest_compatible_spec bundle k) as Hl.
  assert (Hc : compatible_in bundle k n v).
  { split; [|done]. apply list_elem_of_fmap. by exists (n, d). }
  destruct (latest_compatible bundle k) as [[n0 v0]|]; [|by destruct (Hl n v)].
  destruct Hl as [[(e & -> & He)%list_elem_of_fmap Hk0] _].
  rewrite Forall_forall in Hall. destruct (Hall e He) as [Hn|Hn]; [|by rewrite Hk0 in Hn].
  rewrite Hn in Hk0 |- *. congruence.
Qed.

End Latest.

(** ** Names printed with a version

    The names of WASI interfaces are [<package>/<interface>@<version>]
    with the version printed in decimal; these lemmas compute the
    alternate key of such a name, for every version on a [0.m] track. *)

Ltac digit_cases d :=
  let H := fresh in
  assert (H : (d = 0 \/ d = 1 \/ d = 2 \/ d = 3 \/ d = 4 \/ d = 5 \/ d = 6 \/ d = 7 \/ d = 8 \/ d = 9)%N) by lia;
  destruct_or! H; subst d.

Lemma digit_value_char d : (d < 10)%N -> digit_value (pretty_N_char d) = Some d.
Proof. intros. digit_cases d; reflexivity. Qed.

Lemma pretty_N_go_app x s : pretty_N_go x s = pretty_N_go x "" +:+ s.
Proof.
  revert s. induction (N.lt_wf_0 x) as [x _ IH]; intros s.
  destruct (decide (x = 0)%N) as [->|Hx]; [done|].
  rewrite !(pretty_N_go_step x) by lia.
  assert (Hlt : (x `div` 10 < x)%N) by (apply N.div_lt; lia).
  rewrite (IH _ Hlt (String _ s)), (IH _ Hlt (String _ "")), string_app_assoc.
  reflexivity.
Qed.

(** The characters of a printed number are digits. *)
Lemma pretty_N_go_all f x s :
  (forall d, (d < 10)%N -> f (pretty_N_char d) = true) ->
  str_all f (pretty_N_go x s) = str_all f s.
Proof.
  intros Hf. revert s. induction (N.lt_wf_0 x) as [x _ IH]; intros s.
  destruct (decide (x = 0)%N) as [->|Hx]; [done|].
  rewrite pretty_N_go_step by lia. rewrite IH by (apply N.div_lt; lia).
  str_cbn. rewrite Hf; [done|]. apply N.mod_lt. lia.
Qed.

Lemma pretty_all f (n : N) :
  (forall d, (d < 10)%N -> f (pretty_N_char d) = true) -> str_all f (pretty n) = true.
Proof.
  intros Hf. unfold pretty, pretty_N. case_decide.
  - str_cbn. specialize (Hf 0%N ltac:(lia)). simpl in Hf. by rewrite Hf.
  - by rewrite pretty_N_go_all.
Qed.

Lemma digits_value_app acc s1 s2 :
  digits_value acc (s1 +:+ s2) = digits_value acc s1 ≫= fun a => digits_value a s2.
Proof.
  induction s1 as [|a s1 IH] in acc |- *; str_cbn; [done|]. simpl.
  destruct (digit_value a); simpl; [apply IH|done].
Qed.

Lemma digits_value_pretty x : digits_value 0 (pretty_N_go x "") = Some x.
Proof.
  induction (N.lt_wf_0 x) as [x _ IH].
  destruct (decide (x = 0)%N) as [->|Hx]; [done|].
  rewrite pretty_N_go_step, pretty_N_go_app, digits_value_app by lia.
  rewrite IH by (apply N.div_lt; lia). simpl.
  rewrite digit_value_char by (apply N.mod_lt; lia). simpl. f_equal.
  rewrite N.mul_comm. symmetry. apply N.div_mod. lia.
Qed.

(** A positive number is printed without a leading zero. *)
Lemma pretty_N_go_head x s :
  (0 < x)%N -> exists c t, pretty_N_go x s = String c t /\ c <> "0"%char.
Proof.
  revert s. induction (N.lt_wf_0 x) as [x _ IH]; intros s Hx.
  rewrite pretty_N_go_step by done.
  destruct (decide (x `div` 10 = 0)%N) as [Hd|Hd].
  - rewrite Hd, pretty_N_go_0. eexists _, _. split; [done|].
    intros Hc%(pretty_N_char_inj _ 0%N); [|apply N.mod_lt; lia|lia].
    pose proof (N.div_mod x 10 ltac:(lia)). lia.
  - apply IH; [apply N.div_lt; lia|]. by apply N.neq_0_lt_0.
Qed.

(** The printed number parses back, within [u64::MAX]. *)
Lemma parse_numeric_pretty n : (n <= u64_max)%N -> parse_numeric (pretty n) = Some n.
Proof.
  intros Hn. unfold pretty, pretty_N. case_decide as H0; [by subst|].
  destruct (pretty_N_go_head n "") as (c & t & Ht & Hc); [lia|].
  pose proof (digits_value_pretty n) as Hv. rewrite Ht in Hv |- *.
  unfold parse_numeric. destruct (Ascii.eqb_spec c "0"); [done|].
  rewrite Hv. simpl. by rewrite (proj2 (N.leb_le _ _) Hn).
Qed.

Lemma split_once_app c s1 s2 :
  str_all (fun a => negb (Ascii.eqb a c)) s1 = true -> split_once c (s1 +:+ String c s2) = Some (s1, s2).
Proof.
  induction s1 as [|a s1 IH]; str_cbn; simpl; [by rewrite Ascii.eqb_refl|].
  intros [Ha%negb_true_iff Hs]%andb_prop. by rewrite Ha, IH.
Qed.

Lemma span_patch_plain s :
  str_all (fun a => negb (Ascii.eqb a "-" || Ascii.eqb a "+")) s = true -> span_patch s = (s, "").
Proof.
  induction s as [|a s IH]; simpl; [done|].
  intros [Ha%negb_true_iff Hs]%andb_prop. by rewrite Ha, IH.
Qed.

(** A release version: no pre-release, no build metadata. *)
Definition release (M m p : N) : Version :=
  {| major := M; minor := m; patch := p; pre := ""; build := "" |}.

Lemma parse_version_release pm pp m p :
  parse_numeric pm = Some m -> parse_numeric pp = Some p ->
  str_all (fun a => negb (Ascii.eqb a ".")) pm = true ->
  str_all (fun a => negb (Ascii.eqb a "-" || Ascii.eqb a "+")) pp = true ->
  parse_version (String "0" (String "." (pm +:+ String "." pp))) = Some (release 0 m p).
Proof.
  intros Hm Hp Hdot Hpp. unfold parse_version. simpl.
  rewrite split_once_app by done. simpl. rewrite span_patch_plain by done. simpl.
  by rewrite Hm, Hp.
Qed.

(** The alternate key of a name on a [0.m] track, [m <> 0], is the
    name up to its minor version. *)
Lemma alternate_lookup_key_minor b pm pp m p :
  str_all (fun a => negb (Ascii.eqb a "@")) b = true ->
  parse_numeric pm = Some m -> parse_numeric pp = Some p -> m <> 0%N ->
  str_all (fun a => negb (Ascii.eqb a ".")) pm = true ->
  str_all (fun a => negb (Ascii.eqb a "-" || Ascii.eqb a "+")) pp = true ->
  alternate_lookup_key (b +:+ String "@" (String "0" (String "." (pm +:+ String "." pp))))
  = Some (b +:+ String "@" (String "0" (String "." pm)), release 0 m p).
Proof.
  intros Hb Hm Hp Hm0 Hdot Hpp. unfold alternate_lookup_key.
  rewrite index_char_app by done. cbn [mbind option_bind].
  rewrite substring_char_suffix by str_len_lia.
  rewrite (parse_version_release pm pp m p) by done. cbn [mbind option_bind pre major minor release].
  rewrite (proj2 (N.eqb_neq m 0) Hm0). cbn [negb String.eqb N.eqb].
  assert (Hi : String.index 0 "." (String "0" (String "." (pm +:+ String "." pp))) = Some 1)
    by (cbn; rewrite string_prefix_nil; reflexivity).
  rewrite Hi. cbn [mbind option_bind].
  rewrite (substring_app_drop _ 3 _ b) by lia. cbn [String.substring].
  rewrite substring_len by str_len_lia.
  rewrite index_char_app by done. cbn [mbind option_bind].
  rewrite (substring_app_take _ (S (S (S (String.length pm)))) b) by lia. cbn [String.substring].
  by rewrite substring_prefix.
Qed.

(** The alternate key of [base@0.m.p], [m <> 0], is [base@0.m]. *)
Lemma alternate_lookup_key_track base m p :
  str_all (fun a => negb (Ascii.eqb a "@")) base = true -> m <> 0%N ->
  (m <= u64_max)%N -> (p <= u64_max)%N ->
  alternate_lookup_key (base +:+ "@0." +:+ pretty m +:+ "." +:+ pretty p)
  = Some (base +:+ "@0." +:+ pretty m, release 0 m p).
Proof.
  intros. apply alternate_lookup_key_minor; auto using parse_numeric_pretty;
    apply pretty_all; intros d ?; digit_cases d; reflexivity.
Qed.

(** A name [base@0.0.p] has no alternate key: a [0.0.x] version is
    compatible with itself only. *)
Lemma alternate_lookup_key_zero_zero base p :
  str_all (fun a => negb (Ascii.eqb a "@")) base = true -> (p <= u64_max)%N ->
  alternate_lookup_key (base +:+ "@0.0." +:+ pretty p) = None.
Proof.
  intros Hb Hp. unfold alternate_lookup_key.
  change ("@0.0." +:+ pretty p) with (String "@" (String "0" (String "." ("0" +:+ String "." (pretty p))))).
  rewrite index_char_app by done. cbn [mbind option_bind].
  rewrite substring_char_suffix by str_len_lia.
  rewrite (parse_version_release "0" (pretty p) 0 p); [done|done|by apply parse_numeric_pretty|done|].
  apply pretty_all; intros d ?; digit_cases d; reflexivity.
Qed.

Section Track.
Context {V : Type}.

(** An import [base@0.m.p] finds the bundle's [base@0.m.p'] when that is
    the only definition on the track, for every pair of patch numbers. *)
Lemma bundle_lookup_track (bundle : list (string * V)) base m p p' d :
  NoDup bundle.*1 ->
  str_all (fun a => negb (Ascii.eqb a "@")) base = true -> m <> 0%N ->
  (m <= u64_max)%N -> (p <= u64_max)%N -> (p' <= u64_max)%N ->
  (base +:+ "@0." +:+ pretty m +:+ "." +:+ pretty p', d) ∈ bundle ->
  Forall (fun e => e.1 = base +:+ "@0." +:+ pretty m +:+ "." +:+ pretty p'
                   \/ fst <$> alternate_lookup_key e.1 <> Some (base +:+ "@0." +:+ pretty m)) bundle ->
  bundle_lookup bundle (base +:+ "@0." +:+ pretty m +:+ "." +:+ pretty p) = Some d.
Proof.
  intros Hnd Hb Hm0 Hm Hp Hp' Hin Hall. unfold bundle_lookup.
  rewrite (alternate_lookup_key_track base m p) by done.
  destruct ((list_to_map bundle : gmap string V) !! _) as [d'|] eqn:E.
  - apply elem_of_list_to_map_2 in E as Hd. rewrite Forall_forall in Hall.
    destruct (Hall _ Hd) as [Hn|Hn]; simpl in Hn.
    + rewrite Hn in E. rewrite (elem_of_list_to_map_1 _ _ _ Hnd Hin) in E. congruence.
    + by rewrite alternate_lookup_key_track in Hn.
  - simpl. rewrite (latest_compatible_unique _ _ _ (release 0 m p') d Hin);
      [|by apply alternate_lookup_key_track|done].
    simpl. by apply elem_of_list_to_map_1.
Qed.

(** When no two definitions share an alternate key, a definition is
    alone on its track. *)
Lemma alone_on_track (bundle : list (string * V)) n d k v :
  NoDup ((fun e => fst <$> alternate_lookup_key e.1) <$> bundle) ->
  (n, d) ∈ bundle -> alternate_lookup_key n = Some (k, v) ->
  Forall (fun e => e.1 = n \/ fst <$> alternate_lookup_key e.1 <> Some k) bundle.
Proof.
  intros Hnd Hin Hk. apply Forall_forall. intros e He.
  destruct (decide (fst <$> alternate_lookup_key e.1 = Some k)) as [He'|]; [left|by right].
  apply list_elem_of_lookup in Hin as [i Hi], He as [j Hj].
  assert (i = j) as ->.
  { apply (NoDup_lookup _ i j (Some k) Hnd); rewrite list_lookup_fmap;
      [rewrite Hi; simpl; by rewrite Hk|rewrite Hj; simpl; by rewrite He']. }
  rewrite Hi in Hj. by inv_clear Hj.
Qed.

End Track.
