(* ===== verification/ResourceTable.v ===== *)
(** * wasmtime's [ResourceTable]

    The table of host resources a component instance refers to by
    handle: [MyState.table] (main.rs 14, built at 71 by
    [ResourceTable::new()]) and lent to WASI through [ctx()] (17-24).
    wasmtime is a library the sources only call, so this file models its
    documented implementation (wasmtime::component::ResourceTable), as
    Runtime.v models the rest of wasmtime:
    - the entries are a [Vec<Entry>], each [Free { next }] or
      [Occupied { entry }]; the free slots form a list threaded through
      [next] from [free_head];
    - [push] reuses the head of the free list, and otherwise appends; a
      handle is a [u32], so appending fails with [Full] once the vector
      holds [u32::MAX + 1] entries;
    - [get] and [delete] look the handle up, fail with [NotPresent] on a
      free or out-of-range slot, and downcast the entry to the expected
      type, failing with [WrongType] (for [delete], after the slot was
      freed, as the code does);
    - an index out of range in [pop_free_list] or [free_entry], or an
      occupied slot on the free list, is a panic of the host: [None].
    Parent and child links between entries are not modelled: every entry
    is pushed without a parent, so [HasChildren] never arises.

    The invariant [table_wf] says the free list is a duplicate-free chain
    visiting exactly the free slots, and that the table fits in [u32]
    handles; [push] and [delete] keep it and never panic on it. *)

From S2P Require Import Prelude.

Inductive ResourceTableError := Full | NotPresent | WrongType | HasChildren.

#[export] Instance ResourceTableError_eq_dec : EqDecision ResourceTableError.
Proof. solve_decision. Defined.

Module Table.

Definition u32_max : Z := 4294967295.

Section Table.
Context {V : Type}.

Inductive Entry :=
| Free (next : option nat)
| Occupied (entry : V).

Record ResourceTable := {
  entries : list Entry;
  free_head : option nat
}.

(** [ResourceTable::new] *)
Definition new : ResourceTable := {| entries := []; free_head := None |}.

(** [pop_free_list]: take the head of the free list. *)
Definition pop_free_list (t : ResourceTable) : option (option nat * ResourceTable) :=
  match free_head t with
  | None => Some (None, t)
  | Some h =>
      match entries t !! h with
      | Some (Free next) => Some (Some h, {| entries := entries t; free_head := next |})
      | _ => None
      end
  end.

(** [free_entry]: [mem::replace(&mut self.entries[ix], Free { next: free_head })]. *)
Definition free_entry (t : ResourceTable) (ix : nat) : option (Entry * ResourceTable) :=
  match entries t !! ix with
  | Some e => Some (e, {| entries := <[ix := Free (free_head t)]> (entries t); free_head := Some ix |})
  | None => None
  end.

(** [push_] *)
Definition push (t : ResourceTable) (v : V) : option (result nat ResourceTableError * ResourceTable) :=
  match pop_free_list t with
  | None => None
  | Some (Some free, t1) =>
      Some (Ok free, {| entries := <[free := Occupied v]> (entries t1); free_head := free_head t1 |})
  | Some (None, t1) =>
      if (u32_max <? Z.of_nat (length (entries t1)))%Z then Some (Err Full, t1)
      else Some (Ok (length (entries t1)),
                 {| entries := entries t1 ++ [Occupied v]; free_head := free_head t1 |})
  end.

(** [occupied] *)
Definition occupied (t : ResourceTable) (key : nat) : result V ResourceTableError :=
  match entries t !! key with
  | Some (Occupied v) => Ok v
  | _ => Err NotPresent
  end.

Definition downcast {T} (cast : V -> option T) (v : V) : result T ResourceTableError :=
  match cast v with Some x => Ok x | None => Err WrongType end.

(** [get] / [get_mut] *)
Definition get {T} (cast : V -> option T) (t : ResourceTable) (key : nat) : result T ResourceTableError :=
  match occupied t key with
  | Ok v => downcast cast v
  | Err e => Err e
  end.

(** [delete]: [delete_entry], then the downcast. *)
Definition delete {T} (cast : V -> option T) (t : ResourceTable) (key : nat)
    : option (result T ResourceTableError * ResourceTable) :=
  match occupied t key with
  | Err e => Some (Err e, t)
  | Ok _ =>
      match free_entry t key with
      | Some (Occupied v, t') => Some (downcast cast v, t')
      | _ => None
      end
  end.

(** ** The invariant *)

Inductive free_chain (es : list Entry) : option nat -> list nat -> Prop :=
| chain_nil : free_chain es None []
| chain_cons i next l :
    es !! i = Some (Free next) -> free_chain es next l -> free_chain es (Some i) (i :: l).

Definition is_free (es : list Entry) (i : nat) : Prop := exists n, es !! i = Some (Free n).

Definition table_wf (t : ResourceTable) : Prop :=
  (exists l, free_chain (entries t) (free_head t) l /\ NoDup l
             /\ forall i, i ∈ l <-> is_free (entries t) i)
  /\ (Z.of_nat (length (entries t)) <= u32_max + 1)%Z.

(** ** Lemmas *)

Lemma free_chain_insert es h l i e :
  free_chain es h l -> i ∉ l -> free_chain (<[i := e]> es) h l.
Proof.
  induction 1 as [|j next l Hj _ IH]; intros Hi; econstructor.
  - rewrite list_lookup_insert_ne; [done|]. intros ->. apply Hi. left.
  - apply IH. intros ?. apply Hi. by right.
Qed.

Lemma free_chain_app es h l e : free_chain es h l -> free_chain (es ++ [e]) h l.
Proof.
  induction 1; econstructor; [|done]. by apply lookup_app_l_Some.
Qed.

Lemma is_free_insert_ne es i j e : i <> j -> is_free (<[j := e]> es) i <-> is_free es i.
Proof. intros Hne. unfold is_free. by rewrite list_lookup_insert_ne. Qed.

Lemma new_wf : table_wf new.
Proof.
  split; [|simpl; unfold u32_max; lia]. exists []. split_and!; [constructor|constructor|].
  intros i. split; [intros Hi; inversion Hi|]. intros [n Hn]. done.
Qed.

Lemma occupied_Ok t k v : occupied t k = Ok v <-> entries t !! k = Some (Occupied v).
Proof.
  unfold occupied. destruct (entries t !! k) as [[]|]; split; congruence.
Qed.

Lemma occupied_not_free t k v : occupied t k = Ok v -> ~ is_free (entries t) k.
Proof. intros Hk%occupied_Ok [n Hn]. congruence. Qed.

Lemma occupied_insert_ne es h h' k k' e :
  k' <> k -> occupied {| entries := <[k := e]> es; free_head := h |} k' = occupied {| entries := es; free_head := h' |} k'.
Proof. intros Hne. unfold occupied. simpl. by rewrite list_lookup_insert_ne. Qed.

(** A freed slot holds nothing; the other slots are unchanged. *)
Lemma occupied_freed es h hd k k' v :
  occupied {| entries := <[k := Free h]> es; free_head := hd |} k' = Ok v ->
  k' <> k /\ occupied {| entries := es; free_head := hd |} k' = Ok v.
Proof.
  unfold occupied. simpl. destruct (<[k := Free h]> es !! k') as [[]|] eqn:E; try done.
  intros [= ->]. apply list_lookup_insert_Some in E as [(_ & ? & _)|(? & ->)]; done.
Qed.

Lemma get_Ok {T} (cast : V -> option T) t k x :
  get cast t k = Ok x <-> exists v, occupied t k = Ok v /\ cast v = Some x.
Proof.
  unfold get, downcast. destruct (occupied t k) as [v|]; split.
  - destruct (cast v) eqn:?; intros; simplify_eq; eauto.
  - intros (? & [= <-] & ->). done.
  - done.
  - by intros (? & ? & _).
Qed.

(** [push] on a well-formed table: it never panics, keeps the invariant,
    and either returns [Full] with the table unchanged (no free slot and
    [u32::MAX + 1] entries) or a handle that was not occupied, that now
    holds the value, and that fits in a [u32]; no other slot changes. *)
Lemma push_spec t v :
  table_wf t ->
  exists r t', push t v = Some (r, t') /\ table_wf t' /\
    match r with
    | Ok k => occupied t k = Err NotPresent /\ occupied t' k = Ok v /\ (Z.of_nat k <= u32_max)%Z
              /\ forall k', k' <> k -> occupied t' k' = occupied t k'
    | Err e => e = Full /\ t' = t /\ Z.of_nat (length (entries t)) = (u32_max + 1)%Z
    end.
Proof.
  intros [(l & Hch & Hnd & Hfree) Hlen]. unfold push, pop_free_list.
  destruct t as [es h]; simpl in *.
  inversion Hch as [|i next l' Hi Hch']; subst.
  - pose proof (Z_lt_le_dec u32_max (Z.of_nat (length es))) as [Hf|Hf]; cbn [entries free_head]; Z_cond_simpl.
    + eexists _, _. split; [reflexivity|]. split; [split; [exists []; auto|done]|]. split_and!; auto with lia.
    + eexists _, _. split; [reflexivity|]. simpl.
      assert (Hnf : occupied {| entries := es; free_head := None |} (length es) = Err NotPresent)
        by (unfold occupied; simpl; by rewrite lookup_ge_None_2).
      split_and!; [split; [exists []; split_and!|]| | | |].
      * by apply free_chain_app.
      * constructor.
      * intros i. split; [intros Hi; inversion Hi|]. intros [n Hn].
        apply lookup_app_Some in Hn as [Hn|[_ Hn]].
        { assert (i ∈ []) as Hi by (apply Hfree; by exists n). inversion Hi. }
        destruct (i - length es) as [|[]]; simpl in Hn; done.
      * simpl. rewrite length_app. simpl. lia.
      * done.
      * unfold occupied. simpl. rewrite lookup_app_r, Nat.sub_diag by lia. done.
      * lia.
      * intros k' Hk'. unfold occupied. simpl.
        destruct (decide (k' < length es)) as [Hlt|Hge].
        -- by rewrite lookup_app_l by done.
        -- rewrite lookup_app_r by lia. rewrite (lookup_ge_None_2 es k') by lia.
           destruct (k' - length es) as [|[]] eqn:E; [lia|done|done].
  - rewrite Hi. eexists _, _. split; [reflexivity|]. simpl.
    apply NoDup_cons in Hnd as [Hnin Hnd].
    assert (Hlt : i < length es) by (by apply lookup_lt_Some in Hi).
    split_and!.
    + split; [|simpl; by rewrite length_insert]. exists l'. split_and!; [by apply free_chain_insert|done|].
      intros j. destruct (decide (j = i)) as [->|Hne].
      * split; [done|]. intros [n Hn]. simpl in Hn. by rewrite list_lookup_insert_eq in Hn by done.
      * simpl. rewrite is_free_insert_ne by done. rewrite <- Hfree. set_solver.
    + unfold occupied. simpl. by rewrite Hi.
    + unfold occupied. simpl. by rewrite list_lookup_insert_eq by done.
    + lia.
    + intros k' Hk'. by apply occupied_insert_ne.
Qed.

(** [delete] on a well-formed table: it never panics and keeps the
    invariant; on an occupied handle it frees the slot, which becomes the
    head of the free list, returns the downcast entry, and changes no
    other slot; on any other handle it fails with [NotPresent]. *)
Lemma delete_spec {T} (cast : V -> option T) t k :
  table_wf t ->
  match occupied t k with
  | Ok v => delete cast t k = Some (downcast cast v, {| entries := <[k := Free (free_head t)]> (entries t);
                                                      free_head := Some k |})
            /\ table_wf {| entries := <[k := Free (free_head t)]> (entries t); free_head := Some k |}
  | Err e => e = NotPresent /\ delete cast t k = Some (Err NotPresent, t)
  end.
Proof.
  intros [(l & Hch & Hnd & Hfree) Hlen]. unfold delete.
  destruct (occupied t k) as [v|e] eqn:Hk; [|unfold occupied in Hk; destruct (entries t !! k) as [[]|]; by inversion Hk].
  pose proof (occupied_not_free _ _ _ Hk) as Hnf. apply occupied_Ok in Hk.
  unfold free_entry. rewrite Hk. split; [done|].
  split; [|simpl; by rewrite length_insert]. exists (k :: l). simpl. split_and!.
  - apply (chain_cons _ _ (free_head t)); [by rewrite list_lookup_insert_eq by (by apply lookup_lt_Some in Hk)|].
    apply free_chain_insert; [done|]. by rewrite Hfree.
  - constructor; [by rewrite Hfree|done].
  - intros j. destruct (decide (j = k)) as [->|Hne].
    + split; [|set_solver]. intros _. exists (free_head t).
      by rewrite list_lookup_insert_eq by (by apply lookup_lt_Some in Hk).
    + rewrite is_free_insert_ne by done. rewrite <- Hfree. set_solver.
Qed.

(** The slot [delete] frees reads as not present, and it is the one the
    next [push] hands out again (the free list is LIFO). *)
Lemma delete_then_push {T} (cast : V -> option T) t k v x :
  occupied t k = Ok v ->
  let t' := {| entries := <[k := Free (free_head t)]> (entries t); free_head := Some k |} in
  delete cast t k = Some (downcast cast v, t')
  /\ occupied t' k = Err NotPresent
  /\ push t' x = Some (Ok k, {| entries := <[k := Occupied x]> (<[k := Free (free_head t)]> (entries t));
                               free_head := free_head t |}).
Proof.
  intros Hk. pose proof Hk as Hk'. apply occupied_Ok in Hk'.
  assert (Hlt : k < length (entries t)) by (by apply lookup_lt_Some in Hk').
  unfold delete, free_entry. rewrite Hk, Hk'. split_and!; [done| |].
  - unfold occupied. simpl. by rewrite list_lookup_insert_eq.
  - unfold push, pop_free_list. simpl. by rewrite list_lookup_insert_eq.
Qed.

End Table.
End Table.

Arguments Table.ResourceTable : clear implicits.
Arguments Table.Entry : clear implicits.
