(* ===== verification/Handles.v ===== *)
(** * The guest's handle tables

    A guest never holds the host's [ResourceTable] indices: the
    component model gives each component instance its own tables of
    handles, one per resource type, and the canonical ABI translates
    between the guest's handles and the host's representations ([rep],
    the index of the resource in [MyState.table]).  wasmtime is a
    library the sources only call; this file models its implementation
    (the [ResourceTable] of wasmtime's component runtime, in
    vm/component/resources.rs), as Runtime.v models the rest of
    wasmtime:
    - the slots are a [Vec<Slot>], each [Free { next }] or
      [Own { rep }]; [next] is the first free slot, the free slots being
      chained through their [next], the chain ending at the length of
      the vector;
    - [insert] fills the slot [next] (appending a fresh slot first when
      [next] is the length, failing with [resource index overflow] at
      [u32::MAX]) and returns its index plus one: index 0 is reserved
      by the component model;
    - [rep] (the lifting of a [borrow] or of an [own] for a method call)
      and [remove] (the [resource.drop] of the guest) fail with
      [unknown handle index] on index 0, beyond the table, or on a free
      slot; [remove] puts the slot at the head of the free chain, so the
      next [insert] hands the same index out again;
    - an occupied slot on the free chain is the [unreachable!()] of
      [insert], a panic of the host: [None].
    Borrow slots and lend counts are not modelled: the guest's calls are
    synchronous, so the borrows a call lends end with it.

    The invariant [ht_wf] says the free chain leads from [next] through
    free slots to the end, without repetition; [insert] and [remove]
    keep it, and [insert] never panics on it. *)

From S2P Require Import Prelude.

Module Handles.

Inductive slot :=
| Free (next : nat)
| Own (rep : nat).

Record HandleTable := {
  ht_next : nat;
  ht_slots : list slot
}.

Definition u32_max : N := 4294967295.

Definition empty : HandleTable := {| ht_next := 0; ht_slots := [] |}.

Definition unknown_handle (idx : nat) : string := ("unknown handle index " +:+ pretty (N.of_nat idx))%string.

(** [ResourceTable::insert] *)
Definition insert (t : HandleTable) (rep : nat) : option (result nat string * HandleTable) :=
  let next := ht_next t in
  let grown :=
    if Nat.eqb next (length (ht_slots t)) then
      if N.eqb (N.of_nat next) u32_max then Err "resource index overflow"%string
      else Ok (ht_slots t ++ [Free (S next)])
    else Ok (ht_slots t) in
  match grown with
  | Err e => Some (Err e, t)
  | Ok slots =>
      match slots !! next with
      | Some (Free n) => Some (Ok (S next), {| ht_next := n; ht_slots := <[next := Own rep]> slots |})
      | _ => None
      end
  end.

(** [handle_index_to_table_index]: the slot of a guest index. *)
Definition slot_of (idx : nat) : option nat :=
  match idx with O => None | S i => Some i end.

(** [ResourceTable::rep] *)
Definition rep (t : HandleTable) (idx : nat) : result nat string :=
  match slot_of idx with
  | Some i =>
      match ht_slots t !! i with
      | Some (Own r) => Ok r
      | _ => Err (unknown_handle idx)
      end
  | None => Err (unknown_handle idx)
  end.

(** [ResourceTable::remove]: the slot becomes the head of the free
    chain; what it held is returned. *)
Definition remove (t : HandleTable) (idx : nat) : result (nat * HandleTable) string :=
  match slot_of idx with
  | Some i =>
      match ht_slots t !! i with
      | Some (Own r) => Ok (r, {| ht_next := i; ht_slots := <[i := Free (ht_next t)]> (ht_slots t) |})
      | _ => Err (unknown_handle idx)
      end
  | None => Err (unknown_handle idx)
  end.

(** ** The invariant *)

Inductive free_chain (sl : list slot) : nat -> list nat -> Prop :=
| chain_end : free_chain sl (length sl) []
| chain_cons i n l :
    sl !! i = Some (Free n) -> free_chain sl n l -> free_chain sl i (i :: l).

Definition ht_wf (t : HandleTable) : Prop :=
  exists l, free_chain (ht_slots t) (ht_next t) l /\ NoDup l.

(** ** Lemmas *)

Lemma free_chain_bound sl i l : free_chain sl i l -> (i <= length sl)%nat.
Proof. induction 1 as [|i n l Hi _ _]; [done|]. apply lookup_lt_Some in Hi. lia. Qed.

Lemma free_chain_free sl i l j : free_chain sl i l -> j ∈ l -> exists n, sl !! j = Some (Free n).
Proof.
  induction 1 as [|i n l Hi _ IH]; [by intros ?%elem_of_nil|].
  intros [->|Hj]%elem_of_cons; eauto.
Qed.

(** Slots off the chain can change. *)
Lemma chain_insert_off sl i l j s :
  free_chain sl i l -> j ∉ l -> (j < length sl)%nat -> free_chain (<[j := s]> sl) i l.
Proof.
  induction 1 as [|i n l Hi _ IH]; intros Hj Hlt.
  - rewrite <- (length_insert sl j s). constructor.
  - econstructor; [|apply IH; [set_solver|done]].
    rewrite list_lookup_insert_ne; [done|]. set_solver.
Qed.

Lemma empty_wf : ht_wf empty.
Proof. exists []. split; [apply (chain_end [])|constructor]. Qed.

(** [rep] reads the slots only, and a free slot reads as no slot. *)
Lemma rep_app_free n sl m idx :
  rep {| ht_next := n; ht_slots := sl ++ [Free m] |} idx = rep {| ht_next := n; ht_slots := sl |} idx.
Proof.
  unfold rep; cbn [ht_slots]. destruct (slot_of idx) as [i|]; [|done].
  destruct (decide (i < length sl)%nat); [by rewrite lookup_app_l|].
  rewrite (lookup_ge_None_2 sl) by lia.
  destruct (decide (i = length sl)) as [->|]; [by rewrite lookup_app_r, Nat.sub_diag|].
  rewrite lookup_ge_None_2; [done|]. rewrite length_app; simpl. lia.
Qed.

(** Filling the head [i] of the free chain. *)
Lemma fill_spec sl n l r i :
  sl !! i = Some (Free n) -> free_chain sl n l -> NoDup (i :: l) ->
  ht_wf {| ht_next := n; ht_slots := <[i := Own r]> sl |}
  /\ rep {| ht_next := n; ht_slots := <[i := Own r]> sl |} (S i) = Ok r
  /\ forall idx', idx' <> S i ->
       rep {| ht_next := n; ht_slots := <[i := Own r]> sl |} idx' = rep {| ht_next := i; ht_slots := sl |} idx'.
Proof.
  intros Hi Hc Hnd. apply NoDup_cons in Hnd as [Hni Hnd].
  assert (Hlt : (i < length sl)%nat) by (by eapply lookup_lt_Some). split_and!.
  - exists l. split; [|done]. by apply chain_insert_off.
  - unfold rep; simpl. by rewrite list_lookup_insert_eq.
  - intros [|i'] Hne; unfold rep; simpl; [done|]. by rewrite list_lookup_insert_ne by congruence.
Qed.

(** On a well-formed table [insert] never panics: it fails only with
    [resource index overflow], leaving the table as it is, or fills the
    slot [next] and returns the index [next + 1], whose [rep] is then
    the one inserted, the table staying well formed and every other
    index naming what it named. *)
Lemma insert_spec t r :
  ht_wf t ->
  exists res t', insert t r = Some (res, t') /\ ht_wf t'
    /\ match res with
       | Ok idx => idx = S (ht_next t) /\ rep t' idx = Ok r
                   /\ forall idx', idx' <> idx -> rep t' idx' = rep t idx'
       | Err e => e = "resource index overflow"%string /\ t' = t
       end.
Proof.
  intros (l & Hc & Hnd). destruct t as [next sl]. unfold insert; cbn [ht_next ht_slots] in *.
  destruct (Nat.eqb_spec next (length sl)) as [->|Hne].
  - destruct (N.eqb (N.of_nat (length sl)) u32_max).
    { eexists _, _. split_and!; [reflexivity|by exists l|done]. }
    inversion Hc as [Hl|i n l' Hi]; subst; [|apply lookup_lt_Some in Hi; lia].
    rewrite lookup_app_r, Nat.sub_diag by done. simpl.
    destruct (fill_spec (sl ++ [Free (S (length sl))]) (S (length sl)) [] r (length sl)) as (Hwf & Hr & Hrest).
    { by rewrite lookup_app_r, Nat.sub_diag. }
    { replace (S (length sl)) with (length (sl ++ [Free (S (length sl))])) at 2
        by (rewrite length_app; simpl; lia). constructor. }
    { repeat constructor; set_solver. }
    eexists _, _. split; [reflexivity|]. split; [done|]. split_and!; [done|done|].
    intros idx' Hne. rewrite Hrest by done. apply rep_app_free.
  - inversion Hc as [Hl|i n l' Hi Hc']; subst; [lia|]. rewrite Hi.
    destruct (fill_spec sl n l' r next Hi Hc' Hnd) as (Hwf & Hr & Hrest).
    eexists _, _. split; [reflexivity|]. split; [done|]. by split_and!.
Qed.

(** Removing an index the table holds frees its slot and makes it the
    next one [insert] fills; the index is then unknown, every other
    index names what it named. *)
Lemma remove_spec t idx r :
  ht_wf t -> rep t idx = Ok r ->
  exists t', remove t idx = Ok (r, t') /\ ht_wf t' /\ S (ht_next t') = idx
    /\ (ht_next t' < length (ht_slots t'))%nat
    /\ rep t' idx = Err (unknown_handle idx)
    /\ forall idx', idx' <> idx -> rep t' idx' = rep t idx'.
Proof.
  intros (l & Hc & Hnd) Hr. unfold rep, remove in *.
  destruct idx as [|i]; simpl in *; [done|].
  destruct (ht_slots t !! i) as [[|r']|] eqn:Hi; [done| |done]. injection Hr as ->.
  assert (Hlt : (i < length (ht_slots t))%nat) by (by eapply lookup_lt_Some).
  assert (Hni : i ∉ l) by (intros Hin; destruct (free_chain_free _ _ _ _ Hc Hin) as [n Hn]; congruence).
  eexists. split_and!; [reflexivity| | |simpl; by rewrite length_insert| |].
  - exists (i :: l). split; [|by constructor]. simpl.
    econstructor; [by rewrite list_lookup_insert_eq|]. by apply chain_insert_off.
  - done.
  - simpl. by rewrite list_lookup_insert_eq.
  - intros [|i'] Hne; simpl; [done|]. by rewrite list_lookup_insert_ne by congruence.
Qed.

Lemma remove_Err t idx e : rep t idx = Err e -> remove t idx = Err e.
Proof. unfold rep, remove. intros H. destruct (slot_of idx) as [i|]; [|by injection H as ->]. destruct (ht_slots t !! i) as [[]|]; try discriminate H; by injection H as ->. Qed.

(** A free slot at [next]: [insert] fills it, without overflow. *)
Lemma insert_at_next t r :
  ht_wf t -> (ht_next t < length (ht_slots t))%nat ->
  exists t', insert t r = Some (Ok (S (ht_next t)), t') /\ ht_wf t' /\ rep t' (S (ht_next t)) = Ok r
    /\ forall idx', idx' <> S (ht_next t) -> rep t' idx' = rep t idx'.
Proof.
  intros Hwf Hlt. destruct (insert_spec t r Hwf) as ([idx|e] & t' & Hins & Hwf' & Hres).
  - destruct Hres as (-> & Hr & Hrest). eauto.
  - exfalso. revert Hins. unfold insert. rewrite (proj2 (Nat.eqb_neq _ _)) by lia.
    destruct (ht_slots t !! ht_next t) as [[]|]; done.
Qed.

End Handles.
