(* ===== verification/Process.v ===== *)
(** * Process effects of a Rust [main]

    A run of a Rust program is modelled as a writer/termination monad:
    a computation produces the lines it writes (to stdout by [println!],
    to stderr by [eprintln!]) in the order it writes them, and either a
    value or a termination: [std::process::exit(code)] or a panic (from
    [Result::expect], or from indexing a [Vec] out of range).  Rust's
    stdout is line-buffered and stderr unbuffered, so each [println!] or
    [eprintln!] of main.rs reaches its stream as one line, in program
    order.  The exit status of a panicking [main] is 101. *)

From S2P Require Import Prelude.

Inductive stream := Stdout | Stderr.

#[export] Instance stream_eq_dec : EqDecision stream.
Proof. solve_decision. Defined.

(** What reaches a stream: one line written by [println!] or
    [eprintln!] (the trailing newline is implicit), or the bytes a host
    function writes for the guest to an inherited stream. *)
Inductive event :=
| Ev (s : stream) (line : string)
| EvBytes (s : stream) (bs : list Byte.byte).

Inductive termination :=
| Exited (code : Z)
| Panicked (msg : string).

Definition Proc (A : Type) : Type := (list event * (termination + A))%type.

Definition proc_ret {A} (a : A) : Proc A := ([], inr a).

Definition proc_bind {A B} (m : Proc A) (k : A -> Proc B) : Proc B :=
  match m with
  | (out, inl t) => (out, inl t)
  | (out, inr a) => let '(out', r) := k a in (out ++ out', r)
  end.

Declare Scope proc_scope.
Delimit Scope proc_scope with proc.
Notation "x <- m ;; k" := (proc_bind m (fun x => k))
  (at level 100, m at next level, right associativity) : proc_scope.
Notation "m ;; k" := (proc_bind m (fun _ => k))
  (at level 100, right associativity) : proc_scope.

(** [println!("{}", s)] and [eprintln!("{}", s)] *)
Definition println (s : string) : Proc unit := ([Ev Stdout s], inr tt).
Definition eprintln (s : string) : Proc unit := ([Ev Stderr s], inr tt).

(** [std::process::exit(code)]: never returns. *)
Definition exit {A} (code : Z) : Proc A := ([], inl (Exited code)).

Definition panic {A} (msg : string) : Proc A := ([], inl (Panicked msg)).

(** The [Debug] rendering ([{:?}]) of an error value. *)
Class Debug (E : Type) := debug : E -> string.

(** [r.expect(msg)]: the value, or a panic with message [msg: {e:?}]. *)
Definition expect {A E} `{Debug E} (r : result A E) (msg : string) : Proc A :=
  match r with
  | Ok a => proc_ret a
  | Err e => panic (msg +:+ ": " +:+ debug e)
  end.

(** [v[i]] on a [Vec]: the element, or the panic of [Index::index]. *)
Definition vec_index {A} (v : list A) (i : nat) : Proc A :=
  match v !! i with
  | Some a => proc_ret a
  | None => panic ("index out of bounds: the len is " +:+ pretty (length v)
                   +:+ " but the index is " +:+ pretty i)
  end.

(** The exit status of the process once [main] has finished. *)
Definition exit_status {A} (r : termination + A) : Z :=
  match r with
  | inr _ => 0
  | inl (Exited c) => c
  | inl (Panicked _) => 101
  end.


(** ** Monad laws and the behaviour of the primitives *)

Lemma proc_bind_ret_l {A B} (a : A) (k : A -> Proc B) : proc_bind (proc_ret a) k = k a.
Proof. unfold proc_bind, proc_ret. by destruct (k a). Qed.

Lemma proc_bind_ret_r {A} (m : Proc A) : proc_bind m proc_ret = m.
Proof. destruct m as [out [t|a]]; simpl; by rewrite ?app_nil_r. Qed.

Lemma proc_bind_assoc {A B C} (m : Proc A) (k : A -> Proc B) (h : B -> Proc C) :
  proc_bind (proc_bind m k) h = proc_bind m (fun a => proc_bind (k a) h).
Proof.
  destruct m as [out [t|a]]; simpl; [done|].
  destruct (k a) as [out1 [t1|b]]; simpl; [done|].
  destruct (h b) as [out2 r]. by rewrite app_assoc.
Qed.

(** A computation that writes [out] and stops with [t] stops the whole
    sequence with [t], after writing [out]. *)
Lemma proc_bind_stop {A B} out t (k : A -> Proc B) :
  proc_bind (out, inl t) k = (out, inl t).
Proof. done. Qed.

Lemma proc_bind_write {A B} out (a : A) (k : A -> Proc B) :
  proc_bind (out, inr a) k = (out ++ (k a).1, (k a).2).
Proof. simpl. by destruct (k a). Qed.

Lemma expect_Ok {A E} `{Debug E} (a : A) msg : expect (E:=E) (Ok a) msg = proc_ret a.
Proof. done. Qed.

Lemma expect_Err {A E} `{Debug E} (e : E) msg :
  expect (A:=A) (Err e) msg = panic (msg +:+ ": " +:+ debug e).
Proof. done. Qed.

Lemma vec_index_Some {A} (v : list A) i a : v !! i = Some a -> vec_index v i = proc_ret a.
Proof. intros Hi. unfold vec_index. by rewrite Hi. Qed.

#[export] Hint Rewrite @proc_bind_ret_l @expect_Ok @expect_Err : host_rw.

(** Normalise a [Proc] term: run the binds of values and of [expect] on
    known results. *)
Ltac proc_simpl := autorewrite with host_rw.
