(* ===== verification/Cli.v ===== *)
(** * Command-line handling of the runner (src/runner/src/main.rs, 27-54)

    The first half of [main]: collecting [std::env::args()], the usage
    guard, the [--aot] flag, the [CARGO_MANIFEST_DIR] lookup, the choice
    of the artifact path from the component type, and the "Loading ..."
    line.  [parse_cli] runs these lines in the source's order and yields
    the [Config] the rest of [main] uses, or stops the process the way
    the source does (exit 1 on a usage error or unknown component type,
    a panic on a missing variable, on an argument that is not Unicode,
    or on indexing [args[0]] of an empty argument vector). *)

From S2P Require Import Prelude Process.

Local Open Scope string_scope.
Local Open Scope proc_scope.

(** ** The process environment *)

(** An [OsString] as the OS hands it over: valid Unicode or raw bytes. *)
Inductive os_string :=
| OsUnicode (s : string)
| OsNotUnicode (raw : list Byte.byte).

(** [std::env::VarError] *)
Inductive var_error :=
| NotPresent
| NotUnicode (raw : list Byte.byte).

Record Env := {
  env_argv : list os_string;
  env_vars : gmap string os_string
}.

Definition dquote : string := String (Ascii.ascii_of_nat 34) EmptyString.

Definition hex_digit (n : nat) : string :=
  String (Ascii.ascii_of_nat (if (n <? 10)%nat then 48 + n else 55 + n)%nat) EmptyString.

(** The [Debug] rendering of a non-Unicode [OsString]: printable ASCII as
    itself, every other byte as [\xNN]. *)
Definition debug_byte (b : Byte.byte) : string :=
  let n := Byte.to_nat b in
  if ((32 <=? n) && (n <? 127) && negb (n =? 34) && negb (n =? 92))%nat
  then String (Ascii.ascii_of_nat n) EmptyString
  else "\x" +:+ hex_digit (n / 16)%nat +:+ hex_digit (n mod 16)%nat.

Definition debug_os_bytes (raw : list Byte.byte) : string :=
  dquote +:+ foldr (fun b acc => debug_byte b +:+ acc) "" raw +:+ dquote.

#[export] Instance var_error_debug : Debug var_error := fun e =>
  match e with
  | NotPresent => "NotPresent"
  | NotUnicode raw => "NotUnicode(" +:+ debug_os_bytes raw +:+ ")"
  end.

(** [std::env::args().collect::<Vec<String>>()]: the iterator panics at the
    first argument that is not valid Unicode (it unwraps [into_string]). *)
Fixpoint args_collect (argv : list os_string) : Proc (list string) :=
  match argv with
  | [] => proc_ret []
  | OsUnicode s :: rest => xs <- args_collect rest ;; proc_ret (s :: xs)
  | OsNotUnicode raw :: _ =>
      panic ("called `Result::unwrap()` on an `Err` value: " +:+ debug_os_bytes raw)
  end.

(** [std::env::var(key)] *)
Definition env_var (vars : gmap string os_string) (key : string) : result string var_error :=
  match vars !! key with
  | None => Err NotPresent
  | Some (OsUnicode s) => Ok s
  | Some (OsNotUnicode raw) => Err (NotUnicode raw)
  end.

(** ** The lines 27-54 *)

Definition usage_line (prog : string) : string :=
  "Usage: " +:+ prog +:+ " <rs|js> [--aot]".

(** [args.iter().any(|a| a == "--aot")] *)
Definition has_aot_flag (args : list string) : bool :=
  existsb (fun a => String.eqb a "--aot") args.

Definition ext_of (use_aot : bool) : string :=
  if use_aot then "cwasm" else "wasm".

(** The [match component_type.as_str()] of lines 39-52, without its
    fall-through arm ([None]). *)
Definition component_path_of (manifest component_type ext : string) : option string :=
  if String.eqb component_type "js" then
    Some (manifest +:+ "/../component/js/handler." +:+ ext)
  else if String.eqb component_type "rs" then
    Some (manifest +:+ "/../component/rust/target/wasm32-wasip1/release/handler_rs." +:+ ext)
  else None.

Definition invalid_type_line (component_type : string) : string :=
  "Invalid component type: " +:+ component_type +:+ ". Use 'rs' or 'js'".

Definition loading_line (component_type : string) (use_aot : bool) (path : string) : string :=
  "Loading " +:+ component_type +:+ " component" +:+ (if use_aot then " (AOT)" else "")
  +:+ " from: " +:+ path.

Record Config := {
  cfg_component_type : string;
  cfg_use_aot : bool;
  cfg_component_path : string
}.

Definition parse_cli (env : Env) : Proc Config :=
  args <- args_collect (env_argv env) ;;
  (if (length args <? 2)%nat then
     prog <- vec_index args 0 ;;
     eprintln (usage_line prog) ;;
     exit 1
   else proc_ret tt) ;;
  component_type <- vec_index args 1 ;;
  let use_aot := has_aot_flag args in
  manifest <- expect (env_var (env_vars env) "CARGO_MANIFEST_DIR")
                "CARGO_MANIFEST_DIR not set. Please run using cargo" ;;
  let ext := ext_of use_aot in
  component_path <-
    match component_path_of manifest component_type ext with
    | Some p => proc_ret p
    | None => eprintln (invalid_type_line component_type) ;; exit 1
    end ;;
  println (loading_line component_type use_aot component_path) ;;
  proc_ret {| cfg_component_type := component_type;
              cfg_use_aot := use_aot;
              cfg_component_path := component_path |}.

(** ** Lemmas *)

Lemma args_collect_unicode (args : list string) : args_collect (OsUnicode <$> args) = proc_ret args.
Proof.
  induction args as [|a args IH]; [done|].
  rewrite fmap_cons. cbn [args_collect]. by rewrite IH, proc_bind_ret_l.
Qed.

Lemma has_aot_flag_iff (args : list string) : has_aot_flag args = true <-> In "--aot" args.
Proof. apply existsb_eqb_In. Qed.

Lemma component_path_of_Some m ty ext p :
  component_path_of m ty ext = Some p ->
  (ty = "js" /\ p = m +:+ "/../component/js/handler." +:+ ext)
  \/ (ty = "rs" /\ p = m +:+ "/../component/rust/target/wasm32-wasip1/release/handler_rs." +:+ ext).
Proof.
  unfold component_path_of.
  destruct (String.eqb_spec ty "js") as [->|]; [intros [= <-]; by left|].
  destruct (String.eqb_spec ty "rs") as [->|]; [intros [= <-]; by right|done].
Qed.

Lemma component_path_of_None m ty ext :
  ty <> "js" -> ty <> "rs" -> component_path_of m ty ext = None.
Proof.
  intros Hjs Hrs. unfold component_path_of.
  destruct (String.eqb_spec ty "js"); [done|]. by destruct (String.eqb_spec ty "rs").
Qed.

(** Past the usage guard: with at least two Unicode arguments, [parse_cli]
    continues with [args[1]]. *)
Lemma parse_cli_past_guard env args ty :
  env_argv env = OsUnicode <$> args -> args !! 1 = Some ty ->
  parse_cli env =
    (manifest <- expect (env_var (env_vars env) "CARGO_MANIFEST_DIR")
                   "CARGO_MANIFEST_DIR not set. Please run using cargo" ;;
     component_path <-
       match component_path_of manifest ty (ext_of (has_aot_flag args)) with
       | Some p => proc_ret p
       | None => eprintln (invalid_type_line ty) ;; exit 1
       end ;;
     println (loading_line ty (has_aot_flag args) component_path) ;;
     proc_ret {| cfg_component_type := ty; cfg_use_aot := has_aot_flag args;
                 cfg_component_path := component_path |}).
Proof.
  intros Hargv Hty. unfold parse_cli. rewrite Hargv, args_collect_unicode, proc_bind_ret_l.
  assert (Hlen : 1 < length args) by (apply lookup_lt_Some in Hty; done).
  destruct (Nat.ltb_spec (length args) 2); [lia|].
  by rewrite proc_bind_ret_l, (vec_index_Some _ _ _ Hty), proc_bind_ret_l.
Qed.

Lemma parse_cli_ok env args ty m path :
  env_argv env = OsUnicode <$> args -> args !! 1 = Some ty ->
  env_var (env_vars env) "CARGO_MANIFEST_DIR" = Ok m ->
  component_path_of m ty (ext_of (has_aot_flag args)) = Some path ->
  parse_cli env =
    ([Ev Stdout (loading_line ty (has_aot_flag args) path)],
     inr {| cfg_component_type := ty; cfg_use_aot := has_aot_flag args; cfg_component_path := path |}).
Proof.
  intros Hargv Hty Hm Hp. rewrite (parse_cli_past_guard _ _ _ Hargv Hty), Hm.
  proc_simpl. rewrite Hp. by proc_simpl.
Qed.

Lemma parse_cli_usage env prog :
  env_argv env = [OsUnicode prog] ->
  parse_cli env = ([Ev Stderr (usage_line prog)], inl (Exited 1)).
Proof. intros Hargv. unfold parse_cli. by rewrite Hargv. Qed.

Lemma parse_cli_empty env :
  env_argv env = [] ->
  parse_cli env = ([], inl (Panicked "index out of bounds: the len is 0 but the index is 0")).
Proof. intros Hargv. unfold parse_cli. by rewrite Hargv. Qed.

Lemma parse_cli_no_manifest env args ty e :
  env_argv env = OsUnicode <$> args -> args !! 1 = Some ty ->
  env_var (env_vars env) "CARGO_MANIFEST_DIR" = Err e ->
  parse_cli env =
    ([], inl (Panicked ("CARGO_MANIFEST_DIR not set. Please run using cargo: " +:+ debug e))).
Proof. intros Hargv Hty He. by rewrite (parse_cli_past_guard _ _ _ Hargv Hty), He, expect_Err. Qed.

Lemma parse_cli_invalid env args ty m :
  env_argv env = OsUnicode <$> args -> args !! 1 = Some ty ->
  env_var (env_vars env) "CARGO_MANIFEST_DIR" = Ok m ->
  ty <> "js" -> ty <> "rs" ->
  parse_cli env = ([Ev Stderr (invalid_type_line ty)], inl (Exited 1)).
Proof.
  intros Hargv Hty Hm Hjs Hrs.
  rewrite (parse_cli_past_guard _ _ _ Hargv Hty), Hm. proc_simpl.
  by rewrite component_path_of_None.
Qed.

Lemma args_collect_cases argv :
  (exists args, argv = OsUnicode <$> args /\ args_collect argv = proc_ret args)
  \/ exists msg, args_collect argv = ([], inl (Panicked msg)).
Proof.
  induction argv as [|[s|raw] argv IH]; simpl.
  - left. by exists [].
  - destruct IH as [(args & -> & ->)|(msg & ->)]; [left|right; eauto].
    exists (s :: args). by rewrite proc_bind_ret_l.
  - right. eauto.
Qed.

(** Every run of the CLI part ends in one of three ways: the loading line
    and a configuration, one line on stderr and exit status 1, or a panic
    with nothing written. *)
Lemma parse_cli_cases env :
  (exists cfg, parse_cli env =
     ([Ev Stdout (loading_line (cfg_component_type cfg) (cfg_use_aot cfg) (cfg_component_path cfg))],
      inr cfg))
  \/ (exists l, parse_cli env = ([Ev Stderr l], inl (Exited 1)))
  \/ (exists msg, parse_cli env = ([], inl (Panicked msg))).
Proof.
  destruct (args_collect_cases (env_argv env)) as [(args & Hargv & _)|(msg & Hpanic)].
  2: { right; right. exists msg. unfold parse_cli. by rewrite Hpanic. }
  destruct args as [|prog [|ty rest]].
  - right; right. eexists. by apply parse_cli_empty.
  - right; left. eexists. by apply parse_cli_usage.
  - destruct (env_var (env_vars env) "CARGO_MANIFEST_DIR") as [m|e] eqn:Hm.
    2: { right; right. eexists. by eapply parse_cli_no_manifest. }
    destruct (component_path_of m ty (ext_of (has_aot_flag (prog :: ty :: rest)))) as [p|] eqn:Hp.
    + left. exists {| cfg_component_type := ty; cfg_use_aot := has_aot_flag (prog :: ty :: rest);
                      cfg_component_path := p |}.
      by rewrite (parse_cli_ok env (prog :: ty :: rest) ty m p Hargv eq_refl Hm Hp).
    + right; left. eexists.
      rewrite (parse_cli_past_guard env (prog :: ty :: rest) ty Hargv eq_refl), Hm.
      proc_simpl. by rewrite Hp.
Qed.

(** ** Properties *)

(** C13: AOT mode is chosen when [--aot] occurs anywhere in the argument
    vector -- after the component type, but also as the program name
    [args[0]] -- since line 34 scans every argument. *)
Theorem parse_cli_use_aot_anywhere env args out cfg :
  env_argv env = OsUnicode <$> args -> parse_cli env = (out, inr cfg) ->
  cfg_use_aot cfg = true <-> In "--aot" args.
Proof.
  intros Hargv Hc. destruct args as [|prog [|ty rest]].
  - rewrite parse_cli_empty in Hc; [discriminate|done].
  - rewrite (parse_cli_usage _ prog) in Hc; [discriminate|done].
  - rewrite (parse_cli_past_guard _ _ ty Hargv eq_refl) in Hc.
    destruct (env_var _ _) as [m|e]; [|discriminate].
    autorewrite with host_rw in Hc.
    destruct (component_path_of m ty _) as [p|]; [|discriminate].
    autorewrite with host_rw in Hc. inv_clear Hc. exact (has_aot_flag_iff (prog :: ty :: rest)).
Qed.

(** ** Witnesses *)

Definition demo_cli_vars : gmap string os_string := {[ "CARGO_MANIFEST_DIR" := OsUnicode "/m" ]}.

Definition demo_aot_cfg : Config :=
  {| cfg_component_type := "rs"; cfg_use_aot := true;
     cfg_component_path := "/m/../component/rust/target/wasm32-wasip1/release/handler_rs.cwasm" |}.

(** The program name [--aot] turns AOT mode on. *)
Lemma parse_cli_use_aot_anywhere_witness :
  cfg_use_aot demo_aot_cfg = true <-> In "--aot" ["--aot"; "rs"].
Proof.
  apply (parse_cli_use_aot_anywhere {| env_argv := [OsUnicode "--aot"; OsUnicode "rs"];
                                       env_vars := demo_cli_vars |} ["--aot"; "rs"]
           [Ev Stdout (loading_line "rs" true (cfg_component_path demo_aot_cfg))] demo_aot_cfg);
    reflexivity.
Defined.
