(* ===== verification/Wasi.v ===== *)
(** * The store's host state (src/runner/src/main.rs 12-24, 69-72)

    [MyState] holds the WASI context and the resource table; its
    [WasiView] implementation (17-24) lends both, mutably, to the WASI
    host functions.  A [&mut] borrow of two fields is modelled as a lens:
    [ctx_view] reads them, [ctx_write_back] puts the (possibly changed)
    borrowed values back, and a host function that changes the view is
    lifted to the whole state by [through_view].

    Lines 70-72 build the state from [WasiCtxBuilder::new().build()] and
    [ResourceTable::new()] (the table of ResourceTable.v, holding
    [wasi_resource]s).  The builder's defaults (wasmtime-wasi) are
    modelled from the spec's "inert/default environment": no arguments,
    no environment variables, no preopened directories, stdin closed,
    stdout and stderr discarded, and a socket-address check that denies
    every address. *)

From S2P Require Import Prelude ResourceTable Process.

Local Open Scope string_scope.

Inductive input_stream := StdinClosed | StdinInherit.
Inductive output_stream := OutputSink | OutputInherit.

#[export] Instance input_stream_eq_dec : EqDecision input_stream.
Proof. solve_decision. Defined.
#[export] Instance output_stream_eq_dec : EqDecision output_stream.
Proof. solve_decision. Defined.

Record WasiCtx := {
  wc_args : list string;
  wc_env : list (string * string);
  wc_preopens : list (string * string);   (* host directory, guest path *)
  wc_stdin : input_stream;
  wc_stdout : output_stream;
  wc_stderr : output_stream;
  wc_socket_addr_allowed : bool;          (* the socket-address check allows some address *)
  wc_ip_name_lookup : bool
}.

(** The builder carries the same configuration until [build]. *)
Record WasiCtxBuilder := { builder_cfg : WasiCtx }.

Definition WasiCtxBuilder_new : WasiCtxBuilder :=
  {| builder_cfg := {| wc_args := []; wc_env := []; wc_preopens := [];
                       wc_stdin := StdinClosed; wc_stdout := OutputSink; wc_stderr := OutputSink;
                       wc_socket_addr_allowed := false; wc_ip_name_lookup := false |} |}.

Definition WasiCtxBuilder_build (b : WasiCtxBuilder) : WasiCtx := builder_cfg b.

(** The host resources WASI keeps in the table: the streams of
    [get-stdin] / [get-stdout] / [get-stderr], and the descriptors of
    preopened directories. *)
Inductive wasi_resource :=
| RInputStream (s : input_stream)
| ROutputStream (target : stream) (s : output_stream)
| RDescriptor (host_dir : string).

Abbreviation ResourceTable := (Table.ResourceTable wasi_resource).

(** main.rs 71: [ResourceTable::new()] *)
Definition ResourceTable_new : ResourceTable := Table.new.

(** main.rs 12-15 *)
Record MyState := {
  ctx : WasiCtx;
  table : ResourceTable
}.

(** [WasiCtxView<'_>]: the two mutable borrows. *)
Record WasiCtxView := {
  view_ctx : WasiCtx;
  view_table : ResourceTable
}.

(** main.rs 17-24: [fn ctx(&mut self) -> WasiCtxView<'_>] *)
Definition ctx_view (s : MyState) : WasiCtxView :=
  {| view_ctx := ctx s; view_table := table s |}.

(** The end of the borrow: what was written through the view is what the
    fields of [MyState] now hold. *)
Definition ctx_write_back (s : MyState) (v : WasiCtxView) : MyState :=
  {| ctx := view_ctx v; table := view_table v |}.

(** A WASI host function run against [store.data_mut().ctx()]. *)
Definition through_view {A} (f : WasiCtxView -> A * WasiCtxView) (s : MyState) : A * MyState :=
  let '(a, v) := f (ctx_view s) in (a, ctx_write_back s v).

(** main.rs 70-72 *)
Definition new_state : MyState :=
  let wasi_ctx := WasiCtxBuilder_build WasiCtxBuilder_new in
  let table := ResourceTable_new in
  {| ctx := wasi_ctx; table := table |}.

