(* ===== verification/WasiHost.v ===== *)
(** * The WASI host functions a guest calls through [ctx()]

    [add_to_linker_sync] (main.rs 67) links the WASI preview-2 host
    functions; each runs on [store.data_mut().ctx()], the view that
    [impl WasiView for MyState] (main.rs 17-24) lends, reading the
    [WasiCtx] built at line 70 and using the [ResourceTable] built at
    line 71.  This file models, from wasmtime-wasi's p2 host code, the
    functions of the command world that reach that state:
    - [wasi:cli/environment]: [get-arguments], [get-environment];
    - [wasi:filesystem/preopens]: [get-directories], pushing one
      descriptor per preopened directory;
    - [wasi:cli/stdin|stdout|stderr]: [get-stdin] / [get-stdout] /
      [get-stderr], pushing the context's stream;
    - [wasi:io/streams]: [input-stream.blocking-read],
      [output-stream.blocking-write-and-flush] (at most 4096 bytes, the
      size checked before the handle), and the [drop] of a stream or a
      descriptor (a table [delete]).
    A table error or an oversized write is a trap of the call ([Err]); a
    guest-visible error (a closed stream) is a value; a host panic
    (a corrupt table) is [None].  What the host's own stdin would yield
    when inherited is a parameter, [host_stdin]; sockets, clocks and
    random are not modelled. *)

From S2P Require Import Prelude ResourceTable Process Wasi.

Local Open Scope string_scope.

Inductive stream_error :=
| LastOperationFailed (msg : string)
| Closed.

Inductive host_call :=
| GetArguments
| GetEnvironment
| GetDirectories
| GetStdin
| GetStdout
| GetStderr
| BlockingRead (h : nat) (len : Z)
| BlockingWriteAndFlush (h : nat) (contents : list Byte.byte)
| DropInputStream (h : nat)
| DropOutputStream (h : nat)
| DropDescriptor (h : nat).

Inductive host_reply :=
| RStrings (l : list string)
| REnv (l : list (string * string))
| RDirs (l : list (nat * string))
| RHandle (h : nat)
| RRead (r : result (list Byte.byte) stream_error)
| RWrite (r : result unit stream_error)
| RUnit.

(** Bytes that reached the host process's stdout or stderr. *)
Definition out_event : Type := stream * list Byte.byte.

Definition host_fn : Type :=
  WasiCtxView -> option (result host_reply string * list out_event) * WasiCtxView.

Section Host.
Variable host_stdin : Z -> list Byte.byte.

(** The downcasts of [ResourceTable::get::<T>]. *)
Definition as_input (r : wasi_resource) : option input_stream :=
  match r with RInputStream s => Some s | _ => None end.
Definition as_output (r : wasi_resource) : option (stream * output_stream) :=
  match r with ROutputStream w s => Some (w, s) | _ => None end.
Definition as_descriptor (r : wasi_resource) : option string :=
  match r with RDescriptor d => Some d | _ => None end.

(** The [Display] of [ResourceTableError], the reason of the trap. *)
Definition table_trap (e : ResourceTableError) : string :=
  match e with
  | Full => "resource table has no free keys"
  | NotPresent => "resource not present"
  | WrongType => "resource is of another type"
  | HasChildren => "resource has children"
  end.

Definition write_too_large : string :=
  "Buffer too large for blocking-write-and-flush (expected at most 4096)".

Definition set_table (v : WasiCtxView) (t : ResourceTable) : WasiCtxView :=
  {| view_ctx := view_ctx v; view_table := t |}.

(** [self.table().push(r)?] *)
Definition push_resource (v : WasiCtxView) (r : wasi_resource) : option (result nat string * WasiCtxView) :=
  match Table.push (view_table v) r with
  | None => None
  | Some (Ok h, t') => Some (Ok h, set_table v t')
  | Some (Err e, t') => Some (Err (table_trap e), set_table v t')
  end.

(** The loop of [get_directories]: one descriptor per preopen, in order. *)
Fixpoint push_preopens (v : WasiCtxView) (ps : list (string * string))
    : option (result (list (nat * string)) string * WasiCtxView) :=
  match ps with
  | [] => Some (Ok [], v)
  | (dir, name) :: rest =>
      match push_resource v (RDescriptor dir) with
      | None => None
      | Some (Err e, v1) => Some (Err e, v1)
      | Some (Ok fd, v1) =>
          match push_preopens v1 rest with
          | None => None
          | Some (Err e, v2) => Some (Err e, v2)
          | Some (Ok l, v2) => Some (Ok ((fd, name) :: l), v2)
          end
      end
  end.

Definition reply_handle (r : option (result nat string * WasiCtxView)) (v : WasiCtxView)
    : option (result host_reply string * list out_event) * WasiCtxView :=
  match r with
  | None => (None, v)
  | Some (res, v') => (Some (result_map RHandle res, []), v')
  end.

(** [drop] of a resource: [self.table().delete(rep)?]. *)
Definition drop_with {T} (cast : wasi_resource -> option T) (h : nat) (v : WasiCtxView)
    : option (result host_reply string * list out_event) * WasiCtxView :=
  match Table.delete cast (view_table v) h with
  | None => (None, v)
  | Some (Ok _, t') => (Some (Ok RUnit, []), set_table v t')
  | Some (Err e, t') => (Some (Err (table_trap e), []), set_table v t')
  end.

Definition wasi_call (c : host_call) : host_fn := fun v =>
  let cx := view_ctx v in
  match c with
  | GetArguments => (Some (Ok (RStrings (wc_args cx)), []), v)
  | GetEnvironment => (Some (Ok (REnv (wc_env cx)), []), v)
  | GetDirectories =>
      match push_preopens v (wc_preopens cx) with
      | None => (None, v)
      | Some (r, v') => (Some (result_map RDirs r, []), v')
      end
  | GetStdin => reply_handle (push_resource v (RInputStream (wc_stdin cx))) v
  | GetStdout => reply_handle (push_resource v (ROutputStream Stdout (wc_stdout cx))) v
  | GetStderr => reply_handle (push_resource v (ROutputStream Stderr (wc_stderr cx))) v
  | BlockingRead h len =>
      match Table.get as_input (view_table v) h with
      | Err e => (Some (Err (table_trap e), []), v)
      | Ok StdinClosed => (Some (Ok (RRead (Err Closed)), []), v)
      | Ok StdinInherit => (Some (Ok (RRead (Ok (host_stdin len))), []), v)
      end
  | BlockingWriteAndFlush h bs =>
      if (4096 <? length bs)%nat then (Some (Err write_too_large, []), v)
      else
        match Table.get as_output (view_table v) h with
        | Err e => (Some (Err (table_trap e), []), v)
        | Ok (_, OutputSink) => (Some (Ok (RWrite (Ok tt)), []), v)
        | Ok (w, OutputInherit) => (Some (Ok (RWrite (Ok tt)), [(w, bs)]), v)
        end
  | DropInputStream h => drop_with as_input h v
  | DropOutputStream h => drop_with as_output h v
  | DropDescriptor h => drop_with as_descriptor h v
  end.

(** A host call on the store's state, through [ctx()]. *)
Definition host_call_state (c : host_call) (s : MyState)
    : option (result host_reply string * list out_event) * MyState :=
  through_view (wasi_call c) s.

(** The calls a guest makes, in order; a trap ends the instance. *)
Fixpoint run_host_calls (cs : list host_call) (s : MyState)
    : option (list (result host_reply string) * list out_event * MyState) :=
  match cs with
  | [] => Some ([], [], s)
  | c :: cs' =>
      match host_call_state c s with
      | (None, _) => None
      | (Some (Err e, outs), s') => Some ([Err e], outs, s')
      | (Some (Ok r, outs), s') =>
          match run_host_calls cs' s' with
          | None => None
          | Some (rs, os, s'') => Some (Ok r :: rs, (outs ++ os)%list, s'')
          end
      end
  end.

(** One call that does not panic, as a step of the host state. *)
Definition wasi_step (s s' : MyState) : Prop :=
  exists c r outs, host_call_state c s = (Some (r, outs), s').

(** ** The invariant of the host state *)

(** A table is [P]-ok when it is well formed and its live entries
    satisfy [P]. *)
Definition table_ok (P : wasi_resource -> Prop) (t : ResourceTable) : Prop :=
  Table.table_wf t /\ forall k r, Table.occupied t k = Ok r -> P r.

(** Every resource a context can put in the table satisfies [P]. *)
Definition ctx_closed (P : wasi_resource -> Prop) (c : WasiCtx) : Prop :=
  P (RInputStream (wc_stdin c)) /\ P (ROutputStream Stdout (wc_stdout c))
  /\ P (ROutputStream Stderr (wc_stderr c))
  /\ forall d, In d (map fst (wc_preopens c)) -> P (RDescriptor d).

(** [P] holds of no stream that writes to the host. *)
Definition silent (P : wasi_resource -> Prop) : Prop :=
  forall w, ~ P (ROutputStream w OutputInherit).

(** The resources of the default context: a closed stdin, discarding outputs. *)
Definition inert_resource (r : wasi_resource) : Prop :=
  r = RInputStream StdinClosed \/ exists w, r = ROutputStream w OutputSink.

(** The resources of a context whose outputs are sinks. *)
Definition quiet_resource (r : wasi_resource) : Prop :=
  match r with ROutputStream _ o => o = OutputSink | _ => True end.

(** The context is the one built at line 70 and the table holds only
    its resources. *)
Definition inert_state (s : MyState) : Prop :=
  ctx s = ctx new_state /\ table_ok inert_resource (table s).

Lemma write_back_view s : ctx_write_back s (ctx_view s) = s.
Proof. by destruct s. Qed.

Lemma table_ok_new P : table_ok P Table.new.
Proof. split; [apply Table.new_wf|]. intros k r Hk. by apply Table.occupied_Ok in Hk. Qed.

Lemma push_ok P t x :
  table_ok P t -> P x ->
  exists res t', Table.push t x = Some (res, t') /\ table_ok P t'
    /\ match res with
       | Ok k => Table.occupied t' k = Ok x /\ (Z.of_nat k <= Table.u32_max)%Z
                 /\ forall k', k' <> k -> Table.occupied t' k' = Table.occupied t k'
       | Err e => e = Full /\ t' = t
       end.
Proof.
  intros [Hwf Hin] Hx. destruct (Table.push_spec t x Hwf) as (res & t' & Hp & Hwf' & Hres).
  exists res, t'. split_and!; [done| |].
  - split; [done|]. intros k r Hk. destruct res as [k0|e].
    + destruct Hres as (_ & Hk0 & _ & Hrest). destruct (decide (k = k0)) as [->|Hne].
      * congruence.
      * rewrite Hrest in Hk by done. eauto.
    + destruct Hres as (_ & -> & _). eauto.
  - destruct res; [|tauto]. tauto.
Qed.

Lemma delete_ok {T} P (cast : wasi_resource -> option T) t k :
  table_ok P t -> exists res t', Table.delete cast t k = Some (res, t') /\ table_ok P t'.
Proof.
  intros [Hwf Hin]. pose proof (Table.delete_spec cast t k Hwf) as Hd.
  destruct (Table.occupied t k) as [v|e] eqn:Hk.
  - destruct Hd as [-> Hwf']. eexists _, _. split; [reflexivity|]. split; [done|].
    intros k' r Hk'. apply Table.occupied_freed in Hk' as [_ Hk']. destruct t; eauto.
  - destruct Hd as [_ ->]. eexists _, _. split; [reflexivity|]. by split.
Qed.

Lemma push_resource_ok P v x :
  table_ok P (view_table v) -> P x ->
  exists res v', push_resource v x = Some (res, v') /\ view_ctx v' = view_ctx v /\ table_ok P (view_table v').
Proof.
  intros Ht Hx. destruct (push_ok P _ x Ht Hx) as ([h|e] & t' & Hp & Ht' & _);
    unfold push_resource; rewrite Hp; eauto.
Qed.

Lemma push_preopens_ok P v ps :
  table_ok P (view_table v) -> (forall d, In d (map fst ps) -> P (RDescriptor d)) ->
  exists r v', push_preopens v ps = Some (r, v') /\ view_ctx v' = view_ctx v /\ table_ok P (view_table v').
Proof.
  induction ps as [|[dir name] ps IH] in v |- *; intros Ht Hd; simpl; [eauto|].
  destruct (push_resource_ok P v (RDescriptor dir) Ht) as ([fd|e] & v1 & -> & Hc1 & Ht1);
    [apply Hd; by left| |eauto].
  destruct (IH v1 Ht1) as ([l|e] & v2 & -> & Hc2 & Ht2); [intros d ?; apply Hd; by right| |];
    eexists _, v2; split_and!; eauto; congruence.
Qed.

(** One host call on a state whose table holds only resources of [P],
    for a context whose resources satisfy [P] and a [P] that allows no
    stream to the host: the call returns, writes nothing to the host, and
    keeps the context and the invariant. *)
Lemma call_ok P s c :
  ctx_closed P (ctx s) -> silent P -> table_ok P (table s) ->
  exists r s', host_call_state c s = (Some (r, []), s') /\ ctx s' = ctx s /\ table_ok P (table s').
Proof.
  destruct s as [cx t]. simpl. intros (Hin & Hout & Herr & Hdirs) Hsil Ht.
  unfold host_call_state, through_view.
  destruct c; cbn [wasi_call ctx_view ctx table view_ctx view_table].
  1-2: by eexists _, _.
  { match goal with |- context [push_preopens ?v ?ps] =>
      destruct (push_preopens_ok P v ps Ht Hdirs) as (r & v' & -> & Hc & Ht') end.
    eexists _, _. (split; [reflexivity|split; done]). }
  1-3: unfold reply_handle;
       match goal with |- context [push_resource ?v ?x] =>
         destruct (push_resource_ok P v x Ht) as (res & v' & -> & Hc & Ht'); [done|] end;
       eexists _, _; (split; [reflexivity|split; done]).
  { destruct (Table.get as_input t h) as [[]|]; by eexists _, _. }
  { destruct (4096 <? length contents)%nat; [by eexists _, _|].
    destruct (Table.get as_output t h) as [[w []]|] eqn:Hg; [by eexists _, _| |by eexists _, _].
    exfalso. apply Table.get_Ok in Hg as (r & Hr & Hc). destruct Ht as [_ Hall].
    destruct r; simpl in Hc; try done. injection Hc as -> ->. by apply (Hsil w), (Hall h). }
  all: unfold drop_with; cbn [view_table];
       match goal with |- context [Table.delete ?cast ?tb ?k] =>
         destruct (delete_ok P cast tb k Ht) as ([] & t' & -> & Ht') end;
       eexists _, _; (split; [reflexivity|split; done]).
Qed.

Lemma run_ok P cs s :
  ctx_closed P (ctx s) -> silent P -> table_ok P (table s) ->
  exists rs s', run_host_calls cs s = Some (rs, [], s').
Proof.
  induction cs as [|c cs IH] in s |- *; intros Hc Hs Ht; simpl; [eauto|].
  destruct (call_ok P s c Hc Hs Ht) as ([r|e] & s' & -> & Hc' & Ht'); [|eauto].
  rewrite <- Hc' in Hc. destruct (IH s' Hc Hs Ht') as (rs & s'' & ->). eauto.
Qed.

Lemma inert_closed : ctx_closed inert_resource (ctx new_state) /\ silent inert_resource.
Proof.
  split.
  - split_and!; [by left|by right; eexists|by right; eexists|done].
  - intros w [Hr|[w' Hr]]; done.
Qed.

Lemma new_state_inert_state : inert_state new_state.
Proof. split; [done|apply table_ok_new]. Qed.

Lemma inert_step s c :
  inert_state s -> exists r s', host_call_state c s = (Some (r, []), s') /\ inert_state s'.
Proof.
  intros [Hc Ht]. destruct inert_closed as [Hcl Hsil]. rewrite <- Hc in Hcl.
  destruct (call_ok _ s c Hcl Hsil Ht) as (r & s' & Hcall & Hc' & Ht').
  exists r, s'. split; [done|split; [congruence|done]].
Qed.

(** Every state reachable from [new_state] by host calls is inert. *)
Lemma reachable_inert s : rtc wasi_step new_state s -> inert_state s.
Proof.
  apply (rtc_ind_r inert_state); [apply new_state_inert_state|].
  intros y z _ (c & r & outs & Hc) Hy.
  destruct (inert_step y c Hy) as (r' & s' & Hc' & Hs'). congruence.
Qed.

Lemma inert_state_default s :
  inert_state s -> exists t, s = {| ctx := ctx new_state; table := t |} /\ table_ok inert_resource t.
Proof. destruct s as [c t]. intros [Hc Ht]. simpl in Hc, Ht. subst c. eauto. Qed.

Local Ltac host_cbn :=
  cbn [wasi_call ctx_view ctx table view_ctx view_table new_state WasiCtxBuilder_build WasiCtxBuilder_new
       builder_cfg wc_args wc_env wc_preopens wc_stdin wc_stdout wc_stderr push_preopens ctx_write_back set_table].

Local Ltac host_simpl :=
  unfold host_call_state, through_view; host_cbn; unfold drop_with, push_resource, reply_handle; host_cbn.

Lemma write_get {w o} t h bs :
  (length bs <= 4096)%nat -> Table.get as_output t h = Ok (w, o) ->
  host_call_state (BlockingWriteAndFlush h bs) {| ctx := ctx new_state; table := t |} =
    (Some (Ok (RWrite (Ok tt)), if decide (o = OutputSink) then [] else [(w, bs)]),
     {| ctx := ctx new_state; table := t |}).
Proof.
  intros Hlen Hg. host_simpl. rewrite (proj2 (Nat.ltb_ge _ _)) by done.
  rewrite Hg. by destruct o.
Qed.

(** [get-stdout] / [get-stderr] on an inert state: the stream is pushed. *)
Lemma get_output_push w t :
  host_call_state (match w with Stdout => GetStdout | Stderr => GetStderr end) {| ctx := ctx new_state; table := t |} =
    match Table.push t (ROutputStream w OutputSink) with
    | None => (None, {| ctx := ctx new_state; table := t |})
    | Some (Ok k, t') => (Some (Ok (RHandle k), []), {| ctx := ctx new_state; table := t' |})
    | Some (Err e, t') => (Some (Err (table_trap e), []), {| ctx := ctx new_state; table := t' |})
    end.
Proof. destruct w; host_simpl; by destruct (Table.push t _) as [[[]]|]. Qed.

(** The [drop] of an output stream on an inert state: its slot is freed. *)
Lemma drop_output_delete t r w o :
  Table.table_wf t -> Table.occupied t r = Ok (ROutputStream w o) ->
  host_call_state (DropOutputStream r) {| ctx := ctx new_state; table := t |} =
    (Some (Ok RUnit, []),
     {| ctx := ctx new_state; table := {| Table.entries := <[r := Table.Free (Table.free_head t)]> (Table.entries t);
                                          Table.free_head := Some r |} |}).
Proof.
  intros Hwf Hr. pose proof (Table.delete_spec as_output t r Hwf) as Hd. rewrite Hr in Hd.
  destruct Hd as [Hd _]. host_simpl. by rewrite Hd.
Qed.

(** ** Properties *)

(** C16: the default of [WasiCtxBuilder::new()] that matters for the
    host: for any WASI context, no sequence of host calls from a fresh
    table writes anything to the host's stdout or stderr (or panics),
    exactly when the context's stdout and stderr are sinks. *)
Theorem no_output_iff_sinks (c : WasiCtx) :
  (forall cs, exists rs s', run_host_calls cs {| ctx := c; table := ResourceTable_new |} = Some (rs, [], s'))
  <-> wc_stdout c = OutputSink /\ wc_stderr c = OutputSink.
Proof.
  split.
  - intros Hall. destruct c as [a e p si so se sa ip]. simpl. split.
    + destruct so; [done|].
      destruct (Hall [GetStdout; BlockingWriteAndFlush 0 [Byte.x00]]) as (rs & s' & Hrun).
      by vm_compute in Hrun.
    + destruct se; [done|].
      destruct (Hall [GetStderr; BlockingWriteAndFlush 0 [Byte.x00]]) as (rs & s' & Hrun).
      by vm_compute in Hrun.
  - intros [Ho He] cs. apply (run_ok quiet_resource); [|by intros w|apply table_ok_new].
    unfold ctx_closed. cbn [ctx]. rewrite Ho, He. split_and!; try done.
Qed.


(** C20: in every state reachable from [new_state] through [ctx()], the
    guest sees no arguments, no environment variables and no preopened
    directory, every read of a stdin handle it holds reports the stream
    closed (or traps on a handle it does not hold), and the table is well
    formed. *)
Theorem reachable_grants_nothing s :
  rtc wasi_step new_state s ->
  host_call_state GetArguments s = (Some (Ok (RStrings []), []), s)
  /\ host_call_state GetEnvironment s = (Some (Ok (REnv []), []), s)
  /\ host_call_state GetDirectories s = (Some (Ok (RDirs []), []), s)
  /\ (forall h len, host_call_state (BlockingRead h len) s = (Some (Ok (RRead (Err Closed)), []), s)
                    \/ exists e, host_call_state (BlockingRead h len) s = (Some (Err e, []), s))
  /\ Table.table_wf (table s).
Proof.
  intros Hr%reachable_inert%inert_state_default. destruct Hr as (t & -> & Hwf & Hin).
  split_and!; try done. intros h len. host_simpl.
  destruct (Table.get as_input t h) as [[]|] eqn:Hg; eauto.
  exfalso. apply Table.get_Ok in Hg as (r & Hr & Hc).
  destruct (Hin _ _ Hr) as [->|[w ->]]; simpl in Hc; congruence.
Qed.

(** C21: in every reachable state, [get-stdout] returns a handle that
    fits in a [u32], through which a write of at most 4096 bytes succeeds
    and is discarded; or the table is full and the call traps. *)
Theorem stdout_write_discarded s bs :
  rtc wasi_step new_state s -> (length bs <= 4096)%nat ->
  (exists h s', host_call_state GetStdout s = (Some (Ok (RHandle h), []), s')
     /\ (Z.of_nat h <= Table.u32_max)%Z
     /\ host_call_state (BlockingWriteAndFlush h bs) s' = (Some (Ok (RWrite (Ok tt)), []), s'))
  \/ host_call_state GetStdout s = (Some (Err (table_trap Full), []), s).
Proof.
  intros Hr%reachable_inert%inert_state_default Hlen. destruct Hr as (t & -> & Hin).
  destruct (push_ok _ _ (ROutputStream Stdout OutputSink) Hin) as ([h|e] & t' & Hp & _ & Hres);
    [by right; eexists| |].
  - destruct Hres as (Hh & Hb & _). left. exists h, {| ctx := ctx new_state; table := t' |}.
    split_and!; [by host_simpl; rewrite Hp|done|].
    rewrite (write_get (w := Stdout) (o := OutputSink)); [done|done|].
    apply Table.get_Ok. eauto.
  - destruct Hres as [-> ->]. right. host_simpl. by rewrite Hp.
Qed.

End Host.

(** ** Witnesses: the state of main.rs 70-72, a host stdin that yields nothing *)

Definition no_stdin : Z -> list Byte.byte := fun _ => [].

(** The state after the guest's [get-stdout]. *)
Definition demo_after_stdout : MyState := snd (host_call_state no_stdin GetStdout new_state).

Definition demo_bytes : list Byte.byte := String.list_byte_of_string "hello".

Lemma no_output_iff_sinks_witness :
  (forall cs, exists rs s', run_host_calls no_stdin cs {| ctx := ctx new_state; table := ResourceTable_new |}
                              = Some (rs, [], s'))
  <-> wc_stdout (ctx new_state) = OutputSink /\ wc_stderr (ctx new_state) = OutputSink.
Proof. apply no_output_iff_sinks. Defined.

Lemma reachable_grants_nothing_witness :
  host_call_state no_stdin GetArguments new_state = (Some (Ok (RStrings []), []), new_state)
  /\ host_call_state no_stdin GetEnvironment new_state = (Some (Ok (REnv []), []), new_state)
  /\ host_call_state no_stdin GetDirectories new_state = (Some (Ok (RDirs []), []), new_state)
  /\ (forall h len, host_call_state no_stdin (BlockingRead h len) new_state
                      = (Some (Ok (RRead (Err Closed)), []), new_state)
                    \/ exists e, host_call_state no_stdin (BlockingRead h len) new_state = (Some (Err e, []), new_state))
  /\ Table.table_wf (table new_state).
Proof. apply reachable_grants_nothing. apply rtc_refl. Defined.

Lemma stdout_write_discarded_witness :
  (exists h s', host_call_state no_stdin GetStdout new_state = (Some (Ok (RHandle h), []), s')
     /\ (Z.of_nat h <= Table.u32_max)%Z
     /\ host_call_state no_stdin (BlockingWriteAndFlush h demo_bytes) s' = (Some (Ok (RWrite (Ok tt)), []), s'))
  \/ host_call_state no_stdin GetStdout new_state = (Some (Err (table_trap Full), []), new_state).
Proof. apply stdout_write_discarded; [apply rtc_refl|vm_compute; lia]. Defined.
