(* ===== verification/Canon.v ===== *)
(** * The canonical ABI between the guest and the WASI host functions

    When the guest calls a WASI function it imports, the component
    model stands between the guest's handles and the host's resources
    (wasmtime's component runtime, a library the sources only call):
    - the arguments are lifted first: the [borrow<input-stream>] or
      [borrow<output-stream>] a method is called on is looked up in the
      instance's table for that type ([Handles.rep]), and the [own]
      handle a [resource.drop] consumes is removed from it
      ([Handles.remove]); an unknown handle traps here, before the host
      function runs;
    - the host function of WasiHost.v then runs on [MyState] through
      [ctx()], with the host's representation ([rep], the index of the
      resource in [MyState.table]);
    - its result is lowered: each [own] resource it returns (the stream
      of [get-stdin] / [get-stdout] / [get-stderr], the descriptors of
      [get-directories], in order) is inserted into the instance's table
      for its type, and the guest receives the new handle.
    [handle_tables] are the instance's tables, one per resource type the
    guest imports; [canon_call] is one such call.  The invariant is the
    well-formedness of the three tables, with the inert host state of
    WasiHost.v; on it a call never panics and writes nothing
    ([canon_inert]), so every state a guest reaches from the fresh
    tables and [new_state] satisfies it. *)

From S2P Require Import Prelude ResourceTable Handles Process Wasi WasiHost.

Local Open Scope string_scope.

Inductive res_kind := KInput | KOutput | KDescriptor.

#[export] Instance res_kind_eq_dec : EqDecision res_kind.
Proof. solve_decision. Defined.

Record handle_tables := {
  hs_input : Handles.HandleTable;
  hs_output : Handles.HandleTable;
  hs_descriptor : Handles.HandleTable
}.

Definition tables_empty : handle_tables :=
  {| hs_input := Handles.empty; hs_output := Handles.empty; hs_descriptor := Handles.empty |}.

Definition table_of (k : res_kind) (hs : handle_tables) : Handles.HandleTable :=
  match k with KInput => hs_input hs | KOutput => hs_output hs | KDescriptor => hs_descriptor hs end.

Definition set_table_of (k : res_kind) (hs : handle_tables) (t : Handles.HandleTable) : handle_tables :=
  match k with
  | KInput => {| hs_input := t; hs_output := hs_output hs; hs_descriptor := hs_descriptor hs |}
  | KOutput => {| hs_input := hs_input hs; hs_output := t; hs_descriptor := hs_descriptor hs |}
  | KDescriptor => {| hs_input := hs_input hs; hs_output := hs_output hs; hs_descriptor := t |}
  end.

(** The lowering of an [own<T>] the host returns: a new guest handle. *)
Definition lower_own (k : res_kind) (hs : handle_tables) (rep : nat)
    : option (result nat string * handle_tables) :=
  match Handles.insert (table_of k hs) rep with
  | None => None
  | Some (r, t) => Some (r, set_table_of k hs t)
  end.

(** The lowering of [list<tuple<own<descriptor>, string>>], in order. *)
Fixpoint lower_dirs (hs : handle_tables) (ds : list (nat * string))
    : option (result (list (nat * string)) string * handle_tables) :=
  match ds with
  | [] => Some (Ok [], hs)
  | (rep, name) :: rest =>
      match lower_own KDescriptor hs rep with
      | None => None
      | Some (Err e, hs1) => Some (Err e, hs1)
      | Some (Ok fd, hs1) =>
          match lower_dirs hs1 rest with
          | None => None
          | Some (Err e, hs2) => Some (Err e, hs2)
          | Some (Ok l, hs2) => Some (Ok ((fd, name) :: l), hs2)
          end
      end
  end.

(** The type of the resource a function's result owns. *)
Definition reply_kind (c : host_call) : option res_kind :=
  match c with
  | GetStdin => Some KInput
  | GetStdout | GetStderr => Some KOutput
  | _ => None
  end.

Definition lower_reply (c : host_call) (hs : handle_tables) (r : host_reply)
    : option (result host_reply string * handle_tables) :=
  match r, reply_kind c with
  | RHandle rep, Some k => (fun p => (result_map RHandle p.1, p.2)) <$> lower_own k hs rep
  | RDirs ds, _ => (fun p => (result_map RDirs p.1, p.2)) <$> lower_dirs hs ds
  | _, _ => Some (Ok r, hs)
  end.

(** The lifting of the handle arguments into the host's [rep]s. *)
Definition lift_borrow (k : res_kind) (hs : handle_tables) (h : nat) (f : nat -> host_call)
    : result (host_call * handle_tables) string :=
  match Handles.rep (table_of k hs) h with
  | Ok r => Ok (f r, hs)
  | Err e => Err e
  end.

Definition lift_drop (k : res_kind) (hs : handle_tables) (h : nat) (f : nat -> host_call)
    : result (host_call * handle_tables) string :=
  match Handles.remove (table_of k hs) h with
  | Ok (r, t) => Ok (f r, set_table_of k hs t)
  | Err e => Err e
  end.

Definition lift_args (c : host_call) (hs : handle_tables) : result (host_call * handle_tables) string :=
  match c with
  | BlockingRead h len => lift_borrow KInput hs h (fun r => BlockingRead r len)
  | BlockingWriteAndFlush h bs => lift_borrow KOutput hs h (fun r => BlockingWriteAndFlush r bs)
  | DropInputStream h => lift_drop KInput hs h DropInputStream
  | DropOutputStream h => lift_drop KOutput hs h DropOutputStream
  | DropDescriptor h => lift_drop KDescriptor hs h DropDescriptor
  | _ => Ok (c, hs)
  end.

Section Canon.
Variable host_stdin : Z -> list Byte.byte.

(** One WASI call of the guest: lift, run the host function on the
    store's state, lower. *)
Definition canon_call (c : host_call) (hs : handle_tables) (s : MyState)
    : option (result host_reply string * list out_event) * (handle_tables * MyState) :=
  match lift_args c hs with
  | Err e => (Some (Err e, []), (hs, s))
  | Ok (c', hs1) =>
      match host_call_state host_stdin c' s with
      | (None, s') => (None, (hs1, s'))
      | (Some (Err e, outs), s') => (Some (Err e, outs), (hs1, s'))
      | (Some (Ok r, outs), s') =>
          match lower_reply c hs1 r with
          | None => (None, (hs1, s'))
          | Some (res, hs2) => (Some (res, outs), (hs2, s'))
          end
      end
  end.

(** One call that does not panic, as a step of the instance's tables and
    the store's state. *)
Definition canon_step (x y : handle_tables * MyState) : Prop :=
  exists c r outs, canon_call c x.1 x.2 = (Some (r, outs), y).
End Canon.

(** ** The invariant *)

Definition tables_wf (hs : handle_tables) : Prop := forall k, Handles.ht_wf (table_of k hs).

Lemma tables_empty_wf : tables_wf tables_empty.
Proof. intros []; apply Handles.empty_wf. Qed.

Lemma table_of_set k k' hs t :
  table_of k (set_table_of k' hs t) = if decide (k = k') then t else table_of k hs.
Proof. by destruct k, k'. Qed.

Lemma tables_wf_set k hs t : tables_wf hs -> Handles.ht_wf t -> tables_wf (set_table_of k hs t).
Proof. intros Hhs Ht k'. rewrite table_of_set. by case_decide. Qed.

Lemma lower_own_ok k hs rep :
  tables_wf hs -> exists r hs', lower_own k hs rep = Some (r, hs') /\ tables_wf hs'.
Proof.
  intros Hhs. destruct (Handles.insert_spec (table_of k hs) rep (Hhs k)) as (r & t & Hins & Ht & _).
  unfold lower_own. rewrite Hins. eexists _, _. split; [done|]. by apply tables_wf_set.
Qed.

Lemma lower_dirs_ok hs ds :
  tables_wf hs -> exists r hs', lower_dirs hs ds = Some (r, hs') /\ tables_wf hs'.
Proof.
  induction ds as [|[rep name] ds IH] in hs |- *; intros Hhs; simpl; [eauto|].
  destruct (lower_own_ok KDescriptor hs rep Hhs) as ([fd|e] & hs1 & -> & Hhs1); [|eauto].
  destruct (IH hs1 Hhs1) as ([l|e] & hs2 & -> & Hhs2); eauto.
Qed.

Lemma lower_reply_ok c hs r :
  tables_wf hs -> exists res hs', lower_reply c hs r = Some (res, hs') /\ tables_wf hs'.
Proof.
  intros Hhs. unfold lower_reply.
  destruct r; try (by eexists _, _); destruct (reply_kind c) as [k|]; try (by eexists _, _).
  - destruct (lower_dirs_ok hs l Hhs) as (res & hs' & -> & ?). by eexists _, _.
  - destruct (lower_dirs_ok hs l Hhs) as (res & hs' & -> & ?). by eexists _, _.
  - destruct (lower_own_ok k hs h Hhs) as (res & hs' & -> & ?). by eexists _, _.
Qed.

Lemma lift_drop_ok k hs h f c' hs' : tables_wf hs -> lift_drop k hs h f = Ok (c', hs') -> tables_wf hs'.
Proof.
  unfold lift_drop. intros Hhs. destruct (Handles.remove _ h) as [[r t]|] eqn:Hrm; [|done]. intros [= _ <-].
  apply tables_wf_set; [done|].
  destruct (Handles.rep (table_of k hs) h) as [r'|e] eqn:Hr; [|by rewrite (Handles.remove_Err _ _ _ Hr) in Hrm].
  destruct (Handles.remove_spec _ _ _ (Hhs k) Hr) as (t' & Hrm' & Hwf & _). rewrite Hrm' in Hrm. by simplify_eq.
Qed.

Lemma lift_args_ok c hs c' hs' : tables_wf hs -> lift_args c hs = Ok (c', hs') -> tables_wf hs'.
Proof.
  intros Hhs. destruct c; simpl; try (by intros [= <- <-]); try (by apply lift_drop_ok);
    unfold lift_borrow; destruct (Handles.rep _ _); intros; by simplify_eq.
Qed.

(** On the fresh tables and the state main.rs builds, and on every
    state that follows from them, a WASI call of the guest never panics
    and writes nothing to the host's stdout or stderr, whatever handles
    it passes. *)
Lemma canon_inert host_stdin c hs s :
  inert_state s -> tables_wf hs ->
  exists r hs' s', canon_call host_stdin c hs s = (Some (r, []), (hs', s')) /\ inert_state s' /\ tables_wf hs'.
Proof.
  intros Hs Hhs. unfold canon_call.
  destruct (lift_args c hs) as [[c' hs1]|e] eqn:Hl; [|by eexists _, _, _].
  pose proof (lift_args_ok c hs c' hs1 Hhs Hl) as Hhs1.
  destruct (inert_step host_stdin s c' Hs) as ([rep|e] & s1 & -> & Hs1); [|by eexists _, _, _].
  destruct (lower_reply_ok c hs1 rep Hhs1) as (res & hs2 & -> & Hhs2). by eexists _, _, _.
Qed.

Lemma reachable_canon host_stdin hs s :
  rtc (canon_step host_stdin) (tables_empty, new_state) (hs, s) -> inert_state s /\ tables_wf hs.
Proof.
  change (rtc (canon_step host_stdin) (tables_empty, new_state) (hs, s) -> inert_state (hs, s).2 /\ tables_wf (hs, s).1).
  generalize (hs, s) as y. apply (rtc_ind_r (fun y => inert_state y.2 /\ tables_wf y.1)).
  { split; [apply new_state_inert_state|apply tables_empty_wf]. }
  intros y z _ (c & r & outs & Hc) [Hs Hhs].
  destruct (canon_inert host_stdin c y.1 y.2 Hs Hhs) as (r' & hs' & s' & Hc' & ? & ?).
  rewrite Hc in Hc'. by simplify_eq.
Qed.

(** ** Handles the guest drops *)

Section Stale.
Variable host_stdin : Z -> list Byte.byte.

(** [get-stdout] / [get-stderr] on an inert state: the guest's new
    handle names the stream the host pushed. *)
Lemma canon_get_output w hs t h hs1 s1 :
  tables_wf hs -> Table.table_wf t ->
  canon_call host_stdin (match w with Stdout => GetStdout | Stderr => GetStderr end) hs
    {| ctx := ctx new_state; table := t |} = (Some (Ok (RHandle h), []), (hs1, s1)) ->
  exists r, Handles.rep (hs_output hs1) h = Ok r /\ Table.occupied (table s1) r = Ok (ROutputStream w OutputSink)
    /\ Table.table_wf (table s1) /\ ctx s1 = ctx new_state /\ tables_wf hs1.
Proof.
  intros Hhs Hwf. destruct (Table.push_spec t (ROutputStream w OutputSink) Hwf) as (res & t1 & Hp & Hwf1 & Hres).
  destruct (Handles.insert_spec (hs_output hs) match res with Ok k => k | Err _ => 0 end (Hhs KOutput))
    as (ins & ht & Hins & Hwf' & Hr).
  assert (Hcall : canon_call host_stdin (match w with Stdout => GetStdout | Stderr => GetStderr end) hs
                    {| ctx := ctx new_state; table := t |} =
            match res with
            | Ok k => match ins with
                      | Ok idx => (Some (Ok (RHandle idx), []), (set_table_of KOutput hs ht, {| ctx := ctx new_state; table := t1 |}))
                      | Err e => (Some (Err e, []), (set_table_of KOutput hs ht, {| ctx := ctx new_state; table := t1 |}))
                      end
            | Err e => (Some (Err (table_trap e), []), (hs, {| ctx := ctx new_state; table := t1 |}))
            end).
  { unfold canon_call. replace (lift_args _ hs) with (Ok (match w with Stdout => GetStdout | Stderr => GetStderr end, hs) : result _ string)
      by (by destruct w).
    rewrite get_output_push, Hp. destruct res as [k|e]; [|done].
    replace (lower_reply _ hs (RHandle k)) with ((fun p => (result_map RHandle p.1, p.2)) <$> lower_own KOutput hs k)
      by (by destruct w).
    unfold lower_own. cbn [table_of]. rewrite Hins. by destruct ins. }
  rewrite Hcall. destruct res as [k|e]; [|done]. destruct ins as [idx|e]; [|done].
  intros [= -> <- <-]. destruct Hres as (_ & Hocc & _), Hr as (_ & Hrep & _).
  exists k. refine (conj Hrep (conj Hocc (conj Hwf1 (conj eq_refl _)))). exact (tables_wf_set KOutput hs ht Hhs Hwf').
Qed.

(** The guest's [drop] of its handle of an output stream: the handle
    leaves the guest's table, whose next insertion reuses it, and the
    host frees the stream's slot. *)
Lemma canon_drop_output hs t h r w :
  tables_wf hs -> Table.table_wf t -> Handles.rep (hs_output hs) h = Ok r ->
  Table.occupied t r = Ok (ROutputStream w OutputSink) ->
  exists ht, canon_call host_stdin (DropOutputStream h) hs {| ctx := ctx new_state; table := t |}
      = (Some (Ok RUnit, []), (set_table_of KOutput hs ht,
          {| ctx := ctx new_state;
             table := {| Table.entries := <[r := Table.Free (Table.free_head t)]> (Table.entries t);
                         Table.free_head := Some r |} |}))
    /\ Handles.ht_wf ht /\ S (Handles.ht_next ht) = h /\ (Handles.ht_next ht < length (Handles.ht_slots ht))%nat
    /\ Handles.rep ht h = Err (Handles.unknown_handle h).
Proof.
  intros Hhs Hwf Hr Hocc.
  destruct (Handles.remove_spec _ _ _ (Hhs KOutput) Hr) as (ht & Hrm & Hwf' & Hn & Hlt & Hgone & _).
  exists ht. split_and!; [|done..].
  unfold canon_call, lift_args, lift_drop. rewrite Hrm.
  by rewrite (drop_output_delete host_stdin t r w OutputSink Hwf Hocc).
Qed.

(** A write through a handle the output table does not hold traps in
    the lifting, before the host function runs. *)
Lemma canon_write_unknown hs s h bs :
  Handles.rep (hs_output hs) h = Err (Handles.unknown_handle h) ->
  canon_call host_stdin (BlockingWriteAndFlush h bs) hs s = (Some (Err (Handles.unknown_handle h), []), (hs, s)).
Proof. intros Hr. unfold canon_call, lift_args, lift_borrow. cbn [table_of]. by rewrite Hr. Qed.

(** C22: a stdout handle the guest dropped is stale: once [get-stdout]
    has given the guest a handle and the guest has dropped it, a write
    through it traps in the lifting of its [borrow], with [unknown
    handle index], before the host function runs -- whatever the length
    of the write, even beyond the 4096 bytes the host function refuses
    -- and the instance's tables and the host state stay as they are. *)
Theorem dropped_handle_traps hs s h hs1 s1 bs :
  rtc (canon_step host_stdin) (tables_empty, new_state) (hs, s) ->
  canon_call host_stdin GetStdout hs s = (Some (Ok (RHandle h), []), (hs1, s1)) ->
  exists hs2 s2, canon_call host_stdin (DropOutputStream h) hs1 s1 = (Some (Ok RUnit, []), (hs2, s2))
    /\ canon_call host_stdin (BlockingWriteAndFlush h bs) hs2 s2 = (Some (Err (Handles.unknown_handle h), []), (hs2, s2)).
Proof.
  intros [Hs Hhs]%reachable_canon Hget. destruct (inert_state_default s Hs) as (t & -> & Hwf & _).
  destruct (canon_get_output Stdout hs t h hs1 s1 Hhs Hwf Hget) as (r & Hrep & Hocc & Hwf1 & Hctx & Hhs1).
  destruct s1 as [c1 t1]. cbn [ctx] in Hctx. cbn [table] in Hocc, Hwf1. subst c1.
  destruct (canon_drop_output hs1 t1 h r Stdout Hhs1 Hwf1 Hrep Hocc) as (ht & Hdrop & _ & _ & _ & Hgone).
  eexists _, _. split; [exact Hdrop|]. by apply canon_write_unknown.
Qed.

(** C23: guest handles are reused: after the guest drops its stdout
    handle, its next [get-stderr] returns the same handle, so the stale
    stdout handle now names the stderr stream, and a write of at most
    4096 bytes through it no longer traps: it succeeds, on stderr. *)
Theorem dropped_handle_reused hs s h hs1 s1 hs2 s2 bs :
  rtc (canon_step host_stdin) (tables_empty, new_state) (hs, s) ->
  canon_call host_stdin GetStdout hs s = (Some (Ok (RHandle h), []), (hs1, s1)) ->
  canon_call host_stdin (DropOutputStream h) hs1 s1 = (Some (Ok RUnit, []), (hs2, s2)) ->
  (length bs <= 4096)%nat ->
  exists hs3 s3 r, canon_call host_stdin GetStderr hs2 s2 = (Some (Ok (RHandle h), []), (hs3, s3))
    /\ Handles.rep (hs_output hs3) h = Ok r /\ Table.occupied (table s3) r = Ok (ROutputStream Stderr OutputSink)
    /\ canon_call host_stdin (BlockingWriteAndFlush h bs) hs3 s3 = (Some (Ok (RWrite (Ok tt)), []), (hs3, s3)).
Proof.
  intros [Hs Hhs]%reachable_canon Hget Hdrop2 Hlen. destruct (inert_state_default s Hs) as (t & -> & Hwf & _).
  destruct (canon_get_output Stdout hs t h hs1 s1 Hhs Hwf Hget) as (r & Hrep & Hocc & Hwf1 & Hctx & Hhs1).
  destruct s1 as [c1 t1]. cbn [ctx] in Hctx. cbn [table] in Hocc, Hwf1. subst c1.
  destruct (canon_drop_output hs1 t1 h r Stdout Hhs1 Hwf1 Hrep Hocc) as (ht & Hdrop & Hwf' & Hn & Hlt & _).
  rewrite Hdrop in Hdrop2. injection Hdrop2 as <- <-.
  destruct (Table.delete_then_push as_output t1 r _ (ROutputStream Stderr OutputSink) Hocc) as (_ & _ & Hpush).
  destruct (Handles.insert_at_next ht r Hwf' Hlt) as (ht3 & Hins & _ & Hrep3 & _). rewrite Hn in Hins, Hrep3.
  assert (Hocc3 : Table.occupied {| Table.entries := <[r := Table.Occupied (ROutputStream Stderr OutputSink)]>
                                      (<[r := Table.Free (Table.free_head t1)]> (Table.entries t1));
                                    Table.free_head := Table.free_head t1 |} r = Ok (ROutputStream Stderr OutputSink)).
  { apply Table.occupied_Ok. cbn [Table.entries]. apply Table.occupied_Ok, lookup_lt_Some in Hocc.
    rewrite list_lookup_insert_eq; [done|]. by rewrite length_insert. }
  eexists _, _, r. split_and!.
  - unfold canon_call, lift_args. rewrite (get_output_push host_stdin Stderr), Hpush.
    unfold lower_reply, lower_own. cbn [reply_kind table_of set_table_of hs_output]. by rewrite Hins.
  - done.
  - done.
  - unfold canon_call, lift_args, lift_borrow. cbn [table_of set_table_of hs_output snd]. rewrite Hrep3.
    rewrite (write_get host_stdin (w := Stderr) (o := OutputSink)); [done|done|]. apply Table.get_Ok. eauto.
Qed.
End Stale.

(** ** Witnesses: the tables of a fresh instance, the state of main.rs 70-72 *)

(** After the guest's [get-stdout], and after it then drops the handle. *)
Definition after_stdout : handle_tables * MyState := snd (canon_call no_stdin GetStdout tables_empty new_state).
Definition after_drop : handle_tables * MyState :=
  snd (canon_call no_stdin (DropOutputStream 1) after_stdout.1 after_stdout.2).

(** A stale write of 5000 bytes: the lifting traps first. *)
Lemma dropped_handle_traps_witness :
  exists hs2 s2, canon_call no_stdin (DropOutputStream 1) after_stdout.1 after_stdout.2 = (Some (Ok RUnit, []), (hs2, s2))
    /\ canon_call no_stdin (BlockingWriteAndFlush 1 (repeat Byte.x00 5000)) hs2 s2
         = (Some (Err (Handles.unknown_handle 1), []), (hs2, s2)).
Proof. apply (dropped_handle_traps no_stdin tables_empty new_state); [apply rtc_refl|vm_compute; reflexivity]. Defined.

Lemma dropped_handle_reused_witness :
  exists hs3 s3 r, canon_call no_stdin GetStderr after_drop.1 after_drop.2 = (Some (Ok (RHandle 1), []), (hs3, s3))
    /\ Handles.rep (hs_output hs3) 1 = Ok r /\ Table.occupied (table s3) r = Ok (ROutputStream Stderr OutputSink)
    /\ canon_call no_stdin (BlockingWriteAndFlush 1 demo_bytes) hs3 s3 = (Some (Ok (RWrite (Ok tt)), []), (hs3, s3)).
Proof.
  apply (dropped_handle_reused no_stdin tables_empty new_state 1 after_stdout.1 after_stdout.2);
    [apply rtc_refl|vm_compute; reflexivity|vm_compute; reflexivity|vm_compute; lia].
Defined.
