(* ===== verification/Wit.v ===== *)
(** * The WIT interface and the Rust guest

    The interface both sides are generated from (component/component.wit,
    outside src/, modelled from the spec and from the generated names the
    sources use): one interface [test:test/handler-interface] exporting
    [handleevent: func(event: request) -> request] with
    [record request { uri: string }].  The schema is flat, as the spec's
    data model says: a record maps field names to primitive types.

    The guest, src/component/rust/src/lib.rs: [Component] implements
    [Guest::handleevent] as the identity (lines 6-12), and
    [bindings::export!] (line 14) wraps it in the export glue that lifts
    the argument from the canonical representation, calls it, and lowers
    the result.  Values are modelled at the level of WIT values; the
    byte-level canonical ABI is not modelled here.  Guest code may call
    the WASI functions it imports before it returns ([GCall]); the
    identity guest calls none. *)

From S2P Require Import Prelude WasiHost.

Local Open Scope string_scope.

(** ** WIT types and values *)

Inductive wit_prim := TString | TU32 | TBool.

Inductive wit_type :=
| TPrim (p : wit_prim)
| TRecord (fields : list (string * wit_prim)).

Record functype := {
  ft_params : list (string * wit_type);
  ft_result : option wit_type
}.

#[export] Instance wit_prim_eq_dec : EqDecision wit_prim.
Proof. solve_decision. Defined.
#[export] Instance wit_type_eq_dec : EqDecision wit_type.
Proof. solve_decision. Defined.
#[export] Instance functype_eq_dec : EqDecision functype.
Proof. solve_decision. Defined.

Inductive wit_prim_val :=
| VString (s : string)
| VU32 (n : Z)
| VBool (b : bool).

Inductive wit_val :=
| VPrim (v : wit_prim_val)
| VRecord (fields : list (string * wit_prim_val)).

Definition prim_has_type (v : wit_prim_val) (t : wit_prim) : bool :=
  match v, t with
  | VString _, TString => true
  | VU32 n, TU32 => (0 <=? n)%Z && (n <? 2 ^ 32)%Z
  | VBool _, TBool => true
  | _, _ => false
  end.

(** A record value has a record type when its fields have the declared
    names, in the declared order, with values of the declared types. *)
Fixpoint fields_have_type (vs : list (string * wit_prim_val)) (ts : list (string * wit_prim)) : bool :=
  match vs, ts with
  | [], [] => true
  | (n, v) :: vs', (m, t) :: ts' => String.eqb n m && prim_has_type v t && fields_have_type vs' ts'
  | _, _ => false
  end.

Definition has_type (v : wit_val) (t : wit_type) : bool :=
  match v, t with
  | VPrim pv, TPrim pt => prim_has_type pv pt
  | VRecord fs, TRecord ts => fields_have_type fs ts
  | _, _ => false
  end.

(** ** The interface of component.wit *)

Definition handler_interface_name : string := "test:test/handler-interface".
Definition handleevent_name : string := "handleevent".

Definition request_ty : wit_type := TRecord [("uri", TString)].

Definition handleevent_ty : functype :=
  {| ft_params := [("event", request_ty)]; ft_result := Some request_ty |}.

(** [bindings::exports::test::test::handler_interface::Request], the
    Rust struct both generators emit for [record request]. *)
Record Request := { uri : string }.

(** Lowering a [Request] into a WIT value, and lifting it back. *)
Definition lower_request (r : Request) : wit_val := VRecord [("uri", VString (uri r))].

Definition lift_request (v : wit_val) : option Request :=
  match v with
  | VRecord [(n, VString s)] => if String.eqb n "uri" then Some {| uri := s |} else None
  | _ => None
  end.

(** ** Guest code *)

(** What the guest code of an export does: return (a value, or none),
    trap, or call a host function it imports (a WASI function of
    WasiHost.v) and continue with its reply.  A guest is a finite tree of
    host calls; a guest that never returns is not modelled. *)
Inductive guest_result :=
| GReturn (v : option wit_val)
| GTrap (reason : string)
| GCall (c : host_call) (k : host_reply -> guest_result).

(** An exported function: its declared type and its body on lifted values. *)
Record guest_func := {
  gf_type : functype;
  gf_body : list wit_val -> guest_result
}.

(** lib.rs 8-12: [fn handleevent(mut event: Request) -> Request { event }] *)
Definition handleevent (event : Request) : Request := event.

(** The glue [bindings::export!] generates for an implementation [f] of
    [Guest::handleevent] (lib.rs 14): the argument lifted as a
    [Request], [f] called, the result lowered back.  The generated glue
    checks nothing: the host reaches it only through the bindings'
    [TypedFunc], whose type wasmtime fixes statically, and which passes
    exactly one lowered [Request] ([spec_call], Runtime.v).  Other
    argument lists never reach the glue; the body is total, so it
    traps with [unreachable] on them, and no theorem is about those
    branches. *)
Definition export_handleevent (f : Request -> Request) : guest_func :=
  {| gf_type := handleevent_ty;
     gf_body := fun args =>
       match args with
       | [v] => match lift_request v with
                | Some r => GReturn (Some (lower_request (f r)))
                | None => GTrap "unreachable"
                end
       | _ => GTrap "unreachable"
       end |}.

(** The export of the Rust guest, [Component] of lib.rs 6. *)
Definition rust_guest_export : guest_func := export_handleevent handleevent.

(** ** Typing *)

Lemma lower_request_typed r : has_type (lower_request r) request_ty = true.
Proof. done. Qed.

#[export] Hint Resolve lower_request_typed : host.

(** The values of type [request] are the one-field records [uri]. *)
Lemma has_type_request v :
  has_type v request_ty = true -> exists s, v = VRecord [("uri", VString s)].
Proof.
  destruct v as [pv|[|[n pv] rest]]; [done|done|]. simpl.
  destruct (String.eqb_spec n "uri"); [subst|done].
  destruct pv; simpl; try done. destruct rest as [|[]]; [eauto|done].
Qed.

(** Lifting a [request] succeeds exactly on the values of the WIT type
    [request], and on them it inverts lowering. *)
Lemma lift_request_typed v r :
  lift_request v = Some r <-> has_type v request_ty = true /\ v = lower_request r.
Proof.
  split.
  - destruct v as [|[|[n [s| |]] [|]]]; simpl; try done.
    destruct (String.eqb_spec n "uri") as [->|]; [|done]. by intros [= <-].
  - intros [_ ->]. by destruct r.
Qed.

(** What the typed call passes, the glue lifts back: it returns
    [f]'s result, lowered. *)
Lemma export_handleevent_lower f req :
  gf_body (export_handleevent f) [lower_request req] = GReturn (Some (lower_request (f req))).
Proof. by destruct req. Qed.
