(* ===== verification/Abi.v ===== *)
(** * Linear memory and the byte encodings of the canonical ABI

    What the component model's canonical ABI (implemented by wasmtime on
    the host side and by the wit-bindgen glue in the guest's
    bindings.rs) needs to pass [record request { uri: string }] through
    a wasm32 guest's linear memory:
    - [memory]: the guest's linear memory, a sparse map from addresses to
      bytes (absent bytes read as zero, as wasm memory is zero
      initialised) with its current size, growable by 64 KiB pages up to
      the 4 GiB of wasm32;
    - byte loads and stores, and their list versions;
    - little-endian words ([le_split], [le_value]) for the i32 pointers
      and lengths, as the ABI's [store_int] / [load_int];
    - [utf8_valid]: the validity check of [String::from_utf8] and of the
      ABI's string lifting, by the table of RFC 3629 (no overlong forms,
      no surrogates, nothing above U+10FFFF). *)

From S2P Require Import Prelude.

Local Open Scope Z_scope.

(** ** Memory *)

Definition page_size : Z := 65536.
Definition max_pages : Z := 65536.

Record memory := {
  mem_bytes : gmap Z Byte.byte;
  mem_size : Z
}.

Definition load_byte (m : memory) (a : Z) : Byte.byte := default Byte.x00 (mem_bytes m !! a).

Definition store_byte (m : memory) (a : Z) (b : Byte.byte) : memory :=
  {| mem_bytes := <[a := b]> (mem_bytes m); mem_size := mem_size m |}.

Fixpoint load_bytes (m : memory) (a : Z) (n : nat) : list Byte.byte :=
  match n with
  | O => []
  | S n => load_byte m a :: load_bytes m (a + 1) n
  end.

Fixpoint store_bytes (m : memory) (a : Z) (bs : list Byte.byte) : memory :=
  match bs with
  | [] => m
  | b :: bs => store_bytes (store_byte m a b) (a + 1) bs
  end.

(** [memory.grow pages]: fails beyond the wasm32 limit. *)
Definition mem_grow (m : memory) (pages : Z) : option memory :=
  if (0 <=? pages) && (mem_size m / page_size + pages <=? max_pages) then
    Some {| mem_bytes := mem_bytes m; mem_size := mem_size m + pages * page_size |}
  else None.

(** ** Little-endian words *)

Definition byte_of_Z (z : Z) : Byte.byte :=
  match Byte.of_N (Z.to_N (Z.land z 255)) with Some b => b | None => Byte.x00 end.

Definition Z_of_byte (b : Byte.byte) : Z := Z.of_N (Byte.to_N b).

Fixpoint le_split (n : nat) (v : Z) : list Byte.byte :=
  match n with
  | O => []
  | S n => byte_of_Z v :: le_split n (Z.shiftr v 8)
  end.

Fixpoint le_value (bs : list Byte.byte) : Z :=
  match bs with
  | [] => 0
  | b :: bs => Z_of_byte b + 256 * le_value bs
  end.

Definition store_u32 (m : memory) (a v : Z) : memory := store_bytes m a (le_split 4 v).
Definition load_u32 (m : memory) (a : Z) : Z := le_value (load_bytes m a 4).

(** ** UTF-8 *)

Definition byte_in (lo hi : Z) (b : Byte.byte) : bool :=
  (lo <=? Z_of_byte b) && (Z_of_byte b <=? hi).

(** The range of the second byte after a three- or four-byte lead. *)
Definition second_ok (lead : Z) (b : Byte.byte) : bool :=
  if lead =? 224 then byte_in 160 191 b        (* E0: no overlong form *)
  else if lead =? 237 then byte_in 128 159 b   (* ED: no surrogate *)
  else if lead =? 240 then byte_in 144 191 b   (* F0: no overlong form *)
  else if lead =? 244 then byte_in 128 143 b   (* F4: nothing above U+10FFFF *)
  else byte_in 128 191 b.

Fixpoint utf8_valid (bs : list Byte.byte) : bool :=
  match bs with
  | [] => true
  | b1 :: r1 =>
      let n1 := Z_of_byte b1 in
      if n1 <? 128 then utf8_valid r1
      else if byte_in 194 223 b1 then
        match r1 with
        | b2 :: r2 => byte_in 128 191 b2 && utf8_valid r2
        | [] => false
        end
      else if byte_in 224 239 b1 then
        match r1 with
        | b2 :: b3 :: r3 => second_ok n1 b2 && byte_in 128 191 b3 && utf8_valid r3
        | _ => false
        end
      else if byte_in 240 244 b1 then
        match r1 with
        | b2 :: b3 :: b4 :: r4 =>
            second_ok n1 b2 && byte_in 128 191 b3 && byte_in 128 191 b4 && utf8_valid r4
        | _ => false
        end
      else false
  end.

(** ** Lemmas *)

Lemma Z_of_byte_range b : 0 <= Z_of_byte b < 256.
Proof.
  unfold Z_of_byte. pose proof (Byte.to_N_bounded b). lia.
Qed.

Lemma Z_of_byte_of_Z z : Z_of_byte (byte_of_Z z) = z mod 256.
Proof.
  unfold byte_of_Z, Z_of_byte.
  change 255 with (Z.ones 8). rewrite Z.land_ones by lia.
  pose proof (Z.mod_pos_bound z 256 ltac:(lia)) as Hb.
  destruct (Byte.of_N (Z.to_N (z mod 2 ^ 8))) as [b|] eqn:E.
  - apply Byte.to_of_N in E. rewrite E. change (2 ^ 8) with 256. lia.
  - apply Byte.of_N_None_iff in E. change (2 ^ 8) with 256 in E. lia.
Qed.

Lemma le_value_split n v : le_value (le_split n v) = v mod 256 ^ Z.of_nat n.
Proof.
  induction n as [|n IH] in v |- *; simpl le_split; simpl le_value.
  { by rewrite Z.mod_1_r. }
  rewrite IH, Z_of_byte_of_Z, Z.shiftr_div_pow2 by lia.
  rewrite Nat2Z.inj_succ, Z.pow_succ_r by lia.
  change (2 ^ 8) with 256. rewrite Z.rem_mul_r; lia.
Qed.

Lemma length_le_split n v : length (le_split n v) = n.
Proof. induction n in v |- *; simpl; auto. Qed.

Lemma le_value_range bs : 0 <= le_value bs < 256 ^ Z.of_nat (length bs).
Proof.
  induction bs as [|b bs IH]; simpl; [lia|].
  pose proof (Z_of_byte_range b). rewrite Nat2Z.inj_succ, Z.pow_succ_r by lia. lia.
Qed.

Lemma load_store_byte_eq m a b : load_byte (store_byte m a b) a = b.
Proof. unfold load_byte, store_byte. simpl. by rewrite lookup_insert_eq. Qed.

Lemma load_store_byte_ne m a a' b : a <> a' -> load_byte (store_byte m a b) a' = load_byte m a'.
Proof. intros Hne. unfold load_byte, store_byte. simpl. by rewrite lookup_insert_ne. Qed.

Lemma mem_size_store_bytes m a bs : mem_size (store_bytes m a bs) = mem_size m.
Proof. induction bs as [|b bs IH] in m, a |- *; simpl; [done|]. by rewrite IH. Qed.

Lemma load_bytes_store_byte_out m a b a' n :
  (a < a' \/ a' + Z.of_nat n <= a) ->
  load_bytes (store_byte m a b) a' n = load_bytes m a' n.
Proof.
  induction n as [|n IH] in a' |- *; intros Hout; simpl; [done|].
  rewrite load_store_byte_ne by lia. rewrite IH by lia. done.
Qed.

Lemma load_byte_store_bytes_out m a bs a' :
  (a' < a \/ a + Z.of_nat (length bs) <= a') -> load_byte (store_bytes m a bs) a' = load_byte m a'.
Proof.
  induction bs as [|b bs IH] in m, a |- *; intros Hout; simpl in *; [done|].
  rewrite IH by lia. apply load_store_byte_ne. lia.
Qed.

(** Stores outside a range leave its bytes alone. *)
Lemma load_bytes_store_bytes_out m a bs a' n :
  (a + Z.of_nat (length bs) <= a' \/ a' + Z.of_nat n <= a) ->
  load_bytes (store_bytes m a bs) a' n = load_bytes m a' n.
Proof.
  induction bs as [|b bs IH] in m, a |- *; intros Hout; simpl in *; [done|].
  rewrite IH by lia. apply load_bytes_store_byte_out. lia.
Qed.

(** Reading back what was stored. *)
Lemma load_bytes_store_bytes_eq m a bs : load_bytes (store_bytes m a bs) a (length bs) = bs.
Proof.
  induction bs as [|b bs IH] in m, a |- *; simpl; [done|]. f_equal; [|apply IH].
  rewrite load_byte_store_bytes_out by lia. apply load_store_byte_eq.
Qed.

Lemma load_u32_store_u32 m a v : 0 <= v < 2 ^ 32 -> load_u32 (store_u32 m a v) a = v.
Proof.
  intros Hv. unfold load_u32, store_u32.
  rewrite <- (length_le_split 4 v) at 2. rewrite load_bytes_store_bytes_eq, le_value_split.
  apply Z.mod_small. simpl. lia.
Qed.

Lemma load_u32_store_bytes_out m a bs a' :
  (a + Z.of_nat (length bs) <= a' \/ a' + 4 <= a) ->
  load_u32 (store_bytes m a bs) a' = load_u32 m a'.
Proof. intros H. unfold load_u32. by rewrite load_bytes_store_bytes_out. Qed.

Lemma mem_size_store_u32 m a v : mem_size (store_u32 m a v) = mem_size m.
Proof. apply mem_size_store_bytes. Qed.

Lemma length_load_bytes m a n : length (load_bytes m a n) = n.
Proof. induction n in a |- *; simpl; auto. Qed.

#[export] Hint Rewrite load_store_byte_eq mem_size_store_bytes load_bytes_store_bytes_eq
  length_le_split length_load_bytes mem_size_store_u32 : host_rw.
