(* ===== verification/Utf8.v ===== *)
(** * UTF-8: the validity check and the encoding it accepts

    [utf8_valid] (Abi.v) is the byte-range table of RFC 3629 that the
    canonical ABI's string lifting (and [String::from_utf8]) applies.
    This file defines the encoding of a Unicode scalar value (a code
    point in [0, 0x10FFFF] that is not a surrogate), [encode_scalar], and
    proves that the table accepts exactly the encodings of lists of
    scalar values ([utf8_valid_iff]): no overlong form, no surrogate,
    nothing above U+10FFFF, and no truncated sequence passes. *)

From S2P Require Import Prelude Abi.

Local Open Scope Z_scope.

Definition scalar (c : Z) : Prop := 0 <= c <= 1114111 /\ ~ (55296 <= c <= 57343).

#[export] Instance scalar_dec c : Decision (scalar c).
Proof. unfold scalar. apply _. Defined.

Definition encode_scalar (c : Z) : list Byte.byte :=
  if c <? 128 then [byte_of_Z c]
  else if c <? 2048 then [byte_of_Z (192 + c / 64); byte_of_Z (128 + c mod 64)]
  else if c <? 65536 then
    [byte_of_Z (224 + c / 4096); byte_of_Z (128 + (c / 64) mod 64); byte_of_Z (128 + c mod 64)]
  else
    [byte_of_Z (240 + c / 262144); byte_of_Z (128 + (c / 4096) mod 64);
     byte_of_Z (128 + (c / 64) mod 64); byte_of_Z (128 + c mod 64)].

Definition utf8_encode (cs : list Z) : list Byte.byte := flat_map encode_scalar cs.

(** ** Bytes as integers *)

Lemma byte_of_Z_of_byte b : byte_of_Z (Z_of_byte b) = b.
Proof.
  unfold byte_of_Z, Z_of_byte. pose proof (Byte.to_N_bounded b).
  change 255 with (Z.ones 8). rewrite Z.land_ones by lia.
  rewrite Z.mod_small by (change (2 ^ 8) with 256; lia).
  by rewrite N2Z.id, Byte.of_to_N.
Qed.

Lemma byte_of_Z_eq z b : z = Z_of_byte b -> byte_of_Z z = b.
Proof. intros ->. apply byte_of_Z_of_byte. Qed.

Lemma Z_of_byte_of_Z_small z : 0 <= z < 256 -> Z_of_byte (byte_of_Z z) = z.
Proof. intros. rewrite Z_of_byte_of_Z. by apply Z.mod_small. Qed.

(** Turn the boolean range checks of a hypothesis into arithmetic. *)
Local Ltac Z_hyps :=
  repeat match goal with
  | H : (_ && _) = true |- _ => apply andb_true_iff in H as [? ?]
  | H : (_ <=? _) = true |- _ => apply Z.leb_le in H
  | H : (_ <? _) = true |- _ => apply Z.ltb_lt in H
  | H : context [if (?a =? ?b) then _ else _] |- _ => destruct (Z.eqb_spec a b)
  end.

Local Ltac bytes_range :=
  repeat match goal with
  | b : Byte.byte |- _ =>
      lazymatch goal with
      | _ : 0 <= Z_of_byte b < 256 |- _ => fail
      | _ => pose proof (Z_of_byte_range b)
      end
  end.

(** One step of [utf8_valid], without unfolding the recursive calls. *)
Lemma utf8_valid_cons b1 r1 :
  utf8_valid (b1 :: r1) =
    if Z_of_byte b1 <? 128 then utf8_valid r1
    else if byte_in 194 223 b1 then
      match r1 with b2 :: r2 => byte_in 128 191 b2 && utf8_valid r2 | [] => false end
    else if byte_in 224 239 b1 then
      match r1 with
      | b2 :: b3 :: r3 => second_ok (Z_of_byte b1) b2 && byte_in 128 191 b3 && utf8_valid r3
      | _ => false
      end
    else if byte_in 240 244 b1 then
      match r1 with
      | b2 :: b3 :: b4 :: r4 =>
          second_ok (Z_of_byte b1) b2 && byte_in 128 191 b3 && byte_in 128 191 b4 && utf8_valid r4
      | _ => false
      end
    else false.
Proof. done. Qed.

(** ** Encoding is valid *)

Lemma split64 x : x = 64 * (x / 64) + x mod 64 /\ 0 <= x mod 64 < 64.
Proof. split; [apply Z.div_mod; lia|apply Z.mod_pos_bound; lia]. Qed.

(** Decide the checks of [utf8_valid] on bytes given by their values. *)
Local Ltac valid_bytes :=
  cbn [app]; rewrite utf8_valid_cons; unfold second_ok, byte_in; rewrite ?Z_of_byte_of_Z_small by lia;
  repeat match goal with |- context [Z.eqb ?a ?b] => destruct (Z.eqb_spec a b) end;
  Z_cond_simpl; first [done | exfalso; lia].

Lemma utf8_valid_encode_scalar c rest :
  scalar c -> utf8_valid (encode_scalar c ++ rest) = utf8_valid rest.
Proof.
  intros Hc. unfold scalar in Hc. unfold encode_scalar.
  replace (c / 4096) with (c / 64 / 64) by (rewrite Z.div_div by lia; reflexivity).
  replace (c / 262144) with (c / 64 / 64 / 64) by (rewrite !Z.div_div by lia; reflexivity).
  pose proof (split64 c) as [E0 R0]. pose proof (split64 (c / 64)) as [E1 R1].
  pose proof (split64 (c / 64 / 64)) as [E2 R2].
  set (r0 := c mod 64) in *. set (q0 := c / 64) in *. set (r1 := q0 mod 64) in *.
  set (q1 := q0 / 64) in *. set (r2 := q1 mod 64) in *. set (q2 := q1 / 64) in *.
  clearbody r0 q0 r1 q1 r2 q2.
  destruct (Z.ltb_spec c 128); [|destruct (Z.ltb_spec c 2048); [|destruct (Z.ltb_spec c 65536)]].
  - assert (Hq : 0 <= c < 128) by lia. clear - Hq. valid_bytes.
  - assert (Hq : 2 <= q0 <= 31) by lia. clear - Hq R0. valid_bytes.
  - assert ((q1 = 0 /\ 32 <= r1) \/ (q1 = 13 /\ r1 < 32) \/ (1 <= q1 <= 15 /\ q1 <> 13))
      as [[-> Hr]|[[-> Hr]|[Hq Hr]]] by lia; [clear - Hr R0 R1..|clear - Hq Hr R0 R1]; valid_bytes.
  - assert ((q2 = 0 /\ 16 <= r2) \/ q2 = 1 \/ q2 = 2 \/ q2 = 3 \/ (q2 = 4 /\ r2 <= 15))
      as [[-> Hr]|[->|[->|[->|[-> Hr]]]]] by lia; [clear - Hr R0 R1 R2|clear - R0 R1 R2..|clear - Hr R0 R1 R2];
      valid_bytes.
Qed.

Lemma utf8_valid_encode cs : Forall scalar cs -> utf8_valid (utf8_encode cs) = true.
Proof.
  induction 1 as [|c cs Hc _ IH]; [done|]. unfold utf8_encode. cbn [flat_map].
  by rewrite utf8_valid_encode_scalar.
Qed.

(** ** Valid bytes decode *)

Local Ltac decode_with c :=
  first
    [ exfalso; lia
    | exists c; split; [unfold scalar; lia|];
      unfold encode_scalar; Z_cond_simpl; repeat f_equal; apply byte_of_Z_eq;
      Z.to_euclidean_division_equations; lia ].

Lemma decode1 b1 : Z_of_byte b1 < 128 -> exists c, scalar c /\ encode_scalar c = [b1].
Proof. intros. bytes_range. decode_with (Z_of_byte b1). Qed.

Lemma decode2 b1 b2 :
  byte_in 194 223 b1 = true -> byte_in 128 191 b2 = true ->
  exists c, scalar c /\ encode_scalar c = [b1; b2].
Proof.
  unfold byte_in. intros. Z_hyps. bytes_range.
  decode_with ((Z_of_byte b1 - 192) * 64 + (Z_of_byte b2 - 128)).
Qed.

Lemma decode3 b1 b2 b3 :
  byte_in 224 239 b1 = true -> second_ok (Z_of_byte b1) b2 = true -> byte_in 128 191 b3 = true ->
  exists c, scalar c /\ encode_scalar c = [b1; b2; b3].
Proof.
  unfold second_ok, byte_in. intros. Z_hyps; bytes_range;
    decode_with ((Z_of_byte b1 - 224) * 4096 + (Z_of_byte b2 - 128) * 64 + (Z_of_byte b3 - 128)).
Qed.

Lemma decode4 b1 b2 b3 b4 :
  byte_in 240 244 b1 = true -> second_ok (Z_of_byte b1) b2 = true ->
  byte_in 128 191 b3 = true -> byte_in 128 191 b4 = true ->
  exists c, scalar c /\ encode_scalar c = [b1; b2; b3; b4].
Proof.
  unfold second_ok, byte_in. intros. Z_hyps; bytes_range;
    decode_with ((Z_of_byte b1 - 240) * 262144 + (Z_of_byte b2 - 128) * 4096
                 + (Z_of_byte b3 - 128) * 64 + (Z_of_byte b4 - 128)).
Qed.

Lemma utf8_encode_cons_app c cs bs rest :
  encode_scalar c = bs -> utf8_encode cs = rest -> utf8_encode (c :: cs) = bs ++ rest.
Proof. intros <- <-. done. Qed.

Lemma utf8_valid_decode bs : utf8_valid bs = true -> exists cs, Forall scalar cs /\ utf8_encode cs = bs.
Proof.
  remember (length bs) as n eqn:Hn. revert bs Hn.
  induction n as [n IH] using lt_wf_ind. intros [|b1 r] Hn Hv; [by exists []|].
  rewrite utf8_valid_cons in Hv.
  assert (Hrec : forall pre rest, r = pre ++ rest -> utf8_valid rest = true ->
            exists cs, Forall scalar cs /\ utf8_encode cs = rest).
  { intros pre rest -> Hr. apply (IH (length rest)); [|done|done].
    subst n. rewrite length_cons, length_app. lia. }
  destruct (Z.ltb_spec (Z_of_byte b1) 128) as [Hlt|Hge].
  { destruct (decode1 b1 Hlt) as (c & Hc & He). destruct (Hrec [] r eq_refl Hv) as (cs & Hcs & Hr).
    exists (c :: cs). split; [by constructor|]. by rewrite (utf8_encode_cons_app _ _ _ _ He Hr). }
  destruct (byte_in 194 223 b1) eqn:H2.
  { destruct r as [|b2 r2]; [done|]. apply andb_true_iff in Hv as [Hb2 Hv].
    destruct (decode2 b1 b2 H2 Hb2) as (c & Hc & He). destruct (Hrec [b2] r2 eq_refl Hv) as (cs & Hcs & Hr).
    exists (c :: cs). split; [by constructor|]. by rewrite (utf8_encode_cons_app _ _ _ _ He Hr). }
  destruct (byte_in 224 239 b1) eqn:H3.
  { destruct r as [|b2 [|b3 r3]]; try done. apply andb_true_iff in Hv as [[Hb2 Hb3]%andb_true_iff Hv].
    destruct (decode3 b1 b2 b3 H3 Hb2 Hb3) as (c & Hc & He).
    destruct (Hrec [b2; b3] r3 eq_refl Hv) as (cs & Hcs & Hr).
    exists (c :: cs). split; [by constructor|]. by rewrite (utf8_encode_cons_app _ _ _ _ He Hr). }
  destruct (byte_in 240 244 b1) eqn:H4; [|done].
  destruct r as [|b2 [|b3 [|b4 r4]]]; try done.
  apply andb_true_iff in Hv as [[[Hb2 Hb3]%andb_true_iff Hb4]%andb_true_iff Hv].
  destruct (decode4 b1 b2 b3 b4 H4 Hb2 Hb3 Hb4) as (c & Hc & He).
  destruct (Hrec [b2; b3; b4] r4 eq_refl Hv) as (cs & Hcs & Hr).
  exists (c :: cs). split; [by constructor|]. by rewrite (utf8_encode_cons_app _ _ _ _ He Hr).
Qed.

(** The table accepts exactly the UTF-8 encodings of scalar values. *)
Lemma utf8_valid_iff bs : utf8_valid bs = true <-> exists cs, Forall scalar cs /\ utf8_encode cs = bs.
Proof.
  split; [apply utf8_valid_decode|]. intros (cs & Hcs & <-). by apply utf8_valid_encode.
Qed.
