(* ===== verification/GuestAlloc.v ===== *)
(** * The guest's global allocator

    The wit-bindgen glue of the guest asks Rust's global allocator for
    the blocks the canonical ABI needs: [cabi_realloc] calls
    [alloc::alloc] and traps ([unreachable]) when it returns null, and
    [cabi_dealloc] calls [alloc::dealloc].  In a [wasm32-wasip1] build
    that allocator is wasi-libc's [malloc] (dlmalloc), a library the
    sources only call.  This file states what the call of [handleevent]
    relies on, as the class [GlobalAlloc] of its operations and the
    class [GlobalAllocLaws] of their laws:
    - the allocator owns no byte below [ga_base] (the guest's static
      data, where the glue's return area lies) and none of a block it
      handed out and has not taken back ([ga_live]); writes to those
      bytes keep its invariant [ga_wf], which may speak of all the other
      bytes of memory (dlmalloc keeps its chunk headers and free lists
      there);
    - [alloc] of [size > 0] bytes returns a block above [ga_base], in
      memory, not live before and live after; memory only grows, by at
      most [size + ga_overhead] bytes;
    - [alloc] returns null only when memory cannot grow by
      [size + ga_overhead] bytes within the 4 GiB of wasm32;
    - [dealloc] of a live block makes it not live, and never changes the
      size of memory (wasm memory never shrinks, and [free] never grows
      it).
    Freed blocks may be reused: nothing here says where a new block
    lies beyond that.

    [Bump] implements the interface with a bump allocator that never
    reuses a block (the simplest allocator the laws admit, used to run
    the theorems of AbiCall.v on concrete states). *)

From S2P Require Import Prelude Abi.

Local Open Scope Z_scope.

(** A byte of a live block. *)
Definition in_block (live : gmap Z Z) (q : Z) : Prop :=
  exists p n, live !! p = Some n /\ p <= q < p + n.

Class GlobalAlloc (A : Type) := {
  ga_alloc : A -> memory -> Z -> Z -> option (Z * A * memory);   (* align, size *)
  ga_dealloc : A -> memory -> Z -> Z -> Z -> A * memory;          (* ptr, size, align *)
  ga_live : A -> gmap Z Z;
  ga_wf : A -> memory -> Prop;
  ga_base : Z;
  ga_overhead : Z
}.

Class GlobalAllocLaws (A : Type) `{GlobalAlloc A} := {
  base_nonneg : 0 <= ga_base;
  overhead_nonneg : 0 <= ga_overhead;
  wf_mem a m : ga_wf a m -> ga_base <= mem_size m <= max_pages * page_size;
  alloc_spec a m size p a' m' :
    ga_wf a m -> 0 < size -> ga_alloc a m 1 size = Some (p, a', m') ->
    ga_wf a' m' /\ ga_base <= p /\ p + size <= mem_size m' /\ ga_live a !! p = None
    /\ ga_live a' = <[p := size]> (ga_live a)
    /\ mem_size m <= mem_size m' <= mem_size m + size + ga_overhead;
  alloc_progress a m size :
    ga_wf a m -> 0 < size -> mem_size m + size + ga_overhead <= max_pages * page_size ->
    is_Some (ga_alloc a m 1 size);
  dealloc_spec a m p size align :
    ga_wf a m -> ga_live a !! p = Some size ->
    ga_wf (ga_dealloc a m p size align).1 (ga_dealloc a m p size align).2
    /\ ga_live (ga_dealloc a m p size align).1 = delete p (ga_live a);
  dealloc_size a m p size align : mem_size (ga_dealloc a m p size align).2 = mem_size m;
  store_wf a m addr bs :
    ga_wf a m ->
    (forall q, addr <= q < addr + Z.of_nat (length bs) -> q < ga_base \/ in_block (ga_live a) q) ->
    ga_wf a (store_bytes m addr bs)
}.

(** ** A bump allocator *)

Module Bump.

Record state := { heap : Z; live : gmap Z Z }.

(** The end of the static data. *)
Definition base : Z := 16.

Definition align_up (a align : Z) : Z := (a + align - 1) / align * align.

Definition alloc (st : state) (m : memory) (align size : Z) : option (Z * state * memory) :=
  let ptr := align_up (heap st) align in
  let top := ptr + size in
  let grown := if top <=? mem_size m then Some m
               else mem_grow m ((top - mem_size m + page_size - 1) / page_size) in
  match grown with
  | None => None
  | Some m' => Some (ptr, {| heap := top; live := <[ptr := size]> (live st) |}, m')
  end.

Definition dealloc (st : state) (m : memory) (ptr size align : Z) : state * memory :=
  ({| heap := heap st; live := delete ptr (live st) |}, m).

(** The heap lies in memory above the static data, memory is whole pages
    within 4 GiB, and the live blocks are non-empty and below the heap. *)
Definition wf (st : state) (m : memory) : Prop :=
  base <= heap st <= mem_size m /\ mem_size m mod page_size = 0 /\ mem_size m <= max_pages * page_size
  /\ forall p n, live st !! p = Some n -> base <= p /\ 0 < n /\ p + n <= heap st.

#[export] Instance bump_alloc : GlobalAlloc state := {|
  ga_alloc := alloc; ga_dealloc := dealloc; ga_live := live; ga_wf := wf;
  ga_base := base; ga_overhead := page_size
|}.

Lemma align_up_1 a : align_up a 1 = a.
Proof. unfold align_up. rewrite Z.div_1_r. lia. Qed.

(** Growing memory to [top] within 4 GiB succeeds, by whole pages, and
    by less than a page more than needed. *)
Lemma grow_to m top :
  mem_size m mod page_size = 0 -> mem_size m <= max_pages * page_size ->
  mem_size m < top <= max_pages * page_size ->
  exists m', mem_grow m ((top - mem_size m + page_size - 1) / page_size) = Some m'
    /\ top <= mem_size m' < top + page_size /\ mem_size m' mod page_size = 0
    /\ mem_size m' <= max_pages * page_size.
Proof.
  intros Hp Hmx Htop. unfold mem_grow, page_size, max_pages in *.
  set (k := mem_size m) in *. set (d := top - k) in *.
  pose proof (Z.div_mod (d + 65536 - 1) 65536 ltac:(lia)) as Hdm.
  pose proof (Z.mod_pos_bound (d + 65536 - 1) 65536 ltac:(lia)) as Hmod.
  pose proof (Z.div_mod k 65536 ltac:(lia)) as Hk.
  set (pages := (d + 65536 - 1) / 65536) in *.
  rewrite (proj2 (Z.leb_le 0 pages)) by lia.
  rewrite (proj2 (Z.leb_le (k / 65536 + pages) 65536)) by lia.
  eexists. split; [reflexivity|]. simpl. split_and!; [lia|lia| |lia].
  rewrite Z.mod_add by lia. assumption.
Qed.

Lemma grow_fail m top :
  mem_size m mod page_size = 0 -> mem_size m < top -> max_pages * page_size < top ->
  mem_grow m ((top - mem_size m + page_size - 1) / page_size) = None.
Proof.
  intros Hp Hlt Htop. unfold mem_grow, page_size, max_pages in *.
  set (k := mem_size m) in *.
  pose proof (Z.div_mod (top - k + 65536 - 1) 65536 ltac:(lia)).
  pose proof (Z.mod_pos_bound (top - k + 65536 - 1) 65536 ltac:(lia)).
  pose proof (Z.div_mod k 65536 ltac:(lia)).
  Z_cond_simpl. done.
Qed.

#[export] Instance bump_laws : GlobalAllocLaws state.
Proof.
  split; cbn [ga_alloc ga_dealloc ga_live ga_wf ga_base ga_overhead bump_alloc].
  - unfold base. lia.
  - unfold page_size. lia.
  - intros a m (Hh & _ & Hmx & _). lia.
  - intros a m size p a' m' (Hh & Hp & Hmx & Hl) Hsize. unfold alloc. rewrite align_up_1.
    destruct (Z.leb_spec (heap a + size) (mem_size m)) as [Hfit|Hfit].
    + intros [= <- <- <-]. unfold wf, page_size in *. cbn [heap live]. split_and!; try lia; [| |done].
      * intros q n [[<- <-]|[Hq Hn]]%lookup_insert_Some; [lia|]. apply Hl in Hn. lia.
      * destruct (live a !! heap a) as [n|] eqn:Hn; [|done]. apply Hl in Hn. lia.
    + destruct (Z_le_gt_dec (heap a + size) (max_pages * page_size)) as [Hmax|Hmax].
      * destruct (grow_to m (heap a + size) Hp Hmx ltac:(lia)) as (m1 & -> & Hm1 & Hp1 & Hmx1).
        intros [= <- <- <-]. unfold wf, page_size in *. cbn [heap live]. split_and!; try lia; [| |done].
        -- intros q n [[<- <-]|[Hq Hn]]%lookup_insert_Some; [lia|]. apply Hl in Hn. lia.
        -- destruct (live a !! heap a) as [n|] eqn:Hn; [|done]. apply Hl in Hn. lia.
      * by rewrite grow_fail by lia.
  - intros a m size (Hh & Hp & Hmx & Hl) Hsize Hroom. unfold alloc. rewrite align_up_1.
    destruct (Z.leb_spec (heap a + size) (mem_size m)); [by eexists|].
    destruct (grow_to m (heap a + size) Hp Hmx ltac:(unfold page_size in *; lia)) as (m1 & -> & _).
    by eexists.
  - intros a m p size align (Hh & Hp & Hmx & Hl) _. unfold dealloc, wf. cbn [heap live fst snd].
    split_and!; try done; try lia. intros q n [_ Hn]%lookup_delete_Some. by apply Hl.
  - done.
  - intros a m addr bs (Hh & Hp & Hmx & Hl) _. unfold wf. rewrite mem_size_store_bytes. done.
Qed.

End Bump.

#[export] Existing Instances Bump.bump_alloc Bump.bump_laws.
