(* ===== verification/Runtime.v ===== *)
(** * The contract of the component runtime (wasmtime, as main.rs uses it)

    The runner calls wasmtime and wasmtime-wasi, libraries outside the
    repository.  This file states what they promise, from the spec
    (sections 3, 4 and 7): first as pure functions on the spec's data
    model ([spec_from_file], [spec_deserialize_file], [define_all],
    [spec_instantiate], [spec_call]), then as the interface [Runtime] of
    the operations main.rs calls, with the laws [RuntimeLaws] that tie
    each operation to its specification.  Main.rs is verified against
    this interface (Host.v); RefRuntime.v implements it.

    - Loading (spec 4.1): a module file is validated and compiled; a
      precompiled image is accepted when its producer matches the
      engine, and its content is trusted without re-validation.
    - Linking (4.2): [add_to_linker_sync] defines the WASI bundle, one
      interface at a time, in a [NameMap]; defining a name twice fails.
    - Instantiation (4.3, 9): imports are resolved in declaration order,
      failing at the first unresolved one; each is looked up in the
      linker's [NameMap] (the exact name, else, as wasmtime does and the
      spec does not say, the latest semver-compatible version) and its
      functions' signatures are compared;
      the generated [HandlerWorld::instantiate] then looks the export
      [test:test/handler-interface#handleevent] up by name, runs the
      guest's start code, and only after it type-checks the export
      ([get_typed_func] in the bindings' [load]): a mistyped export is
      an error of instantiation, as spec 3 and 9 say, but a trapping
      start code is reported first.
    - Calls (4.4): the request is lowered, the guest runs on the
      store's [MyState] -- each WASI function it calls runs there
      through [ctx()] ([guest_exec]), its writes reaching the process --
      and its result is lifted; a trap ends the call, and the instance
      refuses every later call.  A call is a [Proc]: the lines it writes
      and its result with the state it leaves, or a panic of the host. *)

From S2P Require Import Prelude Process Wasi WasiHost Canon Wit NameMap.

Local Open Scope string_scope.
Local Open Scope proc_scope.

(** ** The data model *)

(** The functions an imported or defined interface carries, by name, with
    their WIT signatures (as text: the flat WIT types of Wit.v do not
    cover WASI's resources). *)
Abbreviation iface_sig := (list (string * string)).

Record Artifact := {
  art_imports : list (string * iface_sig);
  art_start_trap : option string;          (* the start code traps with this reason *)
  art_exports : list (string * list (string * guest_func))
}.

Inductive module_bytes :=
| MalformedBytes
| ModuleBytes (a : Artifact) (compiles : bool).

(** What a path of the file system holds. *)
Inductive file :=
| WasmFile (m : module_bytes)
| CwasmFile (producer : string) (a : Artifact)
| OtherFile.

Abbreviation FileSystem := (gmap string file).

Inductive load_error := NotFound | Malformed | CompileFailure | DeserializeFailure.

(** The error taxonomy of spec 7, stage by stage. *)
Inductive host_error :=
| LoadError (e : load_error)
| DefinedTwice (name : string)
| UnresolvedImport (name : string)
| ExportNotFound (name : string)
| SignatureMismatch (name : string)
| StartTrap (reason : string)
| Trap (reason : string)
| CannotEnter.

#[export] Instance load_error_eq_dec : EqDecision load_error.
Proof. solve_decision. Defined.
#[export] Instance host_error_eq_dec : EqDecision host_error.
Proof. solve_decision. Defined.

Definition show_load_error (e : load_error) : string :=
  match e with
  | NotFound => "NotFound"
  | Malformed => "Malformed"
  | CompileFailure => "CompileFailure"
  | DeserializeFailure => "DeserializeFailure"
  end.

(** The rendering of errors in the panic messages of [expect]. *)
#[export] Instance host_error_debug : Debug host_error := fun e =>
  match e with
  | LoadError l => "LoadError(" +:+ show_load_error l +:+ ")"
  | DefinedTwice n => "DefinedTwice(" +:+ n +:+ ")"
  | UnresolvedImport n => "UnresolvedImport(" +:+ n +:+ ")"
  | ExportNotFound n => "ExportNotFound(" +:+ n +:+ ")"
  | SignatureMismatch n => "SignatureMismatch(" +:+ n +:+ ")"
  | StartTrap r => "StartTrap(" +:+ r +:+ ")"
  | Trap r => "Trap(" +:+ r +:+ ")"
  | CannotEnter => "CannotEnter"
  end.

(** ** Loading (spec 4.1) *)

(** [Component::from_file]: read, validate, compile. *)
Definition spec_from_file (fs : FileSystem) (path : string) : result Artifact host_error :=
  match fs !! path with
  | None => Err (LoadError NotFound)
  | Some (WasmFile (ModuleBytes a true)) => Ok a
  | Some (WasmFile (ModuleBytes _ false)) => Err (LoadError CompileFailure)
  | Some (WasmFile MalformedBytes) | Some (CwasmFile _ _) | Some OtherFile =>
      Err (LoadError Malformed)
  end.

(** [unsafe Component::deserialize_file]: accept an image of a compatible
    producer and trust its content. *)
Definition spec_deserialize_file (version : string) (fs : FileSystem) (path : string)
    : result Artifact host_error :=
  match fs !! path with
  | None => Err (LoadError NotFound)
  | Some (CwasmFile producer a) =>
      if String.eqb producer version then Ok a else Err (LoadError DeserializeFailure)
  | Some _ => Err (LoadError DeserializeFailure)
  end.

(** ** Linking (spec 4.2) *)

(** [Linker::instance(name)] followed by its definitions. *)
Definition define (defs : NameMap iface_sig) (name : string) (sig : iface_sig)
    : result (NameMap iface_sig) host_error :=
  match nm_defs defs !! name with
  | Some _ => Err (DefinedTwice name)
  | None => Ok (nm_insert defs name sig)
  end.

Fixpoint define_all (bundle : list (string * iface_sig)) (defs : NameMap iface_sig)
    : result (NameMap iface_sig) host_error :=
  match bundle with
  | [] => Ok defs
  | (name, sig) :: rest => defs' <-? define defs name sig ;; define_all rest defs'
  end%result.

(** ** Instantiation (spec 4.3) *)

(** An import is satisfied when the linker's lookup of its name
    ([NameMap::get]: the exact name, else the latest semver-compatible
    version) finds a definition with every function it needs, with the
    same signature. *)
Definition import_satisfied (defs : NameMap iface_sig) (imp : string * iface_sig) : bool :=
  match nm_get defs imp.1 with
  | None => false
  | Some provided =>
      forallb (fun f => bool_decide (assoc_lookup f.1 provided = Some f.2)) imp.2
  end.

(** Fail-fast resolution, in declaration order. *)
Fixpoint resolve_imports (imps : list (string * iface_sig)) (defs : NameMap iface_sig)
    : result unit host_error :=
  match imps with
  | [] => Ok tt
  | imp :: rest =>
      if import_satisfied defs imp then resolve_imports rest defs
      else Err (UnresolvedImport imp.1)
  end.

(** [HandlerWorldPre::new] (bindgen's [GuestIndices::new]): the export
    [test:test/handler-interface#handleevent] is looked up by name in
    the component, before anything runs. *)
Definition lookup_export (a : Artifact) : result guest_func host_error :=
  match assoc_lookup handler_interface_name (art_exports a) with
  | None => Err (ExportNotFound handler_interface_name)
  | Some funcs =>
      match assoc_lookup handleevent_name funcs with
      | None => Err (ExportNotFound handleevent_name)
      | Some g => Ok g
      end
  end.

(** [GuestIndices::load]: [get_typed_func::<(Request,), (Request,)>]
    checks the export's type against the one the bindings expect. *)
Definition typecheck_export (g : guest_func) : result guest_func host_error :=
  if decide (gf_type g = handleevent_ty) then Ok g
  else Err (SignatureMismatch handleevent_name).

(** [HandlerWorld::instantiate]: [linker.instantiate_pre] resolves the
    imports, [HandlerWorldPre::new] looks the export up, then
    [instance_pre.instantiate] runs the start code, and only then does
    [load] type-check the export. *)
Definition spec_instantiate (a : Artifact) (defs : NameMap iface_sig)
    : result guest_func host_error :=
  (_ <-? resolve_imports (art_imports a) defs ;;
   g <-? lookup_export a ;;
   _ <-? match art_start_trap a with
         | Some reason => Err (StartTrap reason)
         | None => Ok tt
         end ;;
   typecheck_export g)%result.

(** ** Calls (spec 4.4) *)

(** The process's own stdin, as a WASI stream would read it when
    inherited; main.rs's context does not inherit stdin (Wasi.v), so no
    host call of a run reads it. *)
Definition host_input : Z -> list Byte.byte := fun _ => [].

(** The bytes host functions write to inherited streams, as output of
    the process. *)
Definition write_out (outs : list out_event) : list event := (fun o => EvBytes o.1 o.2) <$> outs.

(** The guest code of a call runs on the instance's handle tables and
    the store's [MyState]: each WASI function it calls goes through the
    canonical ABI (Canon.v) to the host function, which runs on [ctx()]
    (WasiHost.v); its writes reach the process, a trap of the lifting or
    of the host function is a trap of the guest, and a panic of the host
    (a corrupt table) is a panic of the process, whose message is not
    modelled. *)
Fixpoint guest_exec (r : guest_result) (hs : handle_tables) (s : MyState)
    : Proc (result (option wit_val) string * (handle_tables * MyState)) :=
  match r with
  | GReturn v => proc_ret (Ok v, (hs, s))
  | GTrap reason => proc_ret (Err reason, (hs, s))
  | GCall c k =>
      match canon_call host_input c hs s with
      | (None, _) => panic "a WASI host function panicked"
      | (Some (Err reason, outs), x) => (write_out outs, inr (Err reason, x))
      | (Some (Ok rep, outs), (hs', s')) => proc_bind (write_out outs, inr tt) (fun _ => guest_exec (k rep) hs' s')
      end
  end.

(** The lifting of what the guest returned. *)
Definition call_result (o : result (option wit_val) string) : result Request host_error :=
  match o with
  | Ok (Some v) =>
      match lift_request v with
      | Some r => Ok r
      | None => Err (Trap "result does not have the declared type")
      end
  | Ok None => Err (Trap "missing result")
  | Err reason => Err (Trap reason)
  end.

(** [call_handleevent] on a live instance bound to [g], with handle
    tables [hs], on the store's state [s]: lower the request, run the
    guest (and the host calls it makes), lift its result. *)
Definition spec_call (g : guest_func) (req : Request) (hs : handle_tables) (s : MyState)
    : Proc (result Request host_error * (handle_tables * MyState)) :=
  p <- guest_exec (gf_body g [lower_request req]) hs s ;;
  proc_ret (call_result p.1, p.2).

(** ** The life cycle of an instance *)

(** A live instance, with its handle tables, runs a call; a trap
    poisons it; a poisoned instance refuses every call (spec 4.4). *)
Inductive inst_status := Live (hs : handle_tables) | Poisoned.

(** One call: from a status and the store's state, the lines the call
    writes, its result, and the status and state after it; a host
    panic ends the process. *)
Definition step_call (g : guest_func) (st : inst_status) (s : MyState) (req : Request)
    : Proc (result Request host_error * (inst_status * MyState)) :=
  match st with
  | Live hs => p <- spec_call g req hs s ;; proc_ret (p.1, (if is_ok p.1 then Live p.2.1 else Poisoned, p.2.2))
  | Poisoned => proc_ret (Err CannotEnter, (Poisoned, s))
  end.

(** ** The interface main.rs uses *)

Class Runtime := {
  rt_engine : Type;
  rt_component : Type;
  rt_linker : Type;
  rt_store : Type;
  rt_instance : Type;
  (** [Engine::default()] *)
  rt_engine_default : rt_engine;
  rt_engine_version : rt_engine -> string;
  (** [Component::from_file], [unsafe Component::deserialize_file] *)
  rt_from_file : rt_engine -> FileSystem -> string -> result rt_component host_error;
  rt_deserialize_file : rt_engine -> FileSystem -> string -> result rt_component host_error;
  rt_artifact : rt_component -> Artifact;
  (** [Linker::new], [wasmtime_wasi::p2::add_to_linker_sync] *)
  rt_linker_new : rt_engine -> rt_linker;
  rt_linker_defs : rt_linker -> NameMap iface_sig;
  rt_wasi_bundle : list (string * iface_sig);
  rt_add_to_linker_sync : rt_linker -> result rt_linker host_error;
  (** [Store::new], [Store::data] *)
  rt_store_new : rt_engine -> MyState -> rt_store;
  rt_store_data : rt_store -> MyState;
  (** [HandlerWorld::instantiate] and [call_handleevent] *)
  rt_instantiate : rt_store -> rt_component -> rt_linker -> result rt_instance host_error * rt_store;
  rt_call_handleevent : rt_instance -> rt_store -> Request -> Proc (result Request host_error * rt_store);
  (** the abstract state of an instance of a store: its bound export and
      its status *)
  rt_instance_state : rt_store -> rt_instance -> option (guest_func * inst_status)
}.

Section Relations.
Context `{Runtime}.

(** Other instances of the store keep their state. *)
Definition others_kept (s s' : rt_store) (i : option rt_instance) : Prop :=
  forall j x, Some j <> i -> rt_instance_state s j = Some x -> rt_instance_state s' j = Some x.

Definition instantiate_rel (s : rt_store) (a : Artifact) (defs : NameMap iface_sig)
    (res : result rt_instance host_error * rt_store) : Prop :=
  match res, spec_instantiate a defs with
  | (Ok i, s'), Ok g =>
      rt_instance_state s i = None /\ rt_instance_state s' i = Some (g, Live tables_empty)
      /\ rt_store_data s' = rt_store_data s /\ others_kept s s' None
  | (Err e, s'), Err e' => e = e' /\ s' = s
  | _, _ => False
  end.

Definition call_rel (s : rt_store) (i : rt_instance) (g : guest_func) (st : inst_status)
    (req : Request) (res : Proc (result Request host_error * rt_store)) : Prop :=
  match step_call g st (rt_store_data s) req with
  | (out, inl t) => res = (out, inl t)
  | (out, inr (r, (st', d'))) =>
      exists s', res = (out, inr (r, s')) /\ rt_instance_state s' i = Some (g, st')
        /\ rt_store_data s' = d' /\ others_kept s s' (Some i)
  end.
End Relations.

Class RuntimeLaws `{Runtime} := {
  from_file_refines e fs p :
    result_map rt_artifact (rt_from_file e fs p) = spec_from_file fs p;
  deserialize_refines e fs p :
    result_map rt_artifact (rt_deserialize_file e fs p)
    = spec_deserialize_file (rt_engine_version e) fs p;
  linker_new_defs e : rt_linker_defs (rt_linker_new e) = nm_empty;
  wasi_bundle_nodup : NoDup rt_wasi_bundle.*1;
  add_to_linker_refines l :
    result_map rt_linker_defs (rt_add_to_linker_sync l) = define_all rt_wasi_bundle (rt_linker_defs l);
  store_new_data e st : rt_store_data (rt_store_new e st) = st;
  instantiate_refines s c l : instantiate_rel s (rt_artifact c) (rt_linker_defs l) (rt_instantiate s c l);
  call_refines s i g st req :
    rt_instance_state s i = Some (g, st) -> call_rel s i g st req (rt_call_handleevent i s req)
}.

(** ** Lemmas on the contract *)

Lemma define_all_fresh (bundle : list (string * iface_sig)) (defs : NameMap iface_sig) :
  NoDup bundle.*1 -> (forall n, n ∈ bundle.*1 -> nm_defs defs !! n = None) ->
  define_all bundle defs = Ok (nm_insert_all bundle defs).
Proof.
  induction bundle as [|[n sig] rest IH] in defs |- *; intros Hnd Hfresh; simpl; [done|].
  apply NoDup_cons in Hnd as [Hn Hnd].
  unfold define. rewrite Hfresh by (simpl; left). simpl.
  apply IH; [done|]. intros m Hm. simpl. rewrite lookup_insert_ne by (intros ->; done).
  apply Hfresh. simpl. by right.
Qed.

(** Defining a name the linker already holds fails, naming it. *)
Lemma define_all_taken (bundle : list (string * iface_sig)) defs n :
  n ∈ bundle.*1 -> is_Some (nm_defs defs !! n) -> exists m, define_all bundle defs = Err (DefinedTwice m).
Proof.
  induction bundle as [|[n' sig] rest IH] in defs |- *; simpl; [by intros ?%elem_of_nil|].
  intros Hin Hsome. unfold define.
  destruct (nm_defs defs !! n') eqn:E; simpl; [eauto|].
  apply elem_of_cons in Hin as [->|Hin]; [destruct Hsome; congruence|].
  apply IH; [done|]. simpl. rewrite lookup_insert_ne; [done|]. intros ->. destruct Hsome; congruence.
Qed.

Lemma resolve_imports_Ok imps defs :
  resolve_imports imps defs = Ok tt <-> Forall (fun i => import_satisfied defs i = true) imps.
Proof.
  induction imps as [|imp rest IH]; simpl; [split; auto|].
  rewrite Forall_cons. destruct (import_satisfied defs imp); [rewrite IH; intuition|].
  split; [done|]. intros [? _]. done.
Qed.

(** Resolution fails exactly at the first unsatisfied import. *)
Lemma resolve_imports_Err imps defs e :
  resolve_imports imps defs = Err e <->
  exists pre imp post, imps = (pre ++ imp :: post)%list
    /\ Forall (fun i => import_satisfied defs i = true) pre
    /\ import_satisfied defs imp = false /\ e = UnresolvedImport imp.1.
Proof.
  induction imps as [|imp rest IH]; simpl.
  - split; [done|]. intros ([|??] & ? & ? & ? & _); simpl in *; congruence.
  - destruct (import_satisfied defs imp) eqn:Hsat.
    + rewrite IH. split.
      * intros (pre & i & post & -> & Hpre & Hi & ->). exists (imp :: pre), i, post.
        repeat split; auto.
      * intros ([|p pre] & i & post & Heq & Hpre & Hi & ->); simpl in Heq; inv_clear Heq.
        { congruence. }
        apply Forall_cons in Hpre as [_ Hpre]. eauto 7.
    + split.
      * intros [= <-]. exists [], imp, rest. auto.
      * intros ([|p pre] & i & post & Heq & Hpre & Hi & ->); simpl in Heq; inv_clear Heq; [done|].
        apply Forall_cons in Hpre as [Hp _]. congruence.
Qed.

Lemma spec_instantiate_Ok a defs g :
  spec_instantiate a defs = Ok g <->
  resolve_imports (art_imports a) defs = Ok tt /\ lookup_export a = Ok g /\ art_start_trap a = None
  /\ gf_type g = handleevent_ty.
Proof.
  unfold spec_instantiate, typecheck_export.
  destruct (resolve_imports _ _) as [[]|e]; simpl; [|split; [done|intros (? & _); done]].
  destruct (lookup_export a) as [g'|e]; simpl; [|split; [done|intros (_ & ? & _); done]].
  destruct (art_start_trap a); simpl; [split; [done|intros (_ & _ & ? & _); done]|].
  case_decide as Hty; split.
  - by intros [= ->].
  - by intros (_ & [= ->] & _).
  - done.
  - by intros (_ & [= ->] & _ & ?).
Qed.

(** The Rust guest calls no host function: its call returns the request
    and leaves the tables and the store's state as they are. *)
Lemma spec_call_rust_guest req hs s : spec_call rust_guest_export req hs s = proc_ret (Ok req, (hs, s)).
Proof. by destruct req. Qed.

(** A guest that traps without calling the host writes nothing. *)
Lemma spec_call_trap g req reason hs s :
  gf_body g [lower_request req] = GTrap reason -> spec_call g req hs s = proc_ret (Err (Trap reason), (hs, s)).
Proof. intros Hb. unfold spec_call. by rewrite Hb. Qed.

(** On well-formed tables and an inert state (every state reachable
    from the fresh tables and [new_state] is one, Canon.v), whatever
    host calls the guest code makes, it writes nothing, no host function
    panics, and the invariant holds after it. *)
Lemma guest_exec_inert r hs s :
  inert_state s -> tables_wf hs ->
  exists o hs' s', guest_exec r hs s = proc_ret (o, (hs', s')) /\ inert_state s' /\ tables_wf hs'.
Proof.
  induction r as [v|reason|c k IH] in hs, s |- *; intros Hs Hhs; [by eexists _, _, _..|].
  destruct (canon_inert host_input c hs s Hs Hhs) as ([rep|reason] & hs1 & s1 & Hc & Hs1 & Hhs1); simpl; rewrite Hc.
  - destruct (IH rep hs1 s1 Hs1 Hhs1) as (o & hs' & s' & -> & Hs' & Hhs'). by eexists _, _, _.
  - by eexists _, _, _.
Qed.

Lemma spec_call_inert g req hs s :
  inert_state s -> tables_wf hs ->
  exists r hs' s', spec_call g req hs s = proc_ret (r, (hs', s')) /\ inert_state s' /\ tables_wf hs'.
Proof.
  intros Hs Hhs. destruct (guest_exec_inert (gf_body g [lower_request req]) hs s Hs Hhs) as (o & hs' & s' & Hg & ?).
  unfold spec_call. rewrite Hg. by eexists _, _, _.
Qed.

Lemma step_call_live g hs s req out r hs' s' :
  spec_call g req hs s = (out, inr (r, (hs', s'))) ->
  step_call g (Live hs) s req = (out, inr (r, (if is_ok r then Live hs' else Poisoned, s'))).
Proof. intros Hc. simpl. rewrite Hc. simpl. by rewrite app_nil_r. Qed.

#[export] Hint Resolve define_all_fresh : host.

(** ** What a client of the interface can rely on *)

Section Client.
Context `{RL : RuntimeLaws}.

Lemma rt_from_file_Ok e fs p a :
  spec_from_file fs p = Ok a -> exists c, rt_from_file e fs p = Ok c /\ rt_artifact c = a.
Proof.
  rewrite <- (from_file_refines e). intros (c & -> & ->)%result_map_Ok. eauto.
Qed.

Lemma rt_from_file_Err e fs p err :
  spec_from_file fs p = Err err -> rt_from_file e fs p = Err err.
Proof. rewrite <- (from_file_refines e). apply result_map_Err. Qed.

Lemma rt_deserialize_Ok e fs p a :
  spec_deserialize_file (rt_engine_version e) fs p = Ok a ->
  exists c, rt_deserialize_file e fs p = Ok c /\ rt_artifact c = a.
Proof.
  rewrite <- deserialize_refines. intros (c & -> & ->)%result_map_Ok. eauto.
Qed.

Lemma rt_deserialize_Err e fs p err :
  spec_deserialize_file (rt_engine_version e) fs p = Err err -> rt_deserialize_file e fs p = Err err.
Proof. rewrite <- deserialize_refines. apply result_map_Err. Qed.

(** On a fresh linker, [add_to_linker_sync] succeeds and defines
    exactly the bundle. *)
Lemma rt_add_to_fresh_linker e :
  exists l, rt_add_to_linker_sync (rt_linker_new e) = Ok l
            /\ rt_linker_defs l = bundle_defs rt_wasi_bundle.
Proof.
  pose proof (add_to_linker_refines (rt_linker_new e)) as Hl.
  rewrite linker_new_defs, define_all_fresh in Hl;
    [| apply wasi_bundle_nodup | intros; apply lookup_empty].
  unfold bundle_defs. apply result_map_Ok in Hl as (l & -> & ->). eauto.
Qed.

Lemma rt_instantiate_Ok s c l g :
  spec_instantiate (rt_artifact c) (rt_linker_defs l) = Ok g ->
  exists i s', rt_instantiate s c l = (Ok i, s')
    /\ rt_instance_state s' i = Some (g, Live tables_empty) /\ rt_store_data s' = rt_store_data s.
Proof.
  intros Hg. pose proof (instantiate_refines s c l) as Hrel. unfold instantiate_rel in Hrel.
  rewrite Hg in Hrel. destruct (rt_instantiate s c l) as [[i|e] s'];
    [|done]. destruct Hrel as (_ & ? & ? & _). eauto.
Qed.

Lemma rt_instantiate_Err s c l e :
  spec_instantiate (rt_artifact c) (rt_linker_defs l) = Err e -> rt_instantiate s c l = (Err e, s).
Proof.
  intros He. pose proof (instantiate_refines s c l) as Hrel. unfold instantiate_rel in Hrel.
  rewrite He in Hrel. destruct (rt_instantiate s c l) as [[i|e'] s']; [done|].
  by destruct Hrel as [-> ->].
Qed.

(** A call that the life cycle takes to a state returns it in a store
    holding that state; one the host ends stops the process. *)
Lemma rt_call_step s i g st req out r st' d' :
  rt_instance_state s i = Some (g, st) ->
  step_call g st (rt_store_data s) req = (out, inr (r, (st', d'))) ->
  exists s', rt_call_handleevent i s req = (out, inr (r, s'))
    /\ rt_instance_state s' i = Some (g, st') /\ rt_store_data s' = d'.
Proof.
  intros Hi Hs. pose proof (call_refines s i g st req Hi) as Hrel. unfold call_rel in Hrel.
  rewrite Hs in Hrel. destruct Hrel as (s' & -> & ? & ? & _). eauto.
Qed.

Lemma rt_call_stop s i g st req out t :
  rt_instance_state s i = Some (g, st) ->
  step_call g st (rt_store_data s) req = (out, inl t) -> rt_call_handleevent i s req = (out, inl t).
Proof.
  intros Hi Hs. pose proof (call_refines s i g st req Hi) as Hrel. unfold call_rel in Hrel.
  by rewrite Hs in Hrel.
Qed.

End Client.
