(* ===== verification/AbiCall.v ===== *)
(** * The call of [handleevent] at the level of the guest's memory

    One call of [call_handleevent] (main.rs 84) as the canonical ABI
    runs it against the wasm32 Rust guest:
    - wasmtime lowers the request's [uri]: it asks the guest's
      [cabi_realloc] for [len] bytes, checks the block lies in memory,
      and copies the UTF-8 bytes there; the flat arguments are the
      pointer and the length;
    - the export glue of bindings.rs ([_export_handleevent_cabi])
      rebuilds the [String] from the raw parts, calls [handleevent]
      (lib.rs 8-12, here on the guest's representation, where returning
      [event] moves the same [String] out), and writes the result's
      pointer and length into its static return area, whose address it
      returns;
    - wasmtime lifts the result: the return pointer must be 4-aligned and
      its 8 bytes in memory, the string's bytes must lie in memory and be
      valid UTF-8, and they are copied into a host [String];
    - then the post-return function of the glue frees the string.
    A trap is an [Err] with its reason.  [cabi_realloc] and
    [cabi_dealloc] are wit-bindgen's, over any global allocator of the
    guest that satisfies the interface of GuestAlloc.v: the theorems hold
    for dlmalloc as for any other allocator with those laws, and the
    witnesses run them on the bump allocator [Bump]. *)

From S2P Require Import Prelude Process Wasi Wit Runtime Abi Utf8 GuestAlloc.

Local Open Scope Z_scope.

Section Abi.
Context {A : Type} `{GA : GlobalAlloc A}.

Record guest_state := {
  gs_mem : memory;
  gs_alloc : A;              (* the state of the guest's global allocator *)
  gs_ret_area : Z            (* the static [_RET_AREA] of bindings.rs: 8 bytes, align 4 *)
}.

Definition set_mem (st : guest_state) (m : memory) : guest_state :=
  {| gs_mem := m; gs_alloc := gs_alloc st; gs_ret_area := gs_ret_area st |}.

(** [cabi_realloc(null, 0, align, size)] of wit-bindgen's runtime: a
    zero-sized request returns the dangling pointer [align] and
    allocates nothing; otherwise [alloc::alloc], and a null pointer is
    the [unreachable] trap. *)
Definition cabi_realloc (st : guest_state) (align size : Z) : result (Z * guest_state) string :=
  if size =? 0 then Ok (align, st)
  else
    match ga_alloc (gs_alloc st) (gs_mem st) align size with
    | None => Err "unreachable"
    | Some (ptr, a', m') => Ok (ptr, {| gs_mem := m'; gs_alloc := a'; gs_ret_area := gs_ret_area st |})
    end.

(** [cabi_dealloc(ptr, size, align)]: nothing for size 0, else
    [alloc::dealloc]. *)
Definition cabi_dealloc (st : guest_state) (ptr size align : Z) : guest_state :=
  if size =? 0 then st
  else
    let '(a', m') := ga_dealloc (gs_alloc st) (gs_mem st) ptr size align in
    {| gs_mem := m'; gs_alloc := a'; gs_ret_area := gs_ret_area st |}.

Definition max_string_byte_length : Z := 2 ^ 31 - 1.

(** The host's lowering of a string argument (UTF-8 to UTF-8). *)
Definition lower_string (st : guest_state) (bs : list Byte.byte) : result (Z * Z * guest_state) string :=
  let len := Z.of_nat (length bs) in
  if max_string_byte_length <? len then Err "string content out-of-bounds"
  else
    match cabi_realloc st 1 len with
    | Err e => Err e
    | Ok (ptr, st1) =>
        if mem_size (gs_mem st1) <? ptr + len then Err "realloc return: beyond end of memory"
        else Ok (ptr, len, set_mem st1 (store_bytes (gs_mem st1) ptr bs))
    end.

(** The guest's [String] ([Vec<u8>] raw parts) and its [Request]. *)
Record RString := { rs_ptr : Z; rs_len : Z; rs_cap : Z }.
Record RRequest := { r_uri : RString }.

(** lib.rs 8-12 on the guest's representation: [event] is moved out. *)
Definition handleevent_repr (event : RRequest) : RRequest := event.

(** [_export_handleevent_cabi] of bindings.rs, around an implementation
    [f] of [Guest::handleevent] that does not allocate. *)
Definition export_handleevent_cabi (f : RRequest -> RRequest) (st : guest_state) (arg0 arg1 : Z)
    : Z * guest_state :=
  let event := {| r_uri := {| rs_ptr := arg0; rs_len := arg1; rs_cap := arg1 |} |} in
  let result := f event in
  let ptr2 := gs_ret_area st in
  let m1 := store_u32 (gs_mem st) (ptr2 + 4) (rs_len (r_uri result)) in
  let m2 := store_u32 m1 ptr2 (rs_ptr (r_uri result)) in
  (ptr2, set_mem st m2).

(** [__post_return_handleevent] of bindings.rs *)
Definition post_return_handleevent (st : guest_state) (arg0 : Z) : guest_state :=
  let l0 := load_u32 (gs_mem st) arg0 in
  let l1 := load_u32 (gs_mem st) (arg0 + 4) in
  cabi_dealloc st l0 l1 1.

(** The host's lifting of the [request] result through the return pointer. *)
Definition lift_result (st : guest_state) (retptr : Z) : result Request string :=
  let m := gs_mem st in
  if negb (retptr mod 4 =? 0) then Err "unaligned pointer"
  else if (retptr <? 0) || (mem_size m <? retptr + 8) then Err "pointer out of bounds of memory"
  else
    let ptr := load_u32 m retptr in
    let len := load_u32 m (retptr + 4) in
    if mem_size m <? ptr + len then Err "string pointer/length out of bounds of memory"
    else
      let bs := load_bytes m ptr (Z.to_nat len) in
      if utf8_valid bs then Ok {| uri := String.string_of_list_byte bs |}
      else Err "invalid utf-8".

(** One call: lower, run the export, lift, post-return. *)
Definition abi_call (f : RRequest -> RRequest) (st : guest_state) (req : Request)
    : result (Request * guest_state) string :=
  match lower_string st (String.list_byte_of_string (uri req)) with
  | Err e => Err e
  | Ok (ptr, len, st1) =>
      let '(retptr, st2) := export_handleevent_cabi f st1 ptr len in
      match lift_result st2 retptr with
      | Err e => Err e
      | Ok resp => Ok (resp, post_return_handleevent st2 retptr)
      end
  end.

(** Calls one after the other on the same instance, stopping at a trap. *)
Fixpoint abi_calls (f : RRequest -> RRequest) (st : guest_state) (reqs : list Request)
    : result (list Request * guest_state) string :=
  match reqs with
  | [] => Ok ([], st)
  | r :: rs =>
      match abi_call f st r with
      | Err e => Err e
      | Ok (resp, st1) =>
          match abi_calls f st1 rs with
          | Err e => Err e
          | Ok (resps, st2) => Ok (resp :: resps, st2)
          end
      end
  end.

Definition uri_bytes (r : Request) : list Byte.byte := String.list_byte_of_string (uri r).
Definition uri_len (r : Request) : Z := Z.of_nat (length (uri_bytes r)).

(** What calls on [reqs] may need of memory: each string, and the
    allocator's overhead. *)
Definition total_cost (reqs : list Request) : Z := foldr Z.add 0 (map (fun r => uri_len r + ga_overhead) reqs).

(** The well-formedness of the guest's state: the return area is an
    aligned part of the static data, and the allocator's invariant
    holds. *)
Record guest_ok (st : guest_state) : Prop := {
  ok_ret_nonneg : 0 <= gs_ret_area st;
  ok_ret_aligned : gs_ret_area st mod 4 = 0;
  ok_ret_static : gs_ret_area st + 8 <= ga_base;
  ok_alloc : ga_wf (gs_alloc st) (gs_mem st)
}.
End Abi.

Section Laws.
Context {A : Type} `{GAL : GlobalAllocLaws A}.
Implicit Types st : guest_state (A := A).

Lemma set_mem_id st : set_mem st (gs_mem st) = st.
Proof. by destruct st. Qed.

Lemma set_mem_set_mem st m m' : set_mem (set_mem st m) m' = set_mem st m'.
Proof. done. Qed.

Lemma guest_ok_mem st : guest_ok st -> gs_ret_area st + 8 <= mem_size (gs_mem st) <= max_pages * page_size.
Proof. intros []. pose proof (wf_mem _ _ ok_alloc0). lia. Qed.

(** Writes to the static data or to live blocks keep the state well
    formed. *)
Lemma guest_ok_store st addr bs :
  guest_ok st ->
  (forall q, addr <= q < addr + Z.of_nat (length bs) -> q < ga_base \/ in_block (ga_live (gs_alloc st)) q) ->
  guest_ok (set_mem st (store_bytes (gs_mem st) addr bs)).
Proof. intros [] Hq. split; simpl; auto. by apply store_wf. Qed.

Lemma guest_ok_store_static st addr v :
  guest_ok st -> 0 <= addr -> addr + 4 <= ga_base -> guest_ok (set_mem st (store_u32 (gs_mem st) addr v)).
Proof. intros Hok ? ?. apply guest_ok_store; [done|]. rewrite length_le_split. intros q ?. left. lia. Qed.

(** ** The allocator *)

(** Where memory can still grow by the block and the allocator's
    overhead, a non-empty block is granted: above the static data, in
    memory, fresh, and live. *)
Lemma cabi_realloc_ok st size :
  guest_ok st -> 0 < size -> mem_size (gs_mem st) + size + ga_overhead <= max_pages * page_size ->
  exists ptr st1, cabi_realloc st 1 size = Ok (ptr, st1) /\ guest_ok st1 /\ gs_ret_area st1 = gs_ret_area st
    /\ ga_base <= ptr /\ ptr + size <= mem_size (gs_mem st1)
    /\ mem_size (gs_mem st1) <= mem_size (gs_mem st) + size + ga_overhead
    /\ ga_live (gs_alloc st) !! ptr = None /\ ga_live (gs_alloc st1) = <[ptr := size]> (ga_live (gs_alloc st)).
Proof.
  intros Hok Hpos Hroom.
  destruct (alloc_progress _ _ size (ok_alloc _ Hok) Hpos Hroom) as [[[ptr a'] m'] Ha].
  destruct (alloc_spec _ _ _ _ _ _ (ok_alloc _ Hok) Hpos Ha) as (Hwf & Hb & Hfit & Hfresh & Hlive & Hsz).
  unfold cabi_realloc. rewrite (proj2 (Z.eqb_neq size 0)) by lia. rewrite Ha.
  eexists _, _. split; [reflexivity|]. destruct Hok. split_and!; simpl; try done; lia.
Qed.

(** Freeing a live non-empty block. *)
Lemma cabi_dealloc_ok st p n :
  guest_ok st -> 0 < n -> ga_live (gs_alloc st) !! p = Some n ->
  guest_ok (cabi_dealloc st p n 1) /\ ga_live (gs_alloc (cabi_dealloc st p n 1)) = delete p (ga_live (gs_alloc st))
  /\ mem_size (gs_mem (cabi_dealloc st p n 1)) = mem_size (gs_mem st).
Proof.
  intros Hok Hn Hp. destruct (dealloc_spec _ _ p n 1 (ok_alloc _ Hok) Hp) as [Hwf Hlive].
  pose proof (dealloc_size (gs_alloc st) (gs_mem st) p n 1) as Hsz.
  unfold cabi_dealloc. rewrite (proj2 (Z.eqb_neq n 0)) by lia.
  destruct (ga_dealloc _ _ _ _ _) as [a' m'] eqn:E. simpl in *. destruct Hok. by split_and!.
Qed.

(** ** Lowering *)

(** A string that fits is copied into a fresh live block (none for the
    empty string): the state stays well formed, the block holds the
    bytes and lies in memory above the return area. *)
Lemma lower_string_ok st bs :
  guest_ok st -> Z.of_nat (length bs) <= max_string_byte_length ->
  mem_size (gs_mem st) + Z.of_nat (length bs) + ga_overhead <= max_pages * page_size ->
  exists ptr st1, lower_string st bs = Ok (ptr, Z.of_nat (length bs), st1)
    /\ guest_ok st1 /\ gs_ret_area st1 = gs_ret_area st
    /\ mem_size (gs_mem st1) <= mem_size (gs_mem st) + Z.of_nat (length bs) + ga_overhead
    /\ load_bytes (gs_mem st1) ptr (length bs) = bs
    /\ 0 <= ptr < 2 ^ 32 /\ ptr + Z.of_nat (length bs) <= mem_size (gs_mem st1)
    /\ (bs = [] \/ gs_ret_area st1 + 8 <= ptr)
    /\ (bs = [] /\ ga_live (gs_alloc st1) = ga_live (gs_alloc st)
        \/ 0 < Z.of_nat (length bs) /\ ga_live (gs_alloc st) !! ptr = None
           /\ ga_live (gs_alloc st1) = <[ptr := Z.of_nat (length bs)]> (ga_live (gs_alloc st))).
Proof.
  intros Hok Hlen Hroom. pose proof (guest_ok_mem st Hok) as Hm. pose proof overhead_nonneg.
  pose proof (ok_ret_nonneg _ Hok). pose proof (ok_ret_static _ Hok).
  unfold lower_string. rewrite (proj2 (Z.ltb_ge _ _)) by done.
  destruct bs as [|b bs'] eqn:Hbs.
  - simpl. rewrite (proj2 (Z.ltb_ge _ _)) by lia. rewrite set_mem_id.
    eexists 1, _. split; [reflexivity|]. split_and!; auto with lia.
  - rewrite <- Hbs in *. assert (Hpos : 0 < Z.of_nat (length bs)) by (subst; simpl; lia).
    destruct (cabi_realloc_ok st _ Hok Hpos ltac:(lia))
      as (ptr & st1 & -> & Hok1 & Hret & Hb & Hfit & Hsz & Hfresh & Hlive).
    simpl. rewrite (proj2 (Z.ltb_ge _ _)) by lia. pose proof (guest_ok_mem st1 Hok1).
    eexists _, _. split; [reflexivity|]. cbn [set_mem gs_mem gs_ret_area gs_alloc].
    rewrite mem_size_store_bytes, load_bytes_store_bytes_eq. split_and!; auto with lia.
    + apply guest_ok_store; [done|]. intros q Hq. right. exists ptr, (Z.of_nat (length bs)).
      rewrite Hlive, lookup_insert_eq. split; [done|lia].
    + unfold page_size, max_pages in *. lia.
Qed.

(** ** The export, lifting and post-return *)

(** After the export has written [ptr] and [len] into the return area,
    lifting reads them back and succeeds exactly when the bytes are
    valid UTF-8; post-return frees the block [ptr]. *)
Lemma export_lift st1 ptr len bs :
  guest_ok st1 -> 0 <= ptr < 2 ^ 32 -> 0 <= len < 2 ^ 32 -> ptr + len <= mem_size (gs_mem st1) ->
  (len = 0 \/ gs_ret_area st1 + 8 <= ptr) -> load_bytes (gs_mem st1) ptr (Z.to_nat len) = bs ->
  let '(retptr, st2) := export_handleevent_cabi handleevent_repr st1 ptr len in
  retptr = gs_ret_area st1 /\ guest_ok st2 /\ gs_alloc st2 = gs_alloc st1
  /\ mem_size (gs_mem st2) = mem_size (gs_mem st1)
  /\ lift_result st2 retptr =
       (if utf8_valid bs then Ok {| uri := String.string_of_list_byte bs |} else Err "invalid utf-8")
  /\ post_return_handleevent st2 retptr = cabi_dealloc st2 ptr len 1.
Proof.
  intros Hok Hptr Hlen Hfit Hdisj Hbs. pose proof Hok as [Hr0 Hra Hrs Hwf]. pose proof (guest_ok_mem _ Hok).
  cbn [export_handleevent_cabi handleevent_repr r_uri rs_ptr rs_len].
  set (ret := gs_ret_area st1) in *.
  set (m1 := store_u32 (gs_mem st1) (ret + 4) len).
  assert (Hok1 : guest_ok (set_mem st1 m1)) by (apply guest_ok_store_static; [done|lia|lia]).
  assert (Hok2 : guest_ok (set_mem st1 (store_u32 m1 ret ptr))).
  { rewrite <- (set_mem_set_mem st1 m1). apply (guest_ok_store_static (set_mem st1 m1)); [done|lia|lia]. }
  assert (Hget1 : load_u32 (store_u32 m1 ret ptr) ret = ptr) by (by apply load_u32_store_u32).
  assert (Hget2 : load_u32 (store_u32 m1 ret ptr) (ret + 4) = len).
  { unfold store_u32 at 1. rewrite load_u32_store_bytes_out by (simpl; lia).
    by apply load_u32_store_u32. }
  assert (Hsize : mem_size (store_u32 m1 ret ptr) = mem_size (gs_mem st1)) by (unfold m1; by rewrite !mem_size_store_u32).
  assert (Hbytes : load_bytes (store_u32 m1 ret ptr) ptr (Z.to_nat len) = bs).
  { destruct Hdisj as [->|Hd]; [by rewrite <- Hbs|].
    unfold m1, store_u32. rewrite !load_bytes_store_bytes_out by (simpl; lia). done. }
  clearbody m1 ret. split_and!; [done|done|done|done| |].
  - unfold lift_result. cbn [gs_mem set_mem]. rewrite Hget1, Hget2, Hsize, Hbytes.
    Z_cond_simpl. done.
  - unfold post_return_handleevent. cbn [gs_mem set_mem]. by rewrite Hget1, Hget2.
Qed.

(** ** One call *)

(** A call on a request that fits returns the request exactly when its
    bytes are valid UTF-8 (they are, for a Rust [String]), and otherwise
    traps on lifting; either way the live blocks are those before the
    call, the state stays well formed, and memory grew by at most the
    string and the allocator's overhead. *)
Lemma abi_call_handleevent st req :
  guest_ok st -> uri_len req <= max_string_byte_length ->
  mem_size (gs_mem st) + uri_len req + ga_overhead <= max_pages * page_size ->
  exists st', abi_call handleevent_repr st req =
      (if utf8_valid (uri_bytes req) then Ok (req, st') else Err "invalid utf-8")
    /\ ga_live (gs_alloc st') = ga_live (gs_alloc st) /\ guest_ok st'
    /\ mem_size (gs_mem st') <= mem_size (gs_mem st) + uri_len req + ga_overhead.
Proof.
  unfold uri_len, uri_bytes. intros Hok Hlen Hroom.
  destruct (lower_string_ok st _ Hok Hlen Hroom)
    as (ptr & st1 & Hlow & Hok1 & Hret & Hsz & Hbs & Hptr & Hfit & Hdisj & Hlive).
  assert (Hlen32 : 0 <= Z.of_nat (length (String.list_byte_of_string (uri req))) < 2 ^ 32)
    by (unfold max_string_byte_length in Hlen; lia).
  rewrite <- (Nat2Z.id (length _)) in Hbs.
  pose proof (export_lift st1 ptr _ _ Hok1 Hptr Hlen32 Hfit
    ltac:(destruct Hdisj as [->|]; [left; done|right; lia]) Hbs) as Hx.
  unfold abi_call. rewrite Hlow.
  destruct (export_handleevent_cabi handleevent_repr st1 ptr _) as [retptr st2] eqn:Hex.
  destruct Hx as (-> & Hok2 & Halloc2 & Hsz2 & Hlift & Hpost). rewrite Hlift, Hpost.
  set (n := Z.of_nat (length (String.list_byte_of_string (uri req)))) in *.
  assert (Hfree : guest_ok (cabi_dealloc st2 ptr n 1)
                  /\ ga_live (gs_alloc (cabi_dealloc st2 ptr n 1)) = ga_live (gs_alloc st)
                  /\ mem_size (gs_mem (cabi_dealloc st2 ptr n 1)) = mem_size (gs_mem st2)).
  { destruct Hlive as [[Hnil Hl]|(Hpos & Hfresh & Hl)].
    - unfold n. rewrite Hnil. simpl. unfold cabi_dealloc. simpl. rewrite Halloc2. by split_and!.
    - destruct (cabi_dealloc_ok st2 ptr n Hok2 Hpos) as (? & -> & ?);
        [by rewrite Halloc2, Hl, lookup_insert_eq|].
      rewrite Halloc2, Hl, delete_insert_id by done. by split_and!. }
  destruct Hfree as (Hokf & Hlf & Hszf).
  exists (cabi_dealloc st2 ptr n 1). split_and!; [|done|done|lia].
  destruct (utf8_valid _); [|done]. by rewrite String.string_of_list_byte_of_string; destruct req.
Qed.

Lemma total_cost_nonneg reqs : 0 <= total_cost reqs.
Proof.
  pose proof overhead_nonneg. induction reqs as [|r rs IH]; unfold total_cost in *; simpl; [lia|].
  pose proof (Nat2Z.is_nonneg (length (uri_bytes r))). unfold uri_len at 1. lia.
Qed.

(** Whatever the guest left in memory, a lifted result is sound: the
    return pointer is aligned with its 8 bytes in memory, and the
    result's string is valid UTF-8 and is the bytes of a block that lies
    in memory, at the pointer and with the length read from the return
    area. *)
Lemma lift_result_sound st retptr r :
  lift_result st retptr = Ok r ->
  let m := gs_mem st in
  retptr mod 4 = 0 /\ 0 <= retptr /\ retptr + 8 <= mem_size m
  /\ load_u32 m retptr + load_u32 m (retptr + 4) <= mem_size m
  /\ uri_bytes r = load_bytes m (load_u32 m retptr) (Z.to_nat (load_u32 m (retptr + 4)))
  /\ utf8_valid (uri_bytes r) = true.
Proof.
  unfold lift_result, uri_bytes. cbn zeta.
  destruct (Z.eqb_spec (retptr mod 4) 0); simpl; [|done].
  destruct (Z.ltb_spec retptr 0), (Z.ltb_spec (mem_size (gs_mem st)) (retptr + 8)); simpl; try done.
  destruct (Z.ltb_spec (mem_size (gs_mem st)) (load_u32 (gs_mem st) retptr + load_u32 (gs_mem st) (retptr + 4)));
    [done|].
  destruct (utf8_valid _) eqn:Hv; intros [= <-]; simpl.
  rewrite String.list_byte_of_string_of_list_byte. split_and!; auto with lia.
Qed.

Lemma post_return_size st retptr : mem_size (gs_mem (post_return_handleevent st retptr)) = mem_size (gs_mem st).
Proof.
  unfold post_return_handleevent, cabi_dealloc. destruct (_ =? 0); [done|].
  pose proof (dealloc_size (gs_alloc st) (gs_mem st) (load_u32 (gs_mem st) retptr) (load_u32 (gs_mem st) (retptr + 4)) 1).
  by destruct (ga_dealloc _ _ _ _ _).
Qed.

(** ** Properties of the call *)

(** C17: over any global allocator with the laws of GuestAlloc.v,
    calls on one instance, with requests whose strings are valid UTF-8,
    while memory can still grow by their lengths and the allocator's
    overhead within the 4 GiB of wasm32, all return their request;
    afterwards the live blocks of the guest's allocator are those before
    the calls (post-return frees every lowered string) and the guest's
    state is still well formed. *)
Theorem abi_calls_passthrough st reqs :
  guest_ok st ->
  Forall (fun r => utf8_valid (uri_bytes r) = true /\ uri_len r <= max_string_byte_length) reqs ->
  mem_size (gs_mem st) + total_cost reqs <= max_pages * page_size ->
  exists st', abi_calls handleevent_repr st reqs = Ok (reqs, st')
    /\ ga_live (gs_alloc st') = ga_live (gs_alloc st) /\ guest_ok st'.
Proof.
  induction reqs as [|r rs IH] in st |- *; intros Hok Hall Hroom; simpl; [by eexists|].
  inversion Hall as [|? ? [Hutf Hlen] Hrest]; subst.
  pose proof (total_cost_nonneg rs). unfold total_cost in Hroom; simpl in Hroom; fold (total_cost rs) in Hroom.
  destruct (abi_call_handleevent st r Hok Hlen ltac:(lia)) as (st1 & -> & Hlive1 & Hok1 & Hsz1).
  rewrite Hutf.
  destruct (IH st1 Hok1 Hrest ltac:(lia)) as (st2 & -> & Hlive2 & Hok2).
  exists st2. split_and!; congruence.
Qed.

(** C18: from any guest state, well formed or not, a response the call
    of the Rust guest returns is the UTF-8 encoding of a sequence of
    Unicode scalar values, and a copy of a block of bytes that lies
    inside the guest's memory at the moment it is lifted, the state
    that post-return then frees the string from. *)
Theorem abi_call_result_sound st req r st' :
  abi_call handleevent_repr st req = Ok (r, st') ->
  (exists cs, Forall scalar cs /\ utf8_encode cs = uri_bytes r)
  /\ exists st2 retptr p, st' = post_return_handleevent st2 retptr
       /\ 0 <= p /\ p + uri_len r <= mem_size (gs_mem st')
       /\ uri_bytes r = load_bytes (gs_mem st2) p (length (uri_bytes r)).
Proof.
  unfold abi_call. destruct (lower_string st _) as [[[ptr len] st1]|]; [|done].
  destruct (export_handleevent_cabi _ _ _ _) as [retptr st2].
  destruct (lift_result st2 retptr) as [resp|] eqn:Hlift; intros [= <- <-]; [].
  apply lift_result_sound in Hlift as (_ & _ & _ & Hfit & Hbs & Hutf).
  pose proof (le_value_range (load_bytes (gs_mem st2) retptr 4)).
  pose proof (le_value_range (load_bytes (gs_mem st2) (retptr + 4) 4)).
  split; [by apply utf8_valid_iff|]. exists st2, retptr.
  unfold uri_len. rewrite post_return_size, Hbs, length_load_bytes, Z2Nat.id by (unfold load_u32; lia).
  eexists. split_and!; [done| |done|done]. unfold load_u32; lia.
Qed.
End Laws.

(** ** Witnesses, on the bump allocator *)

(** A fresh guest: one page, the return area at 8, the heap from 16. *)
Definition demo_guest : guest_state (A := Bump.state) :=
  {| gs_mem := {| mem_bytes := ∅; mem_size := page_size |};
     gs_alloc := {| Bump.heap := Bump.base; Bump.live := ∅ |}; gs_ret_area := 8 |}.

Definition demo_req : Request := {| uri := "Test URI" |}.

(** The guest's state after the call of the witnesses. *)
Definition demo_after : guest_state (A := Bump.state) :=
  match abi_call handleevent_repr demo_guest demo_req with
  | Ok (_, st') => st'
  | Err _ => demo_guest
  end.

Lemma demo_guest_ok : guest_ok demo_guest.
Proof.
  split; cbn; [lia|done|unfold Bump.base; lia|].
  unfold Bump.wf, Bump.base, page_size, max_pages; cbn. split_and!; [lia|lia|reflexivity|lia|].
  intros p n Hn. by rewrite lookup_empty in Hn.
Qed.

Lemma abi_calls_passthrough_witness :
  exists st', abi_calls handleevent_repr demo_guest [demo_req; demo_req] = Ok ([demo_req; demo_req], st')
    /\ ga_live (gs_alloc st') = ga_live (gs_alloc demo_guest) /\ guest_ok st'.
Proof.
  apply abi_calls_passthrough.
  - apply demo_guest_ok.
  - repeat constructor; vm_compute; done.
  - vm_compute. done.
Defined.

Lemma abi_call_result_sound_witness :
  (exists cs, Forall scalar cs /\ utf8_encode cs = uri_bytes demo_req)
  /\ exists st2 retptr p, demo_after = post_return_handleevent st2 retptr
       /\ 0 <= p /\ p + uri_len demo_req <= mem_size (gs_mem demo_after)
       /\ uri_bytes demo_req = load_bytes (gs_mem st2) p (length (uri_bytes demo_req)).
Proof. apply (abi_call_result_sound demo_guest demo_req). vm_compute. reflexivity. Defined.
