(* ===== verification/RefRuntime.v ===== *)
(** * A reference implementation of the runtime interface

    A concrete instance of [Runtime] that follows the spec's data model:
    a component is its validated artifact, a linker its definitions, a
    store the host state [MyState] and one slot per instance (its bound
    export and its status), an instance an index into the slots, the
    way wasmtime's [Stored<T>] handles index a store.  Import resolution
    first looks for an unsatisfied import ([list_find]) and is shown
    equal to the fail-fast [resolve_imports] of the contract.  The laws
    [RuntimeLaws] are discharged here, so the interface is satisfiable
    and the theorems of Host.v can be run on concrete inputs.

    The WASI bundle lists the interfaces wasmtime-wasi's [p2] linker
    defines, with the free functions of each, under their versioned
    names ([@0.2.3] here); methods of resources are not listed.  A guest
    built against an older [0.2.x] release links through the name map's
    semver-compatible lookup (NameMap.v). *)

From S2P Require Import Prelude Process Wit Wasi Canon NameMap Runtime.

Local Open Scope string_scope.
Local Open Scope proc_scope.

Module RefRuntime.

Record engine := { engine_version : string }.

Definition default_engine : engine := {| engine_version := "wasmtime" |}.

Record component := { comp_artifact : Artifact }.

Record linker := { linker_defs : NameMap iface_sig }.

Record slot := { slot_func : guest_func; slot_status : inst_status }.

Record store := { store_data : MyState; store_slots : list slot }.

Definition wasi_p2 : list (string * iface_sig) := [
  ("wasi:io/error@0.2.3", []);
  ("wasi:io/poll@0.2.3", [("poll", "func(in: list<borrow<pollable>>) -> list<u32>")]);
  ("wasi:io/streams@0.2.3", []);
  ("wasi:clocks/wall-clock@0.2.3", [("now", "func() -> datetime"); ("resolution", "func() -> datetime")]);
  ("wasi:clocks/monotonic-clock@0.2.3", [("now", "func() -> instant"); ("resolution", "func() -> duration");
     ("subscribe-instant", "func(when: instant) -> pollable");
     ("subscribe-duration", "func(when: duration) -> pollable")]);
  ("wasi:filesystem/types@0.2.3", [("filesystem-error-code", "func(err: borrow<error>) -> option<error-code>")]);
  ("wasi:filesystem/preopens@0.2.3", [("get-directories", "func() -> list<tuple<descriptor, string>>")]);
  ("wasi:random/random@0.2.3", [("get-random-bytes", "func(len: u64) -> list<u8>");
     ("get-random-u64", "func() -> u64")]);
  ("wasi:random/insecure@0.2.3", [("get-insecure-random-bytes", "func(len: u64) -> list<u8>");
     ("get-insecure-random-u64", "func() -> u64")]);
  ("wasi:random/insecure-seed@0.2.3", [("insecure-seed", "func() -> tuple<u64, u64>")]);
  ("wasi:cli/exit@0.2.3", [("exit", "func(status: result)")]);
  ("wasi:cli/environment@0.2.3", [("get-environment", "func() -> list<tuple<string, string>>");
     ("get-arguments", "func() -> list<string>"); ("initial-cwd", "func() -> option<string>")]);
  ("wasi:cli/stdin@0.2.3", [("get-stdin", "func() -> input-stream")]);
  ("wasi:cli/stdout@0.2.3", [("get-stdout", "func() -> output-stream")]);
  ("wasi:cli/stderr@0.2.3", [("get-stderr", "func() -> output-stream")]);
  ("wasi:cli/terminal-input@0.2.3", []);
  ("wasi:cli/terminal-output@0.2.3", []);
  ("wasi:cli/terminal-stdin@0.2.3", [("get-terminal-stdin", "func() -> option<terminal-input>")]);
  ("wasi:cli/terminal-stdout@0.2.3", [("get-terminal-stdout", "func() -> option<terminal-output>")]);
  ("wasi:cli/terminal-stderr@0.2.3", [("get-terminal-stderr", "func() -> option<terminal-output>")]);
  ("wasi:sockets/network@0.2.3", []);
  ("wasi:sockets/instance-network@0.2.3", [("instance-network", "func() -> network")]);
  ("wasi:sockets/udp@0.2.3", []);
  ("wasi:sockets/udp-create-socket@0.2.3", [("create-udp-socket", "func(address-family: ip-address-family) -> result<udp-socket, error-code>")]);
  ("wasi:sockets/tcp@0.2.3", []);
  ("wasi:sockets/tcp-create-socket@0.2.3", [("create-tcp-socket", "func(address-family: ip-address-family) -> result<tcp-socket, error-code>")]);
  ("wasi:sockets/ip-name-lookup@0.2.3", [("resolve-addresses", "func(network: borrow<network>, name: string) -> result<resolve-address-stream, error-code>")])
].

Definition from_file (e : engine) (fs : FileSystem) (p : string) : result component host_error :=
  result_map Build_component (spec_from_file fs p).

Definition deserialize_file (e : engine) (fs : FileSystem) (p : string) : result component host_error :=
  result_map Build_component (spec_deserialize_file (engine_version e) fs p).

Definition add_to_linker_sync (l : linker) : result linker host_error :=
  result_map Build_linker (define_all wasi_p2 (linker_defs l)).

(** Import resolution: search for an unsatisfied import. *)
Definition resolve_by_search (imps : list (string * iface_sig)) (defs : NameMap iface_sig)
    : result unit host_error :=
  match list_find (fun imp => import_satisfied defs imp = false) imps with
  | Some (_, imp) => Err (UnresolvedImport imp.1)
  | None => Ok tt
  end.

Definition instantiate_artifact (a : Artifact) (defs : NameMap iface_sig)
    : result guest_func host_error :=
  (_ <-? resolve_by_search (art_imports a) defs ;;
   g <-? lookup_export a ;;
   _ <-? match art_start_trap a with
         | Some reason => Err (StartTrap reason)
         | None => Ok tt
         end ;;
   typecheck_export g)%result.

Definition instantiate (s : store) (c : component) (l : linker) : result nat host_error * store :=
  match instantiate_artifact (comp_artifact c) (linker_defs l) with
  | Ok g => (Ok (length (store_slots s)),
             {| store_data := store_data s;
                store_slots := store_slots s ++ [{| slot_func := g; slot_status := Live tables_empty |}] |})
  | Err e => (Err e, s)
  end.

(** The call runs the slot's step on the store's state; the store then
    holds the state the guest's host calls left, and the slot its new
    status. *)
Definition call_handleevent (i : nat) (s : store) (req : Request) : Proc (result Request host_error * store) :=
  match store_slots s !! i with
  | None => proc_ret (Err CannotEnter, s)
  | Some sl =>
      p <- step_call (slot_func sl) (slot_status sl) (store_data s) req ;;
      proc_ret (p.1, {| store_data := p.2.2;
                        store_slots := <[i := {| slot_func := slot_func sl; slot_status := p.2.1 |}]> (store_slots s) |})
  end.

Definition instance_state (s : store) (i : nat) : option (guest_func * inst_status) :=
  (fun sl => (slot_func sl, slot_status sl)) <$> store_slots s !! i.

#[export] Instance runtime : Runtime := {|
  rt_engine := engine; rt_component := component; rt_linker := linker;
  rt_store := store; rt_instance := nat;
  rt_engine_default := default_engine;
  rt_engine_version := engine_version;
  rt_from_file := from_file;
  rt_deserialize_file := deserialize_file;
  rt_artifact := comp_artifact;
  rt_linker_new := fun _ => {| linker_defs := nm_empty |};
  rt_linker_defs := linker_defs;
  rt_wasi_bundle := wasi_p2;
  rt_add_to_linker_sync := add_to_linker_sync;
  rt_store_new := fun _ st => {| store_data := st; store_slots := [] |};
  rt_store_data := store_data;
  rt_instantiate := instantiate;
  rt_call_handleevent := call_handleevent;
  rt_instance_state := instance_state
|}.

(** ** The laws *)

(** Searching for an unsatisfied import is fail-fast resolution. *)
Lemma resolve_by_search_eq imps defs : resolve_by_search imps defs = resolve_imports imps defs.
Proof.
  unfold resolve_by_search.
  induction imps as [|imp rest IH]; simpl; [done|].
  destruct (import_satisfied defs imp) eqn:Hsat; simpl.
  - rewrite <- IH. by destruct (list_find _ rest) as [[? ?]|].
  - done.
Qed.

Lemma instantiate_artifact_eq a defs : instantiate_artifact a defs = spec_instantiate a defs.
Proof. unfold instantiate_artifact, spec_instantiate. by rewrite resolve_by_search_eq. Qed.

Lemma wasi_p2_nodup : NoDup wasi_p2.*1.
Proof. apply (bool_decide_unpack _). vm_compute. reflexivity. Qed.

Lemma instantiate_refines' s c l :
  instantiate_rel (H := runtime) s (comp_artifact c) (linker_defs l) (instantiate s c l).
Proof.
  unfold instantiate_rel, instantiate. rewrite instantiate_artifact_eq.
  destruct (spec_instantiate _ _) as [g|e]; simpl; [|done].
  unfold others_kept; simpl. unfold instance_state; simpl. split_and!.
  - by rewrite lookup_ge_None_2.
  - by rewrite list_lookup_middle.
  - done.
  - intros j x _ Hj. apply fmap_Some in Hj as (sl & Hsl & ->).
    rewrite lookup_app_l; [by rewrite Hsl| by eapply lookup_lt_Some].
Qed.

Lemma call_refines' s i g st req :
  instance_state s i = Some (g, st) ->
  call_rel (H := runtime) s i g st req (call_handleevent i s req).
Proof.
  unfold instance_state, call_handleevent, call_rel. intros (sl & Hsl & Heq)%fmap_Some.
  inv_clear Heq. rewrite Hsl. cbn [rt_store_data runtime].
  destruct (step_call (slot_func sl) (slot_status sl) (store_data s) req) as [out [t|[r [st' d']]]];
    simpl; [done|].
  eexists. rewrite app_nil_r. split; [done|].
  unfold others_kept; simpl. unfold instance_state; simpl. split_and!.
  - rewrite list_lookup_insert_eq; [done|]. by eapply lookup_lt_Some.
  - done.
  - intros j x Hj Hx. rewrite list_lookup_insert_ne; [done|]. congruence.
Qed.

#[export] Instance runtime_laws : RuntimeLaws (H := runtime).
Proof.
  split; simpl.
  - intros. unfold from_file. rewrite result_map_map. by apply result_map_id_ext.
  - intros. unfold deserialize_file. rewrite result_map_map. by apply result_map_id_ext.
  - done.
  - exact wasi_p2_nodup.
  - intros. unfold add_to_linker_sync. rewrite result_map_map. by apply result_map_id_ext.
  - done.
  - intros. apply instantiate_refines'.
  - intros. by apply call_refines'.
Qed.
End RefRuntime.
