(* ===== verification/Host.v ===== *)
(** * The runner's [main] (src/runner/src/main.rs 26-87)

    [main] composed from its parts in the order of the source, over any
    implementation of the runtime interface: [parse_cli] (27-54),
    [load_component] (56-63), [setup_linker] (65-67), the store around
    [new_state] (69-73), instantiation (75-77), the call with [request]
    (79-84) and the response line (86).  [run_main] is the observable
    result of the process: the lines written and the exit status.

    [main_refines] shows that, for every runtime satisfying
    [RuntimeLaws], [main] is the contract-level program [main_spec],
    which mentions no runtime state; the end-to-end properties are then
    proved on [main_spec]. *)

From S2P Require Import Prelude Process Cli Wasi WasiHost Canon Wit NameMap Runtime RefRuntime.

Local Open Scope string_scope.
Local Open Scope proc_scope.

(** A component of the world [handler-world]: its imports, its start
    code, and the function it exports as
    [test:test/handler-interface#handleevent]. *)
Definition handler_artifact (imports : list (string * iface_sig)) (start : option string)
    (g : guest_func) : Artifact :=
  {| art_imports := imports;
     art_start_trap := start;
     art_exports := [(handler_interface_name, [(handleevent_name, g)])] |}.

(** The Rust guest of lib.rs as a component: the export glue around
    [handleevent], no start code, and the imports it was built with. *)
Definition rust_guest_artifact (imports : list (string * iface_sig)) : Artifact :=
  handler_artifact imports None rust_guest_export.

(** main.rs 79-81 *)
Definition request : Request := {| uri := "Test URI" |}.

(** main.rs 86 *)
Definition response_line (response : Request) : string := "Response: " +:+ uri response.

Section Main.
Context `{Runtime}.

(** main.rs 56-63 *)
Definition load_component (engine : rt_engine) (fs : FileSystem) (cfg : Config) : Proc rt_component :=
  if cfg_use_aot cfg then
    expect (rt_deserialize_file engine fs (cfg_component_path cfg)) "Failed to load AOT component"
  else
    expect (rt_from_file engine fs (cfg_component_path cfg)) "Failed to load component".

(** main.rs 65-67 *)
Definition setup_linker (engine : rt_engine) : Proc rt_linker :=
  let linker := rt_linker_new engine in
  expect (rt_add_to_linker_sync linker) "Failed to add WASI to linker".

(** main.rs 83-84: [instance.test_test_handler_interface()] selects the
    bound interface (an accessor) and [call_handleevent(&mut store, ..)]
    runs the call, threading the store. *)
Definition call_handler (instance : rt_instance) (store : rt_store) (req : Request)
    : Proc (result Request host_error * rt_store) :=
  rt_call_handleevent instance store req.

(** main.rs 69-87, once the component is loaded *)
Definition run_component (engine : rt_engine) (component : rt_component) : Proc unit :=
  linker <- setup_linker engine ;;
  let store := rt_store_new engine new_state in
  let '(inst, store) := rt_instantiate store component linker in
  instance <- expect inst "Failed to instantiate component" ;;
  p <- call_handler instance store request ;;
  response <- expect p.1 "Failed to call handleevent" ;;
  println (response_line response).

(** main.rs 26-87 *)
Definition main (env : Env) (fs : FileSystem) : Proc unit :=
  cfg <- parse_cli env ;;
  let engine := rt_engine_default in
  component <- load_component engine fs cfg ;;
  run_component engine component.

Definition run_main (env : Env) (fs : FileSystem) : list event * Z :=
  let '(out, r) := main env fs in (out, exit_status r).
End Main.

(** ** The contract-level program *)

Definition spec_load (version : string) (fs : FileSystem) (cfg : Config) : Proc Artifact :=
  if cfg_use_aot cfg then
    expect (spec_deserialize_file version fs (cfg_component_path cfg)) "Failed to load AOT component"
  else
    expect (spec_from_file fs (cfg_component_path cfg)) "Failed to load component".

Definition spec_run (bundle : list (string * iface_sig)) (a : Artifact) : Proc unit :=
  g <- expect (spec_instantiate a (bundle_defs bundle)) "Failed to instantiate component" ;;
  p <- spec_call g request tables_empty new_state ;;
  response <- expect p.1 "Failed to call handleevent" ;;
  println (response_line response).

Definition main_spec (version : string) (bundle : list (string * iface_sig))
    (env : Env) (fs : FileSystem) : Proc unit :=
  cfg <- parse_cli env ;;
  a <- spec_load version fs cfg ;;
  spec_run bundle a.

(** ** [main] refines the contract-level program *)

Section Refinement.
Context `{RL : RuntimeLaws}.

Lemma run_component_refines e c : run_component e c = spec_run rt_wasi_bundle (rt_artifact c).
Proof.
  unfold run_component, spec_run, setup_linker, call_handler.
  destruct (rt_add_to_fresh_linker e) as (l & -> & Hdefs).
  proc_simpl. rewrite <- Hdefs.
  destruct (spec_instantiate (rt_artifact c) (rt_linker_defs l)) as [g|err] eqn:Hi.
  - destruct (rt_instantiate_Ok (rt_store_new e new_state) c l g Hi) as (i & s' & -> & Hs' & Hd).
    rewrite store_new_data in Hd. proc_simpl.
    destruct (spec_call g request tables_empty new_state) as [out [t|[r [hs d]]]] eqn:Hc.
    + rewrite (rt_call_stop s' i g (Live tables_empty) request out t Hs'); [done|]. by rewrite Hd; simpl; rewrite Hc.
    + apply step_call_live in Hc. rewrite <- Hd in Hc.
      by destruct (rt_call_step s' i g _ request _ _ _ _ Hs' Hc) as (s'' & -> & _).
  - by rewrite (rt_instantiate_Err _ _ _ _ Hi).
Qed.

Lemma load_component_refines e fs cfg :
  match spec_load (rt_engine_version e) fs cfg with
  | (out, inr a) => exists c, load_component e fs cfg = (out, inr c) /\ rt_artifact c = a
  | (out, inl t) => load_component e fs cfg = (out, inl t)
  end.
Proof.
  unfold spec_load, load_component. destruct (cfg_use_aot cfg).
  - destruct (spec_deserialize_file _ fs _) as [a|err] eqn:Hd.
    + destruct (rt_deserialize_Ok _ _ _ _ Hd) as (c & -> & <-). simpl. eauto.
    + by rewrite (rt_deserialize_Err _ _ _ _ Hd).
  - destruct (spec_from_file fs _) as [a|err] eqn:Hf.
    + destruct (rt_from_file_Ok e _ _ _ Hf) as (c & -> & <-). simpl. eauto.
    + by rewrite (rt_from_file_Err _ _ _ _ Hf).
Qed.

(** C2: For every runtime satisfying the laws of the interface, [main]
  is the contract-level program [main_spec]: the CLI part, the load
  as [spec_from_file] or [spec_deserialize_file], and instantiation
  and the call as [spec_instantiate] and [spec_call] against the WASI
  bundle; nothing of the runtime's own state is observable. *)
Theorem main_refines env fs :
  main env fs = main_spec (rt_engine_version rt_engine_default) rt_wasi_bundle env fs.
Proof.
  unfold main, main_spec. destruct (parse_cli env) as [out [t|cfg]]; [done|]. simpl.
  pose proof (load_component_refines rt_engine_default fs cfg) as Hl.
  destruct (spec_load _ fs cfg) as [out' [t'|a]]; [by rewrite Hl|].
  destruct Hl as (c & -> & <-). simpl. by rewrite run_component_refines.
Qed.
End Refinement.

(** ** Shared facts about the contract-level program *)

(** The argument vector of a run whose arguments are all Unicode. *)
Definition cli_env (args : list string) (vars : gmap string os_string) : Env :=
  {| env_argv := OsUnicode <$> args; env_vars := vars |}.

(** The file a load mode reads: a module for [from_file], an image of
    the given producer for [deserialize_file]. *)
Definition artifact_file (use_aot : bool) (version : string) (a : Artifact) : file :=
  if use_aot then CwasmFile version a else WasmFile (ModuleBytes a true).

Lemma spec_load_ok version fs cfg a :
  fs !! cfg_component_path cfg = Some (artifact_file (cfg_use_aot cfg) version a) ->
  spec_load version fs cfg = proc_ret a.
Proof.
  unfold spec_load, artifact_file, spec_from_file, spec_deserialize_file.
  destruct (cfg_use_aot cfg); intros ->; [rewrite String.eqb_refl|]; done.
Qed.

Lemma spec_run_ok bundle a g r x :
  spec_instantiate a (bundle_defs bundle) = Ok g -> spec_call g request tables_empty new_state = proc_ret (Ok r, x) ->
  spec_run bundle a = ([Ev Stdout (response_line r)], inr tt).
Proof. intros Hg Hr. unfold spec_run. rewrite Hg. proc_simpl. by rewrite Hr. Qed.

(** The run from instantiation on: whatever host calls the guest
    makes on the fresh store, it prints the response line, or nothing
    before a panic. *)
Lemma spec_run_cases bundle a :
  (exists r, spec_run bundle a = ([Ev Stdout (response_line r)], inr tt))
  \/ exists msg, spec_run bundle a = ([], inl (Panicked msg)).
Proof.
  unfold spec_run. destruct (spec_instantiate _ _) as [g|e]; simpl; [|eauto].
  destruct (spec_call_inert g request tables_empty new_state new_state_inert_state tables_empty_wf)
    as ([r|e] & hs' & s' & -> & _); simpl; eauto.
Qed.

(** A component of the world whose imports resolve: its start code
    runs, then its export is type-checked. *)
Lemma handler_instantiate imports start g defs :
  Forall (fun i => import_satisfied defs i = true) imports ->
  spec_instantiate (handler_artifact imports start g) defs =
    match start with Some reason => Err (StartTrap reason) | None => typecheck_export g end.
Proof.
  intros Himp. unfold spec_instantiate, lookup_export, handler_artifact. cbn [art_imports art_exports art_start_trap].
  rewrite (proj2 (resolve_imports_Ok _ _) Himp), !assoc_lookup_cons_eq. by destruct start.
Qed.

Lemma handler_instantiate_typed imports g defs :
  Forall (fun i => import_satisfied defs i = true) imports -> gf_type g = handleevent_ty ->
  spec_instantiate (handler_artifact imports None g) defs = Ok g.
Proof. intros Himp Hty. rewrite handler_instantiate by done. unfold typecheck_export. by rewrite decide_True. Qed.

Lemma rust_guest_instantiate imports defs :
  Forall (fun i => import_satisfied defs i = true) imports ->
  spec_instantiate (rust_guest_artifact imports) defs = Ok rust_guest_export.
Proof. intros Himp. by apply handler_instantiate_typed. Qed.

Section Properties.
Context `{RL : RuntimeLaws}.

Lemma main_cli_stop env fs out t :
  parse_cli env = (out, inl t) -> main env fs = (out, inl t).
Proof. intros Hc. unfold main. by rewrite Hc. Qed.

(** Once the CLI part has printed its line and the artifact is read,
    the run is the contract-level [spec_run]. *)
Lemma main_loaded env fs l cfg a :
  parse_cli env = ([Ev Stdout l], inr cfg) ->
  fs !! cfg_component_path cfg = Some (artifact_file (cfg_use_aot cfg) (rt_engine_version rt_engine_default) a) ->
  main env fs = (Ev Stdout l :: (spec_run rt_wasi_bundle a).1, (spec_run rt_wasi_bundle a).2).
Proof.
  intros Hc Hf. rewrite main_refines. unfold main_spec. rewrite Hc, proc_bind_write.
  rewrite (spec_load_ok _ _ _ _ Hf), proc_bind_ret_l. done.
Qed.

Lemma main_spec_load_err env fs l cfg err :
  parse_cli env = ([Ev Stdout l], inr cfg) ->
  spec_load (rt_engine_version rt_engine_default) fs cfg = ([], inl err) ->
  main env fs = ([Ev Stdout l], inl err).
Proof. intros Hc Hl. rewrite main_refines. unfold main_spec. by rewrite Hc, proc_bind_write, Hl. Qed.
End Properties.

(** ** Properties of [main] *)

Section Claims.
Context `{RL : RuntimeLaws}.

(** C1: With the Rust guest of lib.rs at the path the CLI selects (a
    module, or with [--aot] an image of the running engine's producer)
    and every import of the guest provided by the WASI bundle, the run
    prints the loading line and then [Response: Test URI] -- the
    request comes back unchanged -- and exits with status 0. *)
Theorem main_passthrough prog ty rest vars m path fs imports :
  env_var vars "CARGO_MANIFEST_DIR" = Ok m ->
  component_path_of m ty (ext_of (has_aot_flag (prog :: ty :: rest))) = Some path ->
  fs !! path = Some (artifact_file (has_aot_flag (prog :: ty :: rest))
                       (rt_engine_version rt_engine_default) (rust_guest_artifact imports)) ->
  Forall (fun i => import_satisfied (bundle_defs rt_wasi_bundle) i = true) imports ->
  run_main (cli_env (prog :: ty :: rest) vars) fs =
    ([Ev Stdout (loading_line ty (has_aot_flag (prog :: ty :: rest)) path);
      Ev Stdout "Response: Test URI"], 0%Z).
Proof.
  intros Hm Hp Hf Himp. unfold run_main.
  rewrite (main_loaded _ _ _ _ _ (parse_cli_ok (cli_env (prog :: ty :: rest) vars) (prog :: ty :: rest) ty m path eq_refl eq_refl Hm Hp) Hf).
  rewrite (spec_run_ok _ _ _ request (tables_empty, new_state) (rust_guest_instantiate _ _ Himp)); [done|].
  apply spec_call_rust_guest.
Qed.

(** C3: Loading mode is unobservable past the loading line: with the
    same artifact as a module at the [.wasm] path and as an image of
    the engine's producer at the [.cwasm] path, the run without
    [--aot] and the run with [--aot] appended print the same lines
    after their loading lines and exit with the same status, whatever
    the artifact does: the lines and the status of instantiating the
    artifact and calling it ([spec_run]), so both loads yield the
    artifact itself. *)
Theorem main_aot_equiv prog ty rest vars m pw pc fs a :
  ~ In "--aot" (prog :: ty :: rest) ->
  env_var vars "CARGO_MANIFEST_DIR" = Ok m ->
  component_path_of m ty "wasm" = Some pw ->
  component_path_of m ty "cwasm" = Some pc ->
  fs !! pw = Some (WasmFile (ModuleBytes a true)) ->
  fs !! pc = Some (CwasmFile (rt_engine_version rt_engine_default) a) ->
  exists out status,
    run_main (cli_env (prog :: ty :: rest) vars) fs = (Ev Stdout (loading_line ty false pw) :: out, status)
    /\ run_main (cli_env (prog :: ty :: rest ++ ["--aot"])%list vars) fs
       = (Ev Stdout (loading_line ty true pc) :: out, status)
    /\ out = (spec_run rt_wasi_bundle a).1 /\ status = exit_status (spec_run rt_wasi_bundle a).2.
Proof.
  intros Hno Hm Hpw Hpc Hw Hc.
  assert (Hoff : has_aot_flag (prog :: ty :: rest) = false) by by apply existsb_eqb_notIn.
  assert (Hon : has_aot_flag (prog :: ty :: rest ++ ["--aot"])%list = true).
  { apply has_aot_flag_iff. simpl. right; right. apply in_or_app. by right; left. }
  pose proof (parse_cli_ok (cli_env (prog :: ty :: rest) vars) (prog :: ty :: rest) ty m pw eq_refl eq_refl Hm)
    as Hc1. rewrite Hoff in Hc1. specialize (Hc1 Hpw).
  pose proof (parse_cli_ok (cli_env (prog :: ty :: rest ++ ["--aot"])%list vars) (prog :: ty :: rest ++ ["--aot"])%list ty m pc eq_refl eq_refl Hm)
    as Hc2. rewrite Hon in Hc2. specialize (Hc2 Hpc).
  exists (spec_run rt_wasi_bundle a).1, (exit_status (spec_run rt_wasi_bundle a).2).
  unfold run_main. by rewrite (main_loaded _ _ _ _ a Hc1 Hw), (main_loaded _ _ _ _ a Hc2 Hc).
Qed.

(** C4: Every run ends in one of four ways: the loading line and the
    response line with status 0; one line on stderr with status 1 (a
    usage error or an unknown component type); nothing written, or the
    loading line alone, with status 101 (a panic).  The response line
    is printed exactly when the status is 0. *)
Theorem run_main_outcomes env fs :
  (exists l r, run_main env fs = ([Ev Stdout l; Ev Stdout (response_line r)], 0%Z))
  \/ (exists l, run_main env fs = ([Ev Stderr l], 1%Z))
  \/ run_main env fs = ([], 101%Z)
  \/ (exists l, run_main env fs = ([Ev Stdout l], 101%Z)).
Proof.
  unfold run_main. rewrite main_refines. unfold main_spec.
  destruct (parse_cli_cases env) as [(cfg & ->)|[(l & ->)|(msg & ->)]]; [|eauto|eauto].
  rewrite proc_bind_write. unfold spec_load.
  destruct (cfg_use_aot cfg);
    [destruct (spec_deserialize_file _ fs _) as [a|e] | destruct (spec_from_file fs _) as [a|e]];
    simpl; try (right; right; right; eauto; fail);
    destruct (spec_run_cases rt_wasi_bundle a) as [(r & ->)|(msg & ->)]; simpl; eauto 7.
Qed.

(** C5: With only the program name on the command line, the run writes
    the usage line to stderr and exits with status 1, whatever the
    environment and the file system hold: no artifact is loaded. *)
Theorem main_usage env fs prog :
  env_argv env = [OsUnicode prog] ->
  main env fs = ([Ev Stderr ("Usage: " +:+ prog +:+ " <rs|js> [--aot]")], inl (Exited 1)).
Proof. intros Hargv. apply main_cli_stop. by apply parse_cli_usage. Qed.

(** C6: With an empty argument vector (a process started with argc 0),
    building the usage message indexes [args[0]] and the run panics
    with the index-out-of-bounds message instead of printing usage. *)
Theorem main_empty_argv_panics env fs :
  env_argv env = [] ->
  main env fs = ([], inl (Panicked "index out of bounds: the len is 0 but the index is 0")).
Proof. intros Hargv. apply main_cli_stop. by apply parse_cli_empty. Qed.

(** C7: A component type other than [rs] and [js] (for instance the
    flag [--aot] itself in first position) is reported on stderr as an
    invalid component type and the run exits with status 1 before any
    load. *)
Theorem main_invalid_type env fs args ty m :
  env_argv env = OsUnicode <$> args -> args !! 1 = Some ty ->
  env_var (env_vars env) "CARGO_MANIFEST_DIR" = Ok m ->
  ty <> "js" -> ty <> "rs" ->
  main env fs = ([Ev Stderr ("Invalid component type: " +:+ ty +:+ ". Use 'rs' or 'js'")], inl (Exited 1)).
Proof. intros. apply main_cli_stop. by eapply parse_cli_invalid. Qed.

(** C8: [CARGO_MANIFEST_DIR] is read before the component type is
    checked: when it is unset or not Unicode, the run panics with the
    [expect] message of line 36, whatever the component type is, even
    an invalid one. *)
Theorem main_manifest_checked_first env fs args ty e :
  env_argv env = OsUnicode <$> args -> args !! 1 = Some ty ->
  env_var (env_vars env) "CARGO_MANIFEST_DIR" = Err e ->
  main env fs = ([], inl (Panicked ("CARGO_MANIFEST_DIR not set. Please run using cargo: " +:+ debug e))).
Proof. intros. apply main_cli_stop. by eapply parse_cli_no_manifest. Qed.

(** C9: When nothing is at the selected path, the run prints the
    loading line and panics at the load with [NotFound] (in the message
    of the load mode used); it never reaches instantiation. *)
Theorem main_missing_artifact prog ty rest vars m path fs :
  env_var vars "CARGO_MANIFEST_DIR" = Ok m ->
  component_path_of m ty (ext_of (has_aot_flag (prog :: ty :: rest))) = Some path ->
  fs !! path = None ->
  main (cli_env (prog :: ty :: rest) vars) fs =
    ([Ev Stdout (loading_line ty (has_aot_flag (prog :: ty :: rest)) path)],
     inl (Panicked ((if has_aot_flag (prog :: ty :: rest) then "Failed to load AOT component"
                     else "Failed to load component") +:+ ": LoadError(NotFound)"))).
Proof.
  intros Hm Hp Hf.
  apply (main_spec_load_err _ _ _ _ _ (parse_cli_ok (cli_env (prog :: ty :: rest) vars) (prog :: ty :: rest) ty m path eq_refl eq_refl Hm Hp)).
  unfold spec_load, spec_from_file, spec_deserialize_file; cbn [cfg_use_aot cfg_component_path].
  by destruct (has_aot_flag _); rewrite Hf.
Qed.

(** C10: Instantiation fails at the first import, in declaration order,
    that the WASI bundle does not provide with the same signatures: the
    run prints the loading line and panics naming that import. *)
Theorem main_unresolved_import prog ty rest vars m path fs a pre imp post :
  env_var vars "CARGO_MANIFEST_DIR" = Ok m ->
  component_path_of m ty (ext_of (has_aot_flag (prog :: ty :: rest))) = Some path ->
  fs !! path = Some (artifact_file (has_aot_flag (prog :: ty :: rest)) (rt_engine_version rt_engine_default) a) ->
  art_imports a = (pre ++ imp :: post)%list ->
  Forall (fun i => import_satisfied (bundle_defs rt_wasi_bundle) i = true) pre ->
  import_satisfied (bundle_defs rt_wasi_bundle) imp = false ->
  main (cli_env (prog :: ty :: rest) vars) fs =
    ([Ev Stdout (loading_line ty (has_aot_flag (prog :: ty :: rest)) path)],
     inl (Panicked ("Failed to instantiate component: UnresolvedImport(" +:+ imp.1 +:+ ")"))).
Proof.
  intros Hm Hp Hf Himps Hpre Himp.
  rewrite (main_loaded _ _ _ _ _ (parse_cli_ok (cli_env (prog :: ty :: rest) vars) (prog :: ty :: rest) ty m path eq_refl eq_refl Hm Hp) Hf).
  assert (Hr : resolve_imports (art_imports a) (bundle_defs rt_wasi_bundle) = Err (UnresolvedImport imp.1))
    by (apply resolve_imports_Err; eauto 8).
  unfold spec_run, spec_instantiate. by rewrite Hr.
Qed.

(** C11: The export's type is checked only after the start code has
    run: for a component whose [handleevent] export does not have the
    type [func(event: request) -> request], the run prints the loading
    line and panics at instantiation -- with the start code's trap when
    the start code traps, and with [SignatureMismatch] only when it
    returns; the guest function is never called. *)
Theorem main_export_typecheck_after_start prog ty rest vars m path fs imports start g :
  env_var vars "CARGO_MANIFEST_DIR" = Ok m ->
  component_path_of m ty (ext_of (has_aot_flag (prog :: ty :: rest))) = Some path ->
  fs !! path = Some (artifact_file (has_aot_flag (prog :: ty :: rest)) (rt_engine_version rt_engine_default)
                       (handler_artifact imports start g)) ->
  Forall (fun i => import_satisfied (bundle_defs rt_wasi_bundle) i = true) imports ->
  gf_type g <> handleevent_ty ->
  main (cli_env (prog :: ty :: rest) vars) fs =
    ([Ev Stdout (loading_line ty (has_aot_flag (prog :: ty :: rest)) path)],
     inl (Panicked ("Failed to instantiate component: " +:+
                    match start with
                    | Some reason => "StartTrap(" +:+ reason +:+ ")"
                    | None => "SignatureMismatch(handleevent)"
                    end))).
Proof.
  intros Hm Hp Hf Himp Hty.
  rewrite (main_loaded _ _ _ _ _ (parse_cli_ok (cli_env (prog :: ty :: rest) vars) (prog :: ty :: rest) ty m path eq_refl eq_refl Hm Hp) Hf).
  unfold spec_run. rewrite handler_instantiate by done.
  destruct start; [done|]. unfold typecheck_export. by rewrite decide_False.
Qed.

(** C12: A guest that traps on the request makes the call fail: the run
    prints the loading line, no response line, and panics with the
    trap's reason in the message of line 84. *)
Theorem main_guest_trap prog ty rest vars m path fs imports g reason :
  env_var vars "CARGO_MANIFEST_DIR" = Ok m ->
  component_path_of m ty (ext_of (has_aot_flag (prog :: ty :: rest))) = Some path ->
  fs !! path = Some (artifact_file (has_aot_flag (prog :: ty :: rest)) (rt_engine_version rt_engine_default)
                       (handler_artifact imports None g)) ->
  Forall (fun i => import_satisfied (bundle_defs rt_wasi_bundle) i = true) imports ->
  gf_type g = handleevent_ty ->
  gf_body g [lower_request request] = GTrap reason ->
  main (cli_env (prog :: ty :: rest) vars) fs =
    ([Ev Stdout (loading_line ty (has_aot_flag (prog :: ty :: rest)) path)],
     inl (Panicked ("Failed to call handleevent: Trap(" +:+ reason +:+ ")"))).
Proof.
  intros Hm Hp Hf Himp Hty Htrap.
  rewrite (main_loaded _ _ _ _ _ (parse_cli_ok (cli_env (prog :: ty :: rest) vars) (prog :: ty :: rest) ty m path eq_refl eq_refl Hm Hp) Hf).
  unfold spec_run. rewrite handler_instantiate_typed by done. proc_simpl. unfold spec_call. by rewrite Htrap.
Qed.

(** C14: [add_to_linker_sync] on the fresh linker of line 66 never
    fails, so the [expect] of line 67 never fires, and the linker then
    defines exactly the WASI bundle. *)
Theorem setup_linker_fresh e :
  exists l, setup_linker e = proc_ret l /\ rt_linker_defs l = bundle_defs rt_wasi_bundle.
Proof.
  destruct (rt_add_to_fresh_linker e) as (l & Hl & Hdefs).
  exists l. unfold setup_linker. by rewrite Hl.
Qed.
(** C15: Whatever WASI functions the exported [handleevent] calls
    before it returns -- any finite program of host calls, each chosen
    from the replies so far: arguments, environment, preopens, stdio
    streams, reads, writes, drops -- on the store main.rs builds at
    lines 69-73 none of them writes to the host's stdout or stderr or
    panics, and the state stays inert; the run prints the loading line
    and then exactly what the guest's result decides: the response line
    and status 0, or nothing more and the panic of line 84. *)
Theorem main_wasi_guest prog ty rest vars m path fs imports g :
  env_var vars "CARGO_MANIFEST_DIR" = Ok m ->
  component_path_of m ty (ext_of (has_aot_flag (prog :: ty :: rest))) = Some path ->
  fs !! path = Some (artifact_file (has_aot_flag (prog :: ty :: rest)) (rt_engine_version rt_engine_default)
                       (handler_artifact imports None g)) ->
  Forall (fun i => import_satisfied (bundle_defs rt_wasi_bundle) i = true) imports ->
  gf_type g = handleevent_ty ->
  exists o hs' s', guest_exec (gf_body g [lower_request request]) tables_empty new_state = proc_ret (o, (hs', s'))
    /\ inert_state s'
    /\ main (cli_env (prog :: ty :: rest) vars) fs =
       (Ev Stdout (loading_line ty (has_aot_flag (prog :: ty :: rest)) path)
          :: match call_result o with Ok r => [Ev Stdout (response_line r)] | Err _ => [] end,
        match call_result o with
        | Ok _ => inr tt
        | Err e => inl (Panicked ("Failed to call handleevent: " +:+ debug e))
        end).
Proof.
  intros Hm Hp Hf Himp Hty.
  destruct (guest_exec_inert (gf_body g [lower_request request]) tables_empty new_state
              new_state_inert_state tables_empty_wf) as (o & hs' & s' & Hg & Hs' & _).
  exists o, hs', s'. split_and!; [done|done|].
  rewrite (main_loaded _ _ _ _ _ (parse_cli_ok (cli_env (prog :: ty :: rest) vars) (prog :: ty :: rest) ty m path eq_refl eq_refl Hm Hp) Hf).
  unfold spec_run. rewrite handler_instantiate_typed by done. proc_simpl. unfold spec_call. rewrite Hg. proc_simpl.
  cbn [fst snd]. by destruct (call_result o).
Qed.
End Claims.

(** ** Witnesses, on the reference runtime *)

Definition demo_vars : gmap string os_string := {[ "CARGO_MANIFEST_DIR" := OsUnicode "/m" ]}.

Definition demo_imports : list (string * iface_sig) :=
  [("wasi:cli/environment@0.2.0", [("get-arguments", "func() -> list<string>")]); ("wasi:cli/exit@0.2.0", [])].

Definition demo_rs_wasm : string := "/m/../component/rust/target/wasm32-wasip1/release/handler_rs.wasm".
Definition demo_rs_cwasm : string := "/m/../component/rust/target/wasm32-wasip1/release/handler_rs.cwasm".
Definition demo_js_wasm : string := "/m/../component/js/handler.wasm".

Definition demo_fs (a : Artifact) : FileSystem :=
  {[ demo_rs_wasm := WasmFile (ModuleBytes a true); demo_rs_cwasm := CwasmFile "wasmtime" a ]}.

(** A guest exporting [handleevent] at the wrong type, and one that traps. *)
Definition demo_mistyped : guest_func :=
  {| gf_type := {| ft_params := [("event", TPrim TString)]; ft_result := Some (TPrim TString) |};
     gf_body := fun _ => GReturn None |}.
Definition demo_trapping : guest_func :=
  {| gf_type := handleevent_ty; gf_body := fun _ => GTrap "unreachable" |}.

Definition demo_http_import : string * iface_sig :=
  ("wasi:http/outgoing-handler@0.2.0", [("handle", "func(request: outgoing-request) -> result<future-incoming-response, error-code>")]).

Lemma main_passthrough_witness :
  run_main (H := RefRuntime.runtime) (cli_env ["runner"; "rs"] demo_vars) (demo_fs (rust_guest_artifact demo_imports)) =
    ([Ev Stdout (loading_line "rs" false demo_rs_wasm); Ev Stdout "Response: Test URI"], 0%Z).
Proof.
  apply (main_passthrough (RL := RefRuntime.runtime_laws) "runner" "rs" [] demo_vars "/m" demo_rs_wasm
           (demo_fs (rust_guest_artifact demo_imports)) demo_imports);
    [reflexivity | reflexivity | vm_compute; reflexivity | repeat constructor].
Defined.

Lemma main_aot_equiv_witness :
  exists out status,
    run_main (H := RefRuntime.runtime) (cli_env ["runner"; "rs"] demo_vars) (demo_fs (rust_guest_artifact demo_imports))
      = (Ev Stdout (loading_line "rs" false demo_rs_wasm) :: out, status)
    /\ run_main (H := RefRuntime.runtime) (cli_env ["runner"; "rs"; "--aot"] demo_vars) (demo_fs (rust_guest_artifact demo_imports))
      = (Ev Stdout (loading_line "rs" true demo_rs_cwasm) :: out, status)
    /\ out = (spec_run RefRuntime.wasi_p2 (rust_guest_artifact demo_imports)).1
    /\ status = exit_status (spec_run RefRuntime.wasi_p2 (rust_guest_artifact demo_imports)).2.
Proof.
  apply (main_aot_equiv (RL := RefRuntime.runtime_laws) "runner" "rs" [] demo_vars "/m" demo_rs_wasm demo_rs_cwasm
           (demo_fs (rust_guest_artifact demo_imports)) (rust_guest_artifact demo_imports));
    [simpl; intuition discriminate | reflexivity | reflexivity | reflexivity
    | vm_compute; reflexivity | vm_compute; reflexivity].
Defined.

Lemma main_usage_witness :
  main (H := RefRuntime.runtime) {| env_argv := [OsUnicode "runner"]; env_vars := ∅ |} ∅
  = ([Ev Stderr "Usage: runner <rs|js> [--aot]"], inl (Exited 1)).
Proof. apply (main_usage (H := RefRuntime.runtime) _ _ "runner"). reflexivity. Defined.

Lemma main_empty_argv_panics_witness :
  main (H := RefRuntime.runtime) {| env_argv := []; env_vars := demo_vars |} ∅
  = ([], inl (Panicked "index out of bounds: the len is 0 but the index is 0")).
Proof. apply (main_empty_argv_panics (H := RefRuntime.runtime)). reflexivity. Defined.

(** The flag in the position of the component type. *)
Lemma main_invalid_type_witness :
  main (H := RefRuntime.runtime) (cli_env ["runner"; "--aot"; "rs"] demo_vars) ∅
  = ([Ev Stderr "Invalid component type: --aot. Use 'rs' or 'js'"], inl (Exited 1)).
Proof.
  apply (main_invalid_type (H := RefRuntime.runtime) _ _ ["runner"; "--aot"; "rs"] "--aot" "/m");
    [reflexivity | reflexivity | reflexivity | discriminate | discriminate].
Defined.

(** An unknown component type and no [CARGO_MANIFEST_DIR]: the panic,
    not the usage error. *)
Lemma main_manifest_checked_first_witness :
  main (H := RefRuntime.runtime) (cli_env ["runner"; "zz"] ∅) ∅
  = ([], inl (Panicked "CARGO_MANIFEST_DIR not set. Please run using cargo: NotPresent")).
Proof.
  apply (main_manifest_checked_first (H := RefRuntime.runtime) _ _ ["runner"; "zz"] "zz" NotPresent);
    reflexivity.
Defined.

Lemma main_missing_artifact_witness :
  main (H := RefRuntime.runtime) (cli_env ["runner"; "js"] demo_vars) (demo_fs (rust_guest_artifact demo_imports))
  = ([Ev Stdout (loading_line "js" false demo_js_wasm)],
     inl (Panicked "Failed to load component: LoadError(NotFound)")).
Proof.
  apply (main_missing_artifact (RL := RefRuntime.runtime_laws) "runner" "js" [] demo_vars "/m" demo_js_wasm);
    [reflexivity | reflexivity | vm_compute; reflexivity].
Defined.

Lemma main_unresolved_import_witness :
  main (H := RefRuntime.runtime) (cli_env ["runner"; "rs"] demo_vars)
    (demo_fs (rust_guest_artifact (demo_imports ++ [demo_http_import])))
  = ([Ev Stdout (loading_line "rs" false demo_rs_wasm)],
     inl (Panicked "Failed to instantiate component: UnresolvedImport(wasi:http/outgoing-handler@0.2.0)")).
Proof.
  apply (main_unresolved_import (RL := RefRuntime.runtime_laws) "runner" "rs" [] demo_vars "/m" demo_rs_wasm
           _ (rust_guest_artifact (demo_imports ++ [demo_http_import])) demo_imports demo_http_import []);
    [reflexivity | reflexivity | vm_compute; reflexivity | reflexivity | repeat constructor
    | vm_compute; reflexivity].
Defined.

(** A mistyped export and a start code that traps: the trap is reported. *)
Lemma main_export_typecheck_after_start_witness :
  main (H := RefRuntime.runtime) (cli_env ["runner"; "rs"] demo_vars)
    (demo_fs (handler_artifact demo_imports (Some "unreachable") demo_mistyped))
  = ([Ev Stdout (loading_line "rs" false demo_rs_wasm)],
     inl (Panicked "Failed to instantiate component: StartTrap(unreachable)")).
Proof.
  apply (main_export_typecheck_after_start (RL := RefRuntime.runtime_laws) "runner" "rs" [] demo_vars "/m" demo_rs_wasm
           _ demo_imports (Some "unreachable") demo_mistyped);
    [reflexivity | reflexivity | vm_compute; reflexivity | repeat constructor | discriminate].
Defined.

Lemma main_guest_trap_witness :
  main (H := RefRuntime.runtime) (cli_env ["runner"; "rs"] demo_vars)
    (demo_fs (handler_artifact demo_imports None demo_trapping))
  = ([Ev Stdout (loading_line "rs" false demo_rs_wasm)],
     inl (Panicked "Failed to call handleevent: Trap(unreachable)")).
Proof.
  apply (main_guest_trap (RL := RefRuntime.runtime_laws) "runner" "rs" [] demo_vars "/m" demo_rs_wasm
           _ demo_imports demo_trapping "unreachable");
    [reflexivity | reflexivity | vm_compute; reflexivity | repeat constructor | reflexivity | reflexivity].
Defined.

(** A guest whose [handleevent] gets stdout, writes [hello] to it, and
    returns its argument. *)
Definition demo_wasi_guest : guest_func :=
  {| gf_type := handleevent_ty;
     gf_body := fun args =>
       GCall GetStdout (fun rep =>
         match rep with
         | RHandle h =>
             GCall (BlockingWriteAndFlush h demo_bytes) (fun _ =>
               match args with [v] => GReturn (Some v) | _ => GTrap "unreachable" end)
         | _ => GTrap "no stdout"
         end) |}.

Lemma main_wasi_guest_witness :
  exists o hs' s', guest_exec (gf_body demo_wasi_guest [lower_request request]) tables_empty new_state
      = proc_ret (o, (hs', s'))
    /\ inert_state s'
    /\ main (H := RefRuntime.runtime) (cli_env ["runner"; "rs"] demo_vars)
         (demo_fs (handler_artifact demo_imports None demo_wasi_guest)) =
       (Ev Stdout (loading_line "rs" (has_aot_flag ["runner"; "rs"]) demo_rs_wasm)
          :: match call_result o with Ok r => [Ev Stdout (response_line r)] | Err _ => [] end,
        match call_result o with
        | Ok _ => inr tt
        | Err e => inl (Panicked ("Failed to call handleevent: " +:+ debug e))
        end).
Proof.
  apply (main_wasi_guest (RL := RefRuntime.runtime_laws) "runner" "rs" [] demo_vars "/m" demo_rs_wasm
           (demo_fs (handler_artifact demo_imports None demo_wasi_guest)) demo_imports demo_wasi_guest);
    [reflexivity | reflexivity | vm_compute; reflexivity | repeat constructor | reflexivity].
Defined.

Lemma main_refines_witness :
  main (H := RefRuntime.runtime) (cli_env ["runner"; "rs"] demo_vars) (demo_fs (rust_guest_artifact demo_imports))
  = main_spec "wasmtime" RefRuntime.wasi_p2 (cli_env ["runner"; "rs"] demo_vars) (demo_fs (rust_guest_artifact demo_imports)).
Proof. exact (main_refines (RL := RefRuntime.runtime_laws) _ _). Defined.

Lemma run_main_outcomes_witness :
  let r := run_main (H := RefRuntime.runtime) (cli_env ["runner"; "rs"; "--aot"] demo_vars)
             (demo_fs (handler_artifact demo_imports None demo_trapping)) in
  (exists l resp, r = ([Ev Stdout l; Ev Stdout (response_line resp)], 0%Z))
  \/ (exists l, r = ([Ev Stderr l], 1%Z)) \/ r = ([], 101%Z) \/ (exists l, r = ([Ev Stdout l], 101%Z)).
Proof. exact (run_main_outcomes (RL := RefRuntime.runtime_laws) _ _). Defined.

Lemma setup_linker_fresh_witness :
  exists l, setup_linker (H := RefRuntime.runtime) RefRuntime.default_engine = proc_ret l
            /\ RefRuntime.linker_defs l = bundle_defs RefRuntime.wasi_p2.
Proof. exact (setup_linker_fresh (RL := RefRuntime.runtime_laws) _). Defined.
