(* ===== verification/Linking.v ===== *)
(** * Semver-compatible linking of the guest's imports

    The linker main.rs builds at lines 65-67 ([setup_linker]) holds the
    WASI bundle in wasmtime's name map (NameMap.v), and
    [HandlerWorld::instantiate] (line 75) looks each import of the guest
    up with [NameMap::get].  The theorems below state what that lookup
    does on the linker [setup_linker] returns, over every runtime
    satisfying [RuntimeLaws]:

    - an import of a [0.0.p] release, which has no alternate key, is
      found under its exact name only, whatever other [0.0.x] releases
      the bundle defines;
    - a lookup that succeeds returns the exact definition or a
      compatible one of the greatest version;
    - a guest built against any patch release [0.m.p] of an interface
      the bundle defines once on the [0.m] track links to that
      definition, whatever the two patch numbers are;
    - end to end, the Rust guest built against such releases of the
      interfaces it imports runs through [main] and prints the response.

    The spec (4.2) says resolution is by exact name; the code, through
    wasmtime, also accepts compatible versions (see PROJECT.json's
    findings). *)

From S2P Require Import Prelude Process Cli Wit Wasi Canon NameMap Runtime RefRuntime Host.
From Stdlib Require Import Ascii.

Local Open Scope string_scope.

(** [setup_linker] returns the linker defining the bundle. *)
Ltac setup_fresh e :=
  let l := fresh "l" in let Hl := fresh "Hl" in let Hdefs := fresh "Hdefs" in
  destruct (rt_add_to_fresh_linker e) as (l & Hl & Hdefs);
  exists l; split; [unfold setup_linker; by rewrite Hl|]; rewrite Hdefs.

(** The alternate keys of the bundle's definitions are pairwise
    distinct. *)
Definition keys_distinct (bundle : list (string * iface_sig)) : Prop :=
  NoDup ((fun e => fst <$> alternate_lookup_key e.1) <$> bundle).

Section Linking.
Context `{RL : RuntimeLaws}.

(** C24: on the linker main.rs sets up, an import of a [0.0.p] release
    of an interface ([base@0.0.p], [base] without ['@']) is found under
    that exact name only: the lookup returns the bundle's definition of
    [base@0.0.p] if it has one and fails otherwise, whatever other
    [0.0.x] releases of [base] the bundle defines, since [0.0.x] versions
    have no alternate key. *)
Theorem setup_linker_zero_zero_exact e base p :
  str_all (fun a => negb (Ascii.eqb a "@")) base = true -> (p <= u64_max)%N ->
  exists l, setup_linker e = proc_ret l
    /\ nm_get (rt_linker_defs l) (base +:+ "@0.0." +:+ pretty p)
       = (list_to_map rt_wasi_bundle : gmap string iface_sig) !! (base +:+ "@0.0." +:+ pretty p).
Proof.
  intros Hb Hp. setup_fresh e. rewrite nm_get_bundle by apply wasi_bundle_nodup.
  unfold bundle_lookup. rewrite alternate_lookup_key_zero_zero by done.
  by destruct (_ !! _).
Qed.

(** C25: on the linker main.rs sets up, a lookup that succeeds returns
    the bundle's definition of the name itself, or, when the name is not
    defined, a definition under the same alternate key whose version no
    other definition under that key exceeds. *)
Theorem setup_linker_lookup_latest e :
  exists l, setup_linker e = proc_ret l
    /\ forall name d, nm_get (rt_linker_defs l) name = Some d ->
       (name, d) ∈ rt_wasi_bundle
       \/ ((name ∉ rt_wasi_bundle.*1) /\ exists k v n' v', alternate_lookup_key name = Some (k, v)
           /\ (n', d) ∈ rt_wasi_bundle /\ alternate_lookup_key n' = Some (k, v')
           /\ forall n'' v'', compatible_in rt_wasi_bundle k n'' v'' -> version_lt v' v'' = false).
Proof.
  setup_fresh e. intros name d. rewrite nm_get_bundle by apply wasi_bundle_nodup.
  apply bundle_lookup_Some, wasi_bundle_nodup.
Qed.

(** C26: a guest built against any patch release [base@0.m.p] ([m <> 0])
    of an interface the bundle defines as [base@0.m.p'], the only
    definition on that track, links to that definition, for all patch
    numbers [p] and [p'] within [u64::MAX], older or newer. *)
Theorem setup_linker_links_track e base m p p' sig :
  str_all (fun a => negb (Ascii.eqb a "@")) base = true -> m <> 0%N ->
  (m <= u64_max)%N -> (p <= u64_max)%N -> (p' <= u64_max)%N ->
  (base +:+ "@0." +:+ pretty m +:+ "." +:+ pretty p', sig) ∈ rt_wasi_bundle ->
  Forall (fun d => d.1 = base +:+ "@0." +:+ pretty m +:+ "." +:+ pretty p'
                   \/ fst <$> alternate_lookup_key d.1 <> Some (base +:+ "@0." +:+ pretty m)) rt_wasi_bundle ->
  exists l, setup_linker e = proc_ret l
    /\ nm_get (rt_linker_defs l) (base +:+ "@0." +:+ pretty m +:+ "." +:+ pretty p) = Some sig.
Proof.
  intros. setup_fresh e. rewrite nm_get_bundle by apply wasi_bundle_nodup.
  by apply (bundle_lookup_track _ base m p p' sig); [apply wasi_bundle_nodup|..].
Qed.

(** An import of a version on the track of a definition of the bundle
    is satisfied when the definition provides the functions it needs. *)
Lemma track_import_satisfied base m q q' sig needs :
  keys_distinct rt_wasi_bundle ->
  str_all (fun a => negb (Ascii.eqb a "@")) base = true -> m <> 0%N ->
  (m <= u64_max)%N -> (q <= u64_max)%N -> (q' <= u64_max)%N ->
  (base +:+ "@0." +:+ pretty m +:+ "." +:+ pretty q', sig) ∈ rt_wasi_bundle ->
  Forall (fun f => assoc_lookup f.1 sig = Some f.2) needs ->
  import_satisfied (bundle_defs rt_wasi_bundle) (base +:+ "@0." +:+ pretty m +:+ "." +:+ pretty q, needs) = true.
Proof.
  intros Hkeys Hb Hm0 Hm Hq Hq' Hin Hneeds. unfold import_satisfied. simpl.
  rewrite nm_get_bundle by apply wasi_bundle_nodup.
  rewrite (bundle_lookup_track _ base m q q' sig); [|apply wasi_bundle_nodup|done..|].
  - apply forallb_forall. intros f Hf. apply bool_decide_eq_true_2.
    rewrite Forall_forall in Hneeds. by apply Hneeds, list_elem_of_In.
  - eapply alone_on_track; [done|done|]. by apply alternate_lookup_key_track.
Qed.

(** C27: with the Rust guest at the path the CLI selects, built against
    any releases [0.m.q] of the WASI interfaces whose versions [0.m.q']
    the bundle defines (each import providing the functions it needs,
    no two definitions of the bundle on one track), the run prints the
    loading line and [Response: Test URI] and exits with status 0,
    whatever the patch numbers of guest and host. *)
Theorem main_passthrough_any_patch prog ty rest vars mdir path fs imports :
  env_var vars "CARGO_MANIFEST_DIR" = Ok mdir ->
  component_path_of mdir ty (ext_of (has_aot_flag (prog :: ty :: rest))) = Some path ->
  fs !! path = Some (artifact_file (has_aot_flag (prog :: ty :: rest))
                       (rt_engine_version rt_engine_default) (rust_guest_artifact imports)) ->
  keys_distinct rt_wasi_bundle ->
  Forall (fun imp => exists base m q q' sig,
            imp.1 = base +:+ "@0." +:+ pretty m +:+ "." +:+ pretty q
            /\ str_all (fun a => negb (Ascii.eqb a "@")) base = true /\ m <> 0%N
            /\ (m <= u64_max)%N /\ (q <= u64_max)%N /\ (q' <= u64_max)%N
            /\ (base +:+ "@0." +:+ pretty m +:+ "." +:+ pretty q', sig) ∈ rt_wasi_bundle
            /\ Forall (fun f => assoc_lookup f.1 sig = Some f.2) imp.2) imports ->
  run_main (cli_env (prog :: ty :: rest) vars) fs =
    ([Ev Stdout (loading_line ty (has_aot_flag (prog :: ty :: rest)) path);
      Ev Stdout "Response: Test URI"], 0%Z).
Proof.
  intros Hm Hp Hf Hkeys Himp. unfold run_main.
  rewrite (main_loaded _ _ _ _ _ (parse_cli_ok (cli_env (prog :: ty :: rest) vars) (prog :: ty :: rest) ty mdir path eq_refl eq_refl Hm Hp) Hf).
  assert (Hsat : Forall (fun i => import_satisfied (bundle_defs rt_wasi_bundle) i = true) imports).
  { eapply Forall_impl; [exact Himp|].
    intros [name needs] (base & m & q & q' & sig & Hn & Hb & Hm0 & HM & Hq & Hq' & Hin & Hneeds).
    simpl in Hn. subst name. by apply (track_import_satisfied base m q q' sig). }
  rewrite (spec_run_ok _ _ _ request (tables_empty, new_state) (rust_guest_instantiate _ _ Hsat)); [done|].
  apply spec_call_rust_guest.
Qed.

End Linking.

(** ** Witnesses, on the reference runtime *)

Lemma setup_linker_zero_zero_exact_witness :
  str_all (fun a => negb (Ascii.eqb a "@")) "wasi:cli/stdout" = true /\ (2 <= u64_max)%N /\
  exists l, setup_linker (H := RefRuntime.runtime) RefRuntime.default_engine = proc_ret l
    /\ nm_get (RefRuntime.linker_defs l) ("wasi:cli/stdout" +:+ "@0.0." +:+ pretty 2%N)
       = (list_to_map RefRuntime.wasi_p2 : gmap string iface_sig) !! ("wasi:cli/stdout" +:+ "@0.0." +:+ pretty 2%N).
Proof.
  split; [reflexivity|]. split; [vm_compute; congruence|].
  exact (setup_linker_zero_zero_exact (RL := RefRuntime.runtime_laws) _ "wasi:cli/stdout" 2%N eq_refl ltac:(vm_compute; congruence)).
Defined.

Lemma setup_linker_lookup_latest_witness :
  exists l, setup_linker (H := RefRuntime.runtime) RefRuntime.default_engine = proc_ret l
    /\ forall name d, nm_get (RefRuntime.linker_defs l) name = Some d ->
       (name, d) ∈ RefRuntime.wasi_p2
       \/ ((name ∉ RefRuntime.wasi_p2.*1) /\ exists k v n' v', alternate_lookup_key name = Some (k, v)
           /\ (n', d) ∈ RefRuntime.wasi_p2 /\ alternate_lookup_key n' = Some (k, v')
           /\ forall n'' v'', compatible_in RefRuntime.wasi_p2 k n'' v'' -> version_lt v' v'' = false).
Proof. exact (setup_linker_lookup_latest (RL := RefRuntime.runtime_laws) _). Defined.

Lemma wasi_p2_keys_distinct : keys_distinct RefRuntime.wasi_p2.
Proof. apply (bool_decide_unpack _). vm_compute. reflexivity. Qed.

(** The demo guest of Host, built against WASI 0.2.0, runs on the
    bundle's 0.2.3. *)
Lemma main_passthrough_any_patch_witness :
  run_main (H := RefRuntime.runtime) (cli_env ["runner"; "rs"] demo_vars) (demo_fs (rust_guest_artifact demo_imports)) =
    ([Ev Stdout (loading_line "rs" false demo_rs_wasm); Ev Stdout "Response: Test URI"], 0%Z).
Proof.
  apply (main_passthrough_any_patch (RL := RefRuntime.runtime_laws) "runner" "rs" [] demo_vars "/m" demo_rs_wasm
           (demo_fs (rust_guest_artifact demo_imports)) demo_imports);
    [reflexivity | reflexivity | vm_compute; reflexivity | exact wasi_p2_keys_distinct |].
  repeat constructor.
  - exists "wasi:cli/environment", 2%N, 0%N, 3%N, [("get-environment", "func() -> list<tuple<string, string>>");
     ("get-arguments", "func() -> list<string>"); ("initial-cwd", "func() -> option<string>")].
    split_and!; [vm_compute; reflexivity|reflexivity|lia|vm_compute; done|vm_compute; done|vm_compute; done
                |apply list_elem_of_In; vm_compute; tauto|repeat constructor].
  - exists "wasi:cli/exit", 2%N, 0%N, 3%N, [("exit", "func(status: result)")].
    split_and!; [vm_compute; reflexivity|reflexivity|lia|vm_compute; done|vm_compute; done|vm_compute; done
                |apply list_elem_of_In; vm_compute; tauto|repeat constructor].
Defined.

(** A guest importing [wasi:cli/stdout@0.2.0] links to the bundle's
    [wasi:cli/stdout@0.2.3]. *)
Lemma setup_linker_links_track_witness :
  exists l, setup_linker (H := RefRuntime.runtime) RefRuntime.default_engine = proc_ret l
    /\ nm_get (RefRuntime.linker_defs l) ("wasi:cli/stdout" +:+ "@0." +:+ pretty 2%N +:+ "." +:+ pretty 0%N)
       = Some [("get-stdout", "func() -> output-stream")].
Proof.
  apply (setup_linker_links_track (RL := RefRuntime.runtime_laws) _ "wasi:cli/stdout" 2 0 3).
  - reflexivity.
  - lia.
  - vm_compute. done.
  - vm_compute. done.
  - vm_compute. done.
  - apply list_elem_of_In. vm_compute. tauto.
  - apply Forall_forall. intros d Hd. apply list_elem_of_In in Hd.
    vm_compute in Hd. destruct_or! Hd; subst d; first [left; reflexivity | right; vm_compute; discriminate].
Defined.
